(** * demo-car-agent: chunking, embedding, indexing and question answering

    A shallow embedding of the document pipeline of the repository
    ([document_processor.py], [embedding_service.py], [vector_store.py],
    [rag_system.py]) together with the properties its specification
    states about it.

    Python values are modelled as follows.
    - A [str] is a sequence of Unicode code points: [pystr := list N].
      The literals of the source are written with [py], which decodes the
      UTF-8 bytes of a literal into code points.
    - A [dict] with string keys is a [gmap string _].
    - An [int] is a [Z] (a loop counter that only counts up is a [nat]).
    - Remote services (the embedding model, the chat model, the search
      engine, the clock) are oracles over an abstract world; every call is
      recorded in a trace.  An exception is a value: fallible code lives in
      a small state-and-error monad. *)

From Stdlib Require Import ZArith NArith Ascii String DecimalString DecimalNat DecimalZ Sorted.
From stdpp Require Import gmap strings list.

Local Open Scope N_scope.

(** ** Python strings *)

Module PyStr.

Definition pystr := list N.

(** UTF-8 decoding of a literal: one to four bytes per code point. *)
Fixpoint utf8_decode (bs : list N) : pystr :=
  match bs with
  | [] => []
  | b0 :: r0 =>
    if b0 <? 0x80 then b0 :: utf8_decode r0
    else
      match r0 with
      | [] => []
      | b1 :: r1 =>
        if b0 <? 0xE0 then ((b0 - 0xC0) * 64 + (b1 - 0x80)) :: utf8_decode r1
        else
          match r1 with
          | [] => []
          | b2 :: r2 =>
            if b0 <? 0xF0
            then ((b0 - 0xE0) * 4096 + (b1 - 0x80) * 64 + (b2 - 0x80)) :: utf8_decode r2
            else
              match r2 with
              | [] => []
              | b3 :: r3 =>
                ((b0 - 0xF0) * 262144 + (b1 - 0x80) * 4096
                 + (b2 - 0x80) * 64 + (b3 - 0x80)) :: utf8_decode r3
              end
          end
      end
  end.

Definition py (s : string) : pystr :=
  utf8_decode (map N_of_ascii (list_ascii_of_string s)).

(** [Py_UNICODE_ISSPACE]: the characters [str.strip()], [str.isspace()]
    and the pattern [\s] of [re] treat as whitespace. *)
Definition Py_UNICODE_ISSPACE (c : N) : bool :=
  ((0x09 <=? c) && (c <=? 0x0D)) || ((0x1C <=? c) && (c <=? 0x20))
  || (c =? 0x85) || (c =? 0xA0) || (c =? 0x1680)
  || ((0x2000 <=? c) && (c <=? 0x200A))
  || (c =? 0x2028) || (c =? 0x2029) || (c =? 0x202F) || (c =? 0x205F)
  || (c =? 0x3000).

Fixpoint lstrip (s : pystr) : pystr :=
  match s with
  | [] => []
  | c :: rest => if Py_UNICODE_ISSPACE c then lstrip rest else s
  end.

Definition rstrip (s : pystr) : pystr := rev (lstrip (rev s)).

(** [s.strip()] *)
Definition strip (s : pystr) : pystr := rstrip (lstrip s).

(** Truthiness of a string: [if s:] holds for the non-empty string. *)
Definition truthy (s : pystr) : bool :=
  match s with [] => false | _ => true end.

Definition eqb_str (a b : pystr) : bool := bool_decide (a = b).

Fixpoint startswith (p s : pystr) : bool :=
  match p, s with
  | [], _ => true
  | a :: p', b :: s' => (a =? b) && startswith p' s'
  | _ :: _, [] => false
  end.

(** [p in s]: [p] occurs in [s] as a contiguous substring. *)
Fixpoint contains (p s : pystr) : bool :=
  startswith p s || match s with [] => false | _ :: s' => contains p s' end.

(** [s.split(sep)] for a non-empty separator: the pieces between the
    leftmost non-overlapping occurrences of [sep].  [skip] counts the
    characters of an occurrence that are still to be passed over, [cur] is
    the piece being read, reversed. *)
Fixpoint split_from (sep : pystr) (skip : nat) (cur s : pystr) : list pystr :=
  match s with
  | [] => [rev cur]
  | c :: rest =>
    match skip with
    | S k => split_from sep k cur rest
    | O =>
      if startswith sep s
      then rev cur :: split_from sep (pred (length sep)) [] rest
      else split_from sep O (c :: cur) rest
    end
  end.

Definition split (sep s : pystr) : list pystr := split_from sep O [] s.

(** [sep.join(parts)] *)
Fixpoint join (sep : pystr) (parts : list pystr) : pystr :=
  match parts with
  | [] => []
  | [p] => p
  | p :: rest => p ++ sep ++ join sep rest
  end.

(** [str(n)] for an [int] and for a non-negative counter. *)
Definition str_of_string (s : string) : pystr :=
  map N_of_ascii (list_ascii_of_string s).

Definition str_Z (z : Z) : pystr :=
  str_of_string (NilZero.string_of_int (Z.to_int z)).

Definition str_nat (n : nat) : pystr :=
  str_of_string (NilEmpty.string_of_uint (Nat.to_uint n)).

End PyStr.
Import PyStr.

(** ** Regular expressions of the chunker *)

Module Re.

Definition NL : N := 0x0A.
Definition HASH : N := 0x23.

(** [.+$] at the end of a pattern without flags: one or more characters
    other than a newline, up to the end of the string or up to a newline
    that ends the string. *)
Fixpoint dot_plus_end (s : pystr) : bool :=
  match s with
  | [] => false
  | c :: rest =>
    negb (c =? NL)
    && match rest with
       | [] => true
       | [c'] => (c' =? NL) || dot_plus_end rest
       | _ => dot_plus_end rest
       end
  end.

(** [\s+(.+)$] matched at the start of [s]. *)
Fixpoint spaces_then_text (s : pystr) : bool :=
  match s with
  | [] => false
  | c :: rest => Py_UNICODE_ISSPACE c && (dot_plus_end rest || spaces_then_text rest)
  end.

(** [#{1,n}\s+(.+)$] matched at the start of [s]. *)
Fixpoint hashes_then_text (n : nat) (s : pystr) : bool :=
  match n, s with
  | S n', c :: rest => (c =? HASH) && (spaces_then_text rest || hashes_then_text n' rest)
  | _, _ => false
  end.

(** [re.match(r'^(#{1,6})\s+(.+)$', line)] as a truth value. *)
Definition match_heading (line : pystr) : bool := hashes_then_text 6 line.

Definition is_terminator (c : N) : bool :=
  (c =? 0x2E) || (c =? 0x21) || (c =? 0x3F).

Definition next_is_space (s : pystr) : bool :=
  match s with
  | c :: _ => Py_UNICODE_ISSPACE c
  | [] => false
  end.

(** [re.split(r'[.!?]\s+', s)]: the pieces between the leftmost
    non-overlapping matches.  A match is one of [.], [!], [?] followed by
    at least one whitespace character and takes all the whitespace that
    follows.  [in_gap] holds while the whitespace of a match is being
    passed over; [cur] is the piece being read, reversed. *)
Fixpoint split_sentences_from (in_gap : bool) (cur s : pystr) : list pystr :=
  match s with
  | [] => [rev cur]
  | c :: rest =>
    if in_gap && Py_UNICODE_ISSPACE c then split_sentences_from true cur rest
    else if is_terminator c && next_is_space rest
         then rev cur :: split_sentences_from true [] rest
         else split_sentences_from false (c :: cur) rest
  end.

Definition split_sentences (s : pystr) : list pystr :=
  split_sentences_from false [] s.

End Re.

(** ** Section splitter: [DocumentProcessor._split_by_sections] *)

Module Splitter.

(** The loop state: the sections closed so far and the lines of the
    section being read, both in source order. *)
Definition split_state : Type := list pystr * list pystr.

Definition NL_str : pystr := [Re.NL].

(** One iteration of [for line in lines]. *)
Definition split_step (st : split_state) (line : pystr) : split_state :=
  let '(sections, current_section) := st in
  if Re.match_heading line then
    match current_section with
    | _ :: _ => (sections ++ [join NL_str current_section], [line])
    | [] => (sections, [line])
    end
  else (sections, current_section ++ [line]).

Definition _split_by_sections (content : pystr) : list pystr :=
  let lines := split NL_str content in
  let '(sections, current_section) := foldl split_step ([], []) lines in
  let sections :=
    match current_section with
    | _ :: _ => sections ++ [join NL_str current_section]
    | [] => sections
    end in
  List.filter (fun section => truthy (strip section)) sections.

End Splitter.

(** ** Chunker: [DocumentProcessor] *)

Module Chunker.

(** [config.MAX_TOKENS_PER_CHUNK] *)
Definition MAX_TOKENS_PER_CHUNK : nat := 512.

(** A value of the document metadata. *)
Inductive mval :=
| MStr (s : pystr)
| MInt (n : Z).

(** One entry of [images_info], as [_extract_images_info] builds it. *)
Record ImageInfo := {
  img_page_number : Z;
  image_index : Z;
  xref : Z;
  width : Z;
  height : Z;
  data : pystr
}.

(** One element of [markdown_content]: a string, a dict of which the
    chunker reads the keys ['text'] and ['content'], or another object.
    [repr] is what [str(page_content)] gives for it. *)
Inductive PageContent :=
| PageStr (s : pystr)
| PageDict (text content : option pystr) (repr : pystr)
| PageOther (repr : pystr).

(** [markdown_content]: a list of pages, or one string. *)
Inductive Markdown :=
| MdPages (pages : list PageContent)
| MdText (s : pystr).

(** The [content] dict handed to [create_chunks]. *)
Record Content := {
  markdown_content : Markdown;
  metadata : gmap string mval;
  images_info : list ImageInfo;
  source_file : option mval;
  timestamp : option mval
}.

Record DocumentChunk := {
  content : pystr;
  chunk_metadata : gmap string mval;
  page_number : Z;
  chunk_id : pystr;
  section_type : option pystr;
  has_images : bool;
  image_descriptions : list pystr
}.

Definition warning_keywords : list pystr := map py ["주의"; "경고"; "위험"; "조심"]%string.
Definition instruction_keywords : list pystr := map py ["사용법"; "조작"; "작동"; "방법"]%string.
Definition specification_keywords : list pystr := map py ["사양"; "규격"; "제원"]%string.
Definition troubleshooting_keywords : list pystr :=
  map py ["문제해결"; "고장"; "점검"; "진단"]%string.

(** [any(keyword in text for keyword in keywords)] *)
Definition any_keyword_in (keywords : list pystr) (text : pystr) : bool :=
  existsb (fun keyword => contains keyword text) keywords.

(** [{**metadata, 'source_file': ..., 'processing_timestamp': ...}] *)
Definition chunk_metadata_of (c : Content) : gmap string mval :=
  <["processing_timestamp"%string := default (MStr []) (timestamp c)]>
    (<["source_file"%string := default (MStr []) (source_file c)]> (metadata c)).

(** [a or b] on strings. *)
Definition or_str (a b : pystr) : pystr := if truthy a then a else b.

(** The text of a page, by the fallback order of [create_chunks]. *)
Definition text_content_of (page_content : PageContent) : pystr :=
  match page_content with
  | PageDict text content repr =>
    or_str (default [] text) (or_str (default [] content) repr)
  | PageStr s => s
  | PageOther repr => repr
  end.

Definition page_contents_of (md : Markdown) : list PageContent :=
  match md with
  | MdPages pages => pages
  | MdText s => map PageStr (split (py "
---
") s)
  end.

(** The description list of a chunk: one sentence naming the page and the
    number of its images, or nothing for a page without images. *)
Definition image_descriptions_of (page_number : Z) (page_images : list ImageInfo)
  : list pystr :=
  match page_images with
  | [] => []
  | _ :: _ =>
    [py "페이지 " ++ str_Z page_number ++ py "에 "
     ++ str_nat (length page_images) ++ py "개의 이미지 포함"]
  end.

(** [enumerate(l, start)] *)
Fixpoint enumerate {A} (start : nat) (l : list A) : list (nat * A) :=
  match l with
  | [] => []
  | x :: rest => (start, x) :: enumerate (S start) rest
  end.

(** [f"chunk_{chunk_id}"] *)
Definition chunk_name (chunk_id : nat) : pystr := py "chunk_" ++ str_nat chunk_id.

Section WithRuntime.

(** The case table of the Unicode database ([_PyUnicode_ToLowerFull]) and
    the lowering of a capital sigma, which depends on the characters
    before and after it. *)
Variable tolower_full : N -> list N.
Variable lower_sigma : pystr -> pystr -> N.

(** The tokenizer of the processor, [tiktoken.get_encoding("cl100k_base")]:
    [encode text] is the token sequence of [text]. *)
Variable encode : pystr -> list N.

(** [text.lower()]: every character is replaced by its lowercase mapping;
    [before] holds the characters already passed, last first. *)
Fixpoint lower_from (before text : pystr) : pystr :=
  match text with
  | [] => []
  | c :: rest =>
    (if c =? 0x3A3 then [lower_sigma before rest] else tolower_full c)
    ++ lower_from (c :: before) rest
  end.

Definition lower (text : pystr) : pystr := lower_from [] text.

Definition identify_section_type (text : pystr) : pystr :=
  let text_lower := lower text in
  if any_keyword_in warning_keywords text_lower then py "warning"
  else if any_keyword_in instruction_keywords text_lower then py "instruction"
  else if any_keyword_in specification_keywords text_lower then py "specification"
  else if any_keyword_in troubleshooting_keywords text_lower then py "troubleshooting"
  else py "general".

(** [len(self.tokenizer.encode(text))] *)
Definition token_count (text : pystr) : nat := length (encode text).

(** The chunk [_split_long_section] builds from its buffer. *)
Definition sub_chunk (current_chunk : pystr) (page_number : Z)
    (page_images : list ImageInfo) : DocumentChunk :=
  {| content := strip current_chunk;
     chunk_metadata := ∅;
     page_number := page_number;
     chunk_id := [];
     section_type := Some (identify_section_type current_chunk);
     has_images := bool_decide (0 < length page_images)%nat;
     image_descriptions := image_descriptions_of page_number page_images |}.

(** The loop state of [_split_long_section]: the chunks closed so far and
    the buffer [current_chunk]. *)
Definition long_state : Type := list DocumentChunk * pystr.

(** One iteration of [for sentence in sentences]. *)
Definition long_step (page_number : Z) (page_images : list ImageInfo)
    (st : long_state) (sentence : pystr) : long_state :=
  let '(chunks, current_chunk) := st in
  let test_chunk := current_chunk ++ sentence ++ py ". " in
  if bool_decide (token_count test_chunk ≤ MAX_TOKENS_PER_CHUNK)%nat
  then (chunks, test_chunk)
  else
    (if truthy current_chunk
     then chunks ++ [sub_chunk current_chunk page_number page_images]
     else chunks,
     sentence ++ py ". ").

Definition _split_long_section (section : pystr) (page_number : Z)
    (page_images : list ImageInfo) : list DocumentChunk :=
  let sentences := Re.split_sentences section in
  let '(chunks, current_chunk) :=
    foldl (long_step page_number page_images) ([], []) sentences in
  if truthy current_chunk
  then chunks ++ [sub_chunk current_chunk page_number page_images]
  else chunks.

(** The loop state of [create_chunks]: the chunks emitted so far and the
    counter [chunk_id]. *)
Definition chunks_state : Type := list DocumentChunk * nat.

(** The chunk of a section that fits the budget. *)
Definition whole_chunk (c : Content) (section : pystr) (page_number : Z)
    (page_images : list ImageInfo) (chunk_id : nat) : DocumentChunk :=
  {| content := section;
     chunk_metadata := chunk_metadata_of c;
     page_number := page_number;
     chunk_id := chunk_name chunk_id;
     section_type := Some (identify_section_type section);
     has_images := bool_decide (0 < length page_images)%nat;
     image_descriptions := image_descriptions_of page_number page_images |}.

(** The two assignments of the inner loop over [sub_chunks]. *)
Definition adopt_sub_chunk (c : Content) (st : chunks_state)
    (sub : DocumentChunk) : chunks_state :=
  let '(chunks, chunk_id) := st in
  (chunks ++ [ {| content := content sub;
                  chunk_metadata := chunk_metadata_of c;
                  page_number := page_number sub;
                  chunk_id := chunk_name chunk_id;
                  section_type := section_type sub;
                  has_images := has_images sub;
                  image_descriptions := image_descriptions sub |} ],
   S chunk_id).

(** One iteration of [for section in sections]. *)
Definition section_step (c : Content) (page_number : Z)
    (page_images : list ImageInfo) (st : chunks_state) (section : pystr)
  : chunks_state :=
  let '(chunks, chunk_id) := st in
  if bool_decide (token_count section ≤ MAX_TOKENS_PER_CHUNK)%nat
  then (chunks ++ [whole_chunk c section page_number page_images chunk_id],
        S chunk_id)
  else foldl (adopt_sub_chunk c) st
         (_split_long_section section page_number page_images).

(** One iteration of [for page_num, page_content in enumerate(page_contents)]. *)
Definition page_step (c : Content) (st : chunks_state)
    (entry : nat * PageContent) : chunks_state :=
  let '(page_num, page_content) := entry in
  let text_content := text_content_of page_content in
  if negb (truthy (strip text_content)) then st
  else
    let page_number := (Z.of_nat page_num + 1)%Z in
    let page_images :=
      List.filter (fun img => (img_page_number img =? page_number)%Z)
                  (images_info c) in
    foldl (section_step c page_number page_images) st
          (Splitter._split_by_sections text_content).

Definition create_chunks (c : Content) : list DocumentChunk :=
  let page_contents := page_contents_of (markdown_content c) in
  fst (foldl (page_step c) ([], O) (enumerate 0 page_contents)).

End WithRuntime.

End Chunker.

(** ** Exceptions, remote calls and the monad of effectful code *)

Module Effects.

(** An exception object of a class derived from [Exception]: its class
    and [str(e)]. *)
Record exn := { exn_class : string; exn_msg : pystr }.

Inductive outcome (A : Type) :=
| Return (a : A)
| Raise (e : exn).
Arguments Return {A} a.
Arguments Raise {A} e.

(** A Python [float], by its IEEE 754 binary64 bit pattern. *)
Inductive float :=
| Binary64 (bits : N).

(** [0.0] *)
Definition float_zero : float := Binary64 0.

(** [0.7] *)
Definition float_0_7 : float := Binary64 0x3FE6666666666666.

(** A JSON scalar or string, as a field of an indexed document comes back
    from the search engine. *)
Inductive pyval :=
| VNone
| VBool (b : bool)
| VInt (n : Z)
| VFloat (x : float)
| VStr (s : pystr).

(** One hit of a search response: [hit['_score']] and the fields of
    [hit['_source']]; the dict [search] and [hybrid_search] build from a
    hit has the same eight keys. *)
Record SearchResult := {
  score : pyval;
  r_content : pyval;
  r_metadata : gmap string Chunker.mval;
  r_page_number : pyval;
  r_chunk_id : pyval;
  r_section_type : pyval;
  r_has_images : pyval;
  r_image_descriptions : list pystr
}.

(** A line of a bulk request: the index action or the document. *)
Inductive BulkLine :=
| IndexAction (_index _id : pystr)
| Doc (chunk : Chunker.DocumentChunk) (embedding : list float).

(** An entry of [response['items']]: [{'index': {...}}] with its
    ['status'], when it has one, or an entry without the key ['index']. *)
Inductive BulkItem :=
| ItemIndex (status : option Z)
| ItemOther.

(** The response of [client.bulk]: the truth value of
    [response.get('errors')] and [response['items']] when the key is there. *)
Record BulkResponse := {
  errors : bool;
  items : option (list BulkItem)
}.

(** The [query] of a search body. *)
Inductive Query :=
| Knn (vector : list float) (k : Z)
| Hybrid (query_text : pystr) (vector : list float) (k : Z) (alpha : float).

(** A request that leaves the process. *)
Inductive call :=
| InvokeEmbedding (model_id input_text : pystr)
| InvokeLLM (model_id prompt : pystr)
| OsBulk (body : list BulkLine)
| OsRefresh (index : pystr)
| OsSearch (index : pystr) (query : Query) (size : Z).

Section Monad.

(** The world outside the process. *)
Variable W : Type.

(** The state of a run: the world and the requests sent so far. *)
Definition state : Type := W * list call.

Definition M (A : Type) : Type := state -> outcome A * state.

Definition ret {A} (a : A) : M A := fun s => (Return a, s).

Definition raise {A} (e : exn) : M A := fun s => (Raise e, s).

Definition bind {A B} (m : M A) (f : A -> M B) : M B :=
  fun s =>
    match m s with
    | (Return a, s') => f a s'
    | (Raise e, s') => (Raise e, s')
    end.

(** [try: m  except Exception as e: handler(e)] *)
Definition try_except {A} (m : M A) (handler : exn -> M A) : M A :=
  fun s =>
    match m s with
    | (Return a, s') => (Return a, s')
    | (Raise e, s') => handler e s'
    end.

(** A request: it is recorded, and the world answers or fails. *)
Definition request {A} (c : call) (answer : W -> outcome A * W) : M A :=
  fun '(w, trace) =>
    let '(r, w') := answer w in (r, (w', trace ++ [c])).

(** A reading of the world that is no request (the clock). *)
Definition observe {A} (read : W -> A * W) : M A :=
  fun '(w, trace) => let '(a, w') := read w in (Return a, (w', trace)).

End Monad.

Arguments ret {W A} a.
Arguments raise {W A} e.
Arguments bind {W A B} m f.
Arguments try_except {W A} m handler.
Arguments request {W A} c answer.
Arguments observe {W A} read.

(** The remote services, as oracles over the world. *)
Record Services (W : Type) := {
  (** [invoke_model] of the embedding model followed by the parsing of
      the response: the value of [response_body.get('embedding', [])]. *)
  bedrock_embedding : pystr -> pystr -> W -> outcome (list float) * W;
  (** [invoke_model] of the chat model followed by the parsing of the
      response: [response_body['content'][0]['text']]. *)
  bedrock_llm : pystr -> pystr -> W -> outcome pystr * W;
  os_bulk : list BulkLine -> W -> outcome BulkResponse * W;
  os_refresh : pystr -> W -> outcome unit * W;
  (** [client.search] followed by the reading of the hits. *)
  os_search : pystr -> Query -> Z -> W -> outcome (list SearchResult) * W;
  (** [datetime.now()], in microseconds. *)
  clock : W -> Z * W
}.
Arguments bedrock_embedding {W}.
Arguments bedrock_llm {W}.
Arguments os_bulk {W}.
Arguments os_refresh {W}.
Arguments os_search {W}.
Arguments clock {W}.

End Effects.
Import Effects.

Notation "'do' x <- m ; k" := (Effects.bind m (fun x => k))
  (at level 10, x name, m at level 100, k at level 200, only parsing).

(** [range(0, stop, step)]: an error for a zero step, empty for a
    negative one. *)
Fixpoint range_up (fuel start stop step : nat) : list nat :=
  match fuel with
  | O => []
  | S fuel' =>
    if (start <? stop)%nat then start :: range_up fuel' (start + step)%nat stop step
    else []
  end.

Definition ValueError (msg : pystr) : exn :=
  {| exn_class := "ValueError"; exn_msg := msg |}.

Definition TypeError (msg : pystr) : exn :=
  {| exn_class := "TypeError"; exn_msg := msg |}.

Definition KeyError (msg : pystr) : exn :=
  {| exn_class := "KeyError"; exn_msg := msg |}.

Definition range0 (stop : nat) (step : Z) : outcome (list nat) :=
  if (step =? 0)%Z then Raise (ValueError (py "range() arg 3 must not be zero"))
  else if (step <? 0)%Z then Return []
  else Return (range_up stop 0 stop (Z.to_nat step)).

(** [l[i:i + n]] for a start [i] inside a loop over [range0 _ n], where
    [n] is positive. *)
Definition slice {A} (l : list A) (i : nat) (n : Z) : list A :=
  take (Z.to_nat n) (drop i l).

(** A pure computation that may raise, run inside the monad. *)
Definition lift {W A} (r : outcome A) : M W A :=
  match r with
  | Return a => ret a
  | Raise e => raise e
  end.

(** ** Embedding client: [BedrockEmbeddingService] *)

Module EmbeddingService.

(** [config.EMBEDDING_MODEL_ID] *)
Definition EMBEDDING_MODEL_ID : pystr := py "amazon.titan-embed-text-v2:0".

(** [text.split()]: the maximal runs of characters that are not
    whitespace. *)
Fixpoint split_whitespace_from (cur s : pystr) : list pystr :=
  match s with
  | [] => match cur with [] => [] | _ => [rev cur] end
  | c :: rest =>
    if Py_UNICODE_ISSPACE c
    then match cur with
         | [] => split_whitespace_from [] rest
         | _ => rev cur :: split_whitespace_from [] rest
         end
    else split_whitespace_from (c :: cur) rest
  end.

Definition _preprocess_text (text : pystr) : pystr :=
  if negb (truthy text) || negb (truthy (strip text)) then []
  else
    let max_chars := N.to_nat 30000 in
    let text :=
      if (max_chars <? length text)%nat then take max_chars text ++ py "..."
      else text in
    join (py " ") (split_whitespace_from [] text).

(** [[0.0] * 1024] *)
Definition zero_vector : list float := replicate 1024 float_zero.

Section WithServices.

Variable W : Type.
Variable svc : Services W.

Definition create_embedding (text : pystr) : M W (list float) :=
  try_except
    (let cleaned_text := _preprocess_text text in
     do embedding <-
       request (InvokeEmbedding EMBEDDING_MODEL_ID cleaned_text)
               (bedrock_embedding svc EMBEDDING_MODEL_ID cleaned_text);
     match embedding with
     | [] => raise (ValueError (py "임베딩 생성 실패: 빈 응답"))
     | _ :: _ => ret embedding
     end)
    (fun e => raise e).

(** The body of [for text in batch], with its [try] and [except]. *)
Definition embed_or_zero (text : pystr) : M W (list float) :=
  try_except (create_embedding text) (fun _ => ret zero_vector).

(** [for text in batch] *)
Fixpoint embed_batch (batch : list pystr) (batch_embeddings : list (list float))
  : M W (list (list float)) :=
  match batch with
  | [] => ret batch_embeddings
  | text :: rest =>
    do embedding <- embed_or_zero text;
    embed_batch rest (batch_embeddings ++ [embedding])
  end.

(** [for i in range(0, len(texts), batch_size)], over the starts [i]. *)
Fixpoint batch_loop (texts : list pystr) (batch_size : Z) (starts : list nat)
    (embeddings : list (list float)) : M W (list (list float)) :=
  match starts with
  | [] => ret embeddings
  | i :: rest =>
    do batch_embeddings <- embed_batch (slice texts i batch_size) [];
    batch_loop texts batch_size rest (embeddings ++ batch_embeddings)
  end.

Definition create_embeddings_batch (texts : list pystr) (batch_size : Z)
  : M W (list (list float)) :=
  do starts <- lift (range0 (length texts) batch_size);
  batch_loop texts batch_size starts [].

End WithServices.

End EmbeddingService.

(** ** Retrieval store: [OpenSearchVectorStore] *)

Module VectorStore.

Section WithServices.

Variable W : Type.
Variable svc : Services W.

(** [self.index_name], from [config.OPENSEARCH_INDEX_NAME]. *)
Variable index_name : pystr.

(** The bulk body of one batch: for every pair of [zip], the index action
    and the document. *)
Definition bulk_body_of (batch_chunks : list Chunker.DocumentChunk)
    (batch_embeddings : list (list float)) : list BulkLine :=
  flat_map
    (fun '(chunk, embedding) =>
       [IndexAction index_name (Chunker.chunk_id chunk); Doc chunk embedding])
    (zip batch_chunks batch_embeddings).

(** ['index' in item and item['index'].get('status') not in [200, 201]] *)
Definition item_failed (item : BulkItem) : bool :=
  match item with
  | ItemIndex status =>
    negb (bool_decide (status = Some 200%Z ∨ status = Some 201%Z))
  | ItemOther => false
  end.

(** The successes one bulk response adds to [success_count]. *)
Definition batch_successes (response : BulkResponse) (batch_len : nat)
  : outcome nat :=
  if errors response then
    match items response with
    | Some its => Return (length (List.filter (fun item => negb (item_failed item)) its))
    | None => Raise (KeyError (py "'items'"))
    end
  else Return batch_len.

(** [for i in range(0, len(chunks), batch_size)], over the starts [i]. *)
Fixpoint bulk_loop (chunks : list Chunker.DocumentChunk)
    (embeddings : list (list float)) (batch_size : Z) (starts : list nat)
    (success_count : nat) : M W nat :=
  match starts with
  | [] => ret success_count
  | i :: rest =>
    let batch_chunks := slice chunks i batch_size in
    let batch_embeddings := slice embeddings i batch_size in
    let bulk_body := bulk_body_of batch_chunks batch_embeddings in
    do response <- request (OsBulk bulk_body) (os_bulk svc bulk_body);
    do added <- lift (batch_successes response (length batch_chunks));
    bulk_loop chunks embeddings batch_size rest (success_count + added)%nat
  end.

(** The [try] block of [add_documents]. *)
Definition add_documents_try (chunks : list Chunker.DocumentChunk)
    (embeddings : list (list float)) : M W bool :=
  if negb (length chunks =? length embeddings)%nat
  then raise (ValueError (py "청크 수와 임베딩 수가 일치하지 않습니다."))
  else
    let batch_size := 100%Z in
    do starts <- lift (range0 (length chunks) batch_size);
    do success_count <- bulk_loop chunks embeddings batch_size starts 0%nat;
    do _ <- request (OsRefresh index_name) (os_refresh svc index_name);
    ret (0 <? success_count)%nat.

Definition add_documents (chunks : list Chunker.DocumentChunk)
    (embeddings : list (list float)) : M W bool :=
  try_except (add_documents_try chunks embeddings) (fun _ => ret false).

(** [search(query_embedding, k)], without filters. *)
Definition search (query_embedding : list float) (k : Z)
  : M W (list SearchResult) :=
  try_except
    (request (OsSearch index_name (Knn query_embedding k) k)
             (os_search svc index_name (Knn query_embedding k) k))
    (fun _ => ret []).

Definition hybrid_search (query_text : pystr) (query_embedding : list float)
    (k : Z) (alpha : float) : M W (list SearchResult) :=
  try_except
    (request (OsSearch index_name (Hybrid query_text query_embedding k alpha) k)
             (os_search svc index_name (Hybrid query_text query_embedding k alpha) k))
    (fun _ => ret []).

End WithServices.

End VectorStore.

(** ** Query orchestrator: [RAGSystem] *)

Module RAGSystem.

(** [config.LLM_MODEL_ID] *)
Definition LLM_MODEL_ID : pystr := py "us.anthropic.claude-3-7-sonnet-20250219-v1:0".

(** A value of the response dict of [query]. [RSeconds] is the float
    [total_seconds()] of a difference of two clock readings, kept in
    microseconds. *)
Inductive rval :=
| RStr (s : pystr)
| RInt (n : Z)
| RSeconds (microseconds : Z)
| RSources (sources : list (gmap string pyval)).

Definition NO_RESULTS_ANSWER : pystr := py "관련 정보를 찾을 수 없습니다.".

Definition type_name (v : pyval) : pystr :=
  match v with
  | VNone => py "NoneType"
  | VBool _ => py "bool"
  | VInt _ => py "int"
  | VFloat _ => py "float"
  | VStr _ => py "str"
  end.

(** [len(v)] *)
Definition py_len (v : pyval) : outcome nat :=
  match v with
  | VStr s => Return (length s)
  | _ => Raise (TypeError (py "object of type '" ++ type_name v ++ py "' has no len()"))
  end.

(** [c[:200] + "..." if len(c) > 200 else c]: [len(c)] is evaluated
    first and raises for a value that is no string. *)
Definition source_content (c : pyval) : outcome pyval :=
  match py_len c with
  | Raise e => Raise e
  | Return n =>
    match c with
    | VStr s => Return (if (200 <? n)%nat then VStr (take 200 s ++ py "...") else c)
    | _ => Return c
    end
  end.

(** The [source] dict of one result. *)
Definition source_of (result : SearchResult) : outcome (gmap string pyval) :=
  match source_content (r_content result) with
  | Raise e => Raise e
  | Return c =>
    Return (<["content"%string := c]>
            (<["page_number"%string := r_page_number result]>
             (<["score"%string := score result]>
              (<["section_type"%string := r_section_type result]>
               {["has_images"%string := r_has_images result]}))))
  end.

(** [for result in search_results: sources.append(source)] *)
Fixpoint build_sources (search_results : list SearchResult)
    (sources : list (gmap string pyval)) : outcome (list (gmap string pyval)) :=
  match search_results with
  | [] => Return sources
  | result :: rest =>
    match source_of result with
    | Raise e => Raise e
    | Return source => build_sources rest (sources ++ [source])
    end
  end.

Section WithServices.

Variable W : Type.
Variable svc : Services W.
Variable index_name : pystr.

(** [str(x)] of a float, as the interpreter prints it. *)
Variable float_str : float -> pystr.

(** [f"{v}"] *)
Definition format (v : pyval) : pystr :=
  match v with
  | VNone => py "None"
  | VBool true => py "True"
  | VBool false => py "False"
  | VInt n => str_Z n
  | VFloat x => float_str x
  | VStr s => s
  end.

(** [f"{content} {page_info}"] with [page_info = f"(페이지 {page_number})"] *)
Definition part_of (result : SearchResult) : pystr :=
  let content := format (r_content result) in
  let page_info := py "(페이지 " ++ format (r_page_number result) ++ py ")" in
  content ++ py " " ++ page_info.

(** [for result in search_results] of [generate_answer], with its
    [break]. *)
Fixpoint context_loop (max_context_length : Z) (search_results : list SearchResult)
    (context_parts : list pystr) (current_length : Z) : list pystr :=
  match search_results with
  | [] => context_parts
  | result :: rest =>
    let part := part_of result in
    if (current_length + Z.of_nat (length part) >? max_context_length)%Z
    then context_parts
    else context_loop max_context_length rest (context_parts ++ [part])
                      (current_length + Z.of_nat (length part))%Z
  end.

Definition build_context_parts (search_results : list SearchResult)
    (max_context_length : Z) : list pystr :=
  context_loop max_context_length search_results [] 0%Z.

Definition prompt_of (context query : pystr) : pystr :=
  py "다음 문서 내용을 바탕으로 질문에 답변해주세요.

문서 내용:
" ++ context ++ py "

질문: " ++ query ++ py "

답변 시 다음 사항을 지켜주세요:
1. 문서 내용에 기반하여 정확하게 답변하세요
2. 답변 근거가 되는 페이지 번호를 포함하세요
3. 문서에 없는 내용은 추측하지 마세요
4. 한국어로 자연스럽게 답변하세요

답변:".

Definition search (query : pystr) (k : Z) (search_type : pystr)
  : M W (list SearchResult) :=
  try_except
    (do query_embedding <- EmbeddingService.create_embedding W svc query;
     match query_embedding with
     | [] => ret []
     | _ :: _ =>
       if eqb_str search_type (py "vector")
       then VectorStore.search W svc index_name query_embedding k
       else if eqb_str search_type (py "hybrid")
       then VectorStore.hybrid_search W svc index_name query query_embedding k float_0_7
       else ret []
     end)
    (fun _ => ret []).

Definition generate_answer (query : pystr) (search_results : list SearchResult)
    (max_context_length : Z) : M W pystr :=
  try_except
    (match search_results with
     | [] => ret NO_RESULTS_ANSWER
     | _ :: _ =>
       let context_parts := build_context_parts search_results max_context_length in
       let context := join (py "

") context_parts in
       let prompt := prompt_of context query in
       do answer <- request (InvokeLLM LLM_MODEL_ID prompt)
                            (bedrock_llm svc LLM_MODEL_ID prompt);
       ret answer
     end)
    (fun e => ret (py "답변 생성 중 오류가 발생했습니다: " ++ exn_msg e)).

(** The dict [query] returns when the search gave nothing. *)
Definition no_results_response (question : pystr) (elapsed : Z)
  : gmap string rval :=
  <["question"%string := RStr question]>
  (<["answer"%string := RStr NO_RESULTS_ANSWER]>
   (<["sources"%string := RSources []]>
    {["search_time"%string := RSeconds elapsed]})).

(** The dict of a completed query. *)
Definition full_response (question answer : pystr)
    (sources : list (gmap string pyval)) (elapsed : Z) (search_type : pystr)
    (results_count : nat) : gmap string rval :=
  <["question"%string := RStr question]>
  (<["answer"%string := RStr answer]>
   (<["sources"%string := RSources sources]>
    (<["search_time"%string := RSeconds elapsed]>
     (<["search_type"%string := RStr search_type]>
      {["results_count"%string := RInt (Z.of_nat results_count)]})))).

(** The dict of the [except] clause of [query]. *)
Definition error_response (question : pystr) (e : exn) : gmap string rval :=
  <["question"%string := RStr question]>
  (<["answer"%string := RStr (py "오류가 발생했습니다: " ++ exn_msg e)]>
   (<["sources"%string := RSources []]>
    (<["search_time"%string := RInt 0]>
     {["error"%string := RStr (exn_msg e)]}))).

(** The [try] block of [query]. *)
Definition query_try (question : pystr) (k : Z) (search_type : pystr)
  : M W (gmap string rval) :=
  do start_time <- observe (clock svc);
  do search_results <- search question k search_type;
  match search_results with
  | [] =>
    do now <- observe (clock svc);
    ret (no_results_response question (now - start_time))
  | _ :: _ =>
    do answer <- generate_answer question search_results 4000;
    do sources <- lift (build_sources search_results []);
    do now <- observe (clock svc);
    ret (full_response question answer sources (now - start_time) search_type
                       (length search_results))
  end.

Definition query (question : pystr) (k : Z) (search_type : pystr)
  : M W (gmap string rval) :=
  try_except (query_try question k search_type)
             (fun e => ret (error_response question e)).

End WithServices.

End RAGSystem.

(** * Reference definitions and instances *)

(** ** The section splitter, as the specification words it *)

Module SplitterSpec.

(** Grouping of lines: the first group holds the lines before the first
    heading (it may be empty), and every heading opens a group of its own
    that runs up to the next heading. *)
Fixpoint group_lines (lines : list pystr) : list (list pystr) :=
  match lines with
  | [] => [[]]
  | line :: rest =>
    match group_lines rest with
    | g :: gs =>
      if Re.match_heading line then [] :: (line :: g) :: gs
      else (line :: g) :: gs
    | [] => [[line]]
    end
  end.

(** A section that is not empty after trimming. *)
Definition nonblank (section : pystr) : bool := truthy (strip section).

(** The sections of a text: the groups of its lines, joined, without the
    blank ones. *)
Definition sections_by_headings (content : pystr) : list pystr :=
  List.filter nonblank
    (map (join Splitter.NL_str) (group_lines (split Splitter.NL_str content))).

(** The number of heading lines. *)
Definition count_headings (lines : list pystr) : nat :=
  length (List.filter Re.match_heading lines).

(** A group opened by a heading: the heading, then lines that are none. *)
Definition heading_group (g : list pystr) : Prop :=
  match g with
  | [] => False
  | h :: body => Re.match_heading h = true ∧ Forall (fun l => Re.match_heading l = false) body
  end.

(** A heading line, as the specification words the pattern: one to six
    [#] characters, then whitespace, then text. In a line, which holds no
    newline, the text is any non-empty rest after the first whitespace
    character. *)
Definition is_heading (line : pystr) : Prop :=
  ∃ (hashes : nat) (space : N) (text : pystr),
    line = replicate hashes Re.HASH ++ space :: text
    ∧ (1 ≤ hashes ≤ 6)%nat
    ∧ Py_UNICODE_ISSPACE space = true
    ∧ text ≠ [].

(** The closing step of [_split_by_sections] after its loop. *)
Definition close (st : Splitter.split_state) : list pystr :=
  let '(sections, current_section) := st in
  match current_section with
  | _ :: _ => sections ++ [join Splitter.NL_str current_section]
  | [] => sections
  end.

End SplitterSpec.

(** ** A runtime for closed examples *)

Module Examples.

(** The case table on ASCII: capital letters go to small ones, every
    other character is kept. *)
Definition ascii_tolower (c : N) : list N :=
  if (0x41 <=? c) && (c <=? 0x5A) then [c + 32] else [c].

(** U+03C3, the small sigma. *)
Definition sigma_small (before after : pystr) : N := 0x3C3.

(** A tokenizer with one token for every character. *)
Definition char_tokens (text : pystr) : list N := text.

End Examples.

(** A Hangul syllable, U+AC00 to U+D7A3. *)
Definition is_hangul (c : N) : bool := (0xAC00 <=? c) && (c <=? 0xD7A3).

(** ** The context of an answer *)

Module ContextSpec.

(** The accumulated character length of the annotated parts of a list of
    results, as [current_length] counts it. *)
Definition annotated_length (float_str : float -> pystr)
    (results : list SearchResult) : Z :=
  foldr (fun r acc => (Z.of_nat (length (RAGSystem.part_of float_str r)) + acc)%Z)
        0%Z results.

(** A result whose content is [n] times the letter [a], on page [page]. *)
Definition sample_result (n : nat) (page : Z) : SearchResult :=
  {| score := VFloat float_zero;
     r_content := VStr (replicate n 0x61);
     r_metadata := ∅;
     r_page_number := VInt page;
     r_chunk_id := VStr (py "chunk_0");
     r_section_type := VStr (py "general");
     r_has_images := VBool false;
     r_image_descriptions := [] |}.

(** Five results of 1308 annotated characters each. *)
Definition five_results : list SearchResult :=
  map (sample_result 1300) [1; 2; 3; 4; 5]%Z.

(** Five results of 1330 characters each: three contents alone are
    within 4000 characters, three annotated parts (1338 each) are not. *)
Definition tight_results : list SearchResult :=
  map (sample_result 1330) [1; 2; 3; 4; 5]%Z.

Definition no_float_str (x : float) : pystr := [].

(** The annotation of a part, as the specification words it: the content,
    a space, and the page number in brackets. *)
Definition annotated (content : pystr) (page : Z) : pystr :=
  content ++ py " (페이지 " ++ str_Z page ++ py ")".

End ContextSpec.

(** ** Embedding of a list of texts, one after the other *)

Module EmbeddingSpec.

Section Embedded.

Variable W : Type.
Variable svc : Services W.

(** [embedded s texts vectors s']: starting in state [s], every text in
    turn is handed to [create_embedding]; its vector is the returned one,
    or the zero vector when the call raised; [s'] is the state at the
    end. *)
Inductive embedded : state W → list pystr → list (list float) → state W → Prop :=
| embedded_nil s :
    embedded s [] [] s
| embedded_ok s text v s1 texts vs s' :
    EmbeddingService.create_embedding W svc text s = (Return v, s1) →
    embedded s1 texts vs s' →
    embedded s (text :: texts) (v :: vs) s'
| embedded_failed s text e s1 texts vs s' :
    EmbeddingService.create_embedding W svc text s = (Raise e, s1) →
    embedded s1 texts vs s' →
    embedded s (text :: texts) (EmbeddingService.zero_vector :: vs) s'.

End Embedded.

End EmbeddingSpec.

(** ** Services for closed examples *)

Module Worlds.

Definition ConnectionError : exn :=
  {| exn_class := "ConnectionError"; exn_msg := py "connection refused" |}.

(** Every request fails; the clock stands still. *)
Definition unreachable : Services unit :=
  {| bedrock_embedding := fun _ _ w => (Raise ConnectionError, w);
     bedrock_llm := fun _ _ w => (Raise ConnectionError, w);
     os_bulk := fun _ w => (Raise ConnectionError, w);
     os_refresh := fun _ w => (Raise ConnectionError, w);
     os_search := fun _ _ _ w => (Raise ConnectionError, w);
     clock := fun w => (0%Z, w) |}.

(** The services answer, and the index holds the documents [hits]: every
    search returns them. *)
Definition serving (hits : list SearchResult) (llm_up : bool) : Services unit :=
  {| bedrock_embedding := fun _ _ w => (Return [float_0_7], w);
     bedrock_llm := fun _ _ w =>
       (if llm_up then Return (py "answer") else Raise ConnectionError, w);
     os_bulk := fun _ w => (Return {| errors := false; items := None |}, w);
     os_refresh := fun _ w => (Return (), w);
     os_search := fun _ _ _ w => (Return hits, w);
     clock := fun w => (0%Z, w) |}.

(** An indexed document whose content is JSON [null]. *)
Definition null_content_hit : SearchResult :=
  {| score := VFloat float_zero;
     r_content := VNone;
     r_metadata := ∅;
     r_page_number := VInt 1;
     r_chunk_id := VStr (py "chunk_0");
     r_section_type := VStr (py "general");
     r_has_images := VBool false;
     r_image_descriptions := [] |}.

Definition start : state unit := ((), []).

Definition index_name : pystr := py "manual-index".

End Worlds.

(** ** The chunks of a document, in emission order *)

Module ChunkerSpec.
Import Chunker.

(** A chunk with the identifier of the counter value [i]. *)
Definition with_id (chunk : DocumentChunk) (i : nat) : DocumentChunk :=
  {| content := content chunk;
     chunk_metadata := chunk_metadata chunk;
     page_number := page_number chunk;
     chunk_id := chunk_name i;
     section_type := section_type chunk;
     has_images := has_images chunk;
     image_descriptions := image_descriptions chunk |}.

(** A sub-chunk with the metadata of the document. *)
Definition stamped (c : Content) (chunk : DocumentChunk) : DocumentChunk :=
  {| content := content chunk;
     chunk_metadata := chunk_metadata_of c;
     page_number := page_number chunk;
     chunk_id := chunk_id chunk;
     section_type := section_type chunk;
     has_images := has_images chunk;
     image_descriptions := image_descriptions chunk |}.

(** Consecutive identifiers from [i] on, in the order of the list. *)
Fixpoint number_from (i : nat) (chunks : list DocumentChunk) : list DocumentChunk :=
  match chunks with
  | [] => []
  | chunk :: rest => with_id chunk i :: number_from (S i) rest
  end.

(** The text of a group of sentence units in a buffer: every unit is
    followed by a full stop and a space. *)
Definition glue (group : list pystr) : pystr :=
  concat (map (fun sentence => sentence ++ py ". ") group).

Section WithRuntime.

Variable tolower_full : N -> list N.
Variable lower_sigma : pystr -> pystr -> N.
Variable encode : pystr -> list N.

(** A group the sub-chunker may close: its buffer is within the budget, or
    it holds one sentence unit, which is taken whatever its size. *)
Definition closable (group : list pystr) : Prop :=
  (token_count encode (glue group) ≤ MAX_TOKENS_PER_CHUNK)%nat
  ∨ ∃ sentence, group = [sentence].

(** The state of the loop of [_split_long_section] after the sentence
    units [processed]: the units are cut into consecutive groups, the
    closed chunks hold the buffers of all groups but the last, and the
    buffer holds the last group. *)
Definition long_inv (page_number : Z) (page_images : list ImageInfo)
    (processed : list pystr) (st : long_state) : Prop :=
  (processed = [] ∧ st = ([], []))
  ∨ ∃ groups group,
      processed = concat groups ++ group
      ∧ group ≠ []
      ∧ Forall (fun g => g ≠ []) groups
      ∧ Forall closable (groups ++ [group])
      ∧ st = (map (fun g => sub_chunk tolower_full lower_sigma (glue g) page_number page_images) groups,
              glue group).

(** The chunks of one section, before they are numbered. *)
Definition emitted_section (c : Content) (page_number : Z)
    (page_images : list ImageInfo) (section : pystr) : list DocumentChunk :=
  if bool_decide (token_count encode section ≤ MAX_TOKENS_PER_CHUNK)%nat
  then [whole_chunk tolower_full lower_sigma c section page_number page_images 0]
  else map (stamped c)
           (_split_long_section tolower_full lower_sigma encode section
                                page_number page_images).

(** The images of a page. *)
Definition images_of_page (c : Content) (page_number : Z) : list ImageInfo :=
  List.filter (fun img => (img_page_number img =? page_number)%Z) (images_info c).

(** The sections of a page; a page that is blank has none. *)
Definition page_sections (page_content : PageContent) : list pystr :=
  let text_content := text_content_of page_content in
  if negb (truthy (strip text_content)) then []
  else Splitter._split_by_sections text_content.

(** The chunks of one page: those of its sections, in section order. *)
Definition emitted_page (c : Content) (entry : nat * PageContent)
  : list DocumentChunk :=
  let page_number := (Z.of_nat (fst entry) + 1)%Z in
  flat_map (emitted_section c page_number (images_of_page c page_number))
           (page_sections (snd entry)).

(** The chunks of a document: those of its pages, in page order. *)
Definition emitted (c : Content) : list DocumentChunk :=
  flat_map (emitted_page c)
           (enumerate 0 (page_contents_of (markdown_content c))).

End WithRuntime.

(** The sections of a document and their sentence units. *)
Definition document_sections (c : Content) : list pystr :=
  flat_map page_sections (page_contents_of (markdown_content c)).

Definition sentence_units (c : Content) : list pystr :=
  flat_map Re.split_sentences (document_sections c).

(** A text that is one sentence unit, as the sub-chunker emits it: the
    unit with its full stop, trimmed. *)
Definition single_unit (c : Content) (text : pystr) : Prop :=
  ∃ sentence, sentence ∈ sentence_units c ∧ text = strip (sentence ++ py ". ").

(** The bound of the specification on a chunk. *)
Definition within_budget (encode : pystr -> list N) (c : Content)
    (chunk : DocumentChunk) : Prop :=
  (token_count encode (content chunk) ≤ MAX_TOKENS_PER_CHUNK)%nat
  ∨ single_unit c (content chunk).

End ChunkerSpec.

(** ** Sentence units *)

Module SentenceSpec.


End SentenceSpec.

(** ** Tokenizers and documents for closed examples *)

Module Samples.
Import Chunker.

(** A tokenizer in the manner of a byte-pair vocabulary that holds the
    word [the] only with its leading space: the four characters of
    [" the"] are one token (numbered past the code points), every other
    character is a token of its own. [skip] counts the characters of a
    merged token that are still to be passed over. *)
Fixpoint merged_from (skip : nat) (text : pystr) : list N :=
  match text with
  | [] => []
  | c :: rest =>
    match skip with
    | S k => merged_from k rest
    | O =>
      if startswith (py " the") text then 0x110000 :: merged_from 3 rest
      else c :: merged_from 0 rest
    end
  end.

Definition merged_tokens (text : pystr) : list N := merged_from 0 text.

Definition document (pages : list pystr) : Content :=
  {| markdown_content := MdPages (map PageStr pages);
     metadata := ∅;
     images_info := [];
     source_file := None;
     timestamp := None |}.

(** A section of 516 characters and 513 tokens: a first sentence unit
    that starts with [" the"], a second one, [y], and a third, [z]. *)
Definition long_first_unit : pystr := py " the" ++ replicate 506 0x78.

Definition overflow_section : pystr := long_first_unit ++ py "! y? z".

Definition overflow_document : Content := document [overflow_section].

(** The page of the scenario of the specification. *)
Definition warning_page : pystr := py "# 주의
브레이크를 밟으세요.".

Definition warning_document : Content := document [warning_page].

(** A section of more than 512 characters whose first two sentence units
    end with [!] and [?] and are followed by two spaces and by one. *)
Definition exclaiming_section : pystr := py "Hi!  Go? " ++ replicate 600 0x58.

End Samples.

(** * Further definitions *)

(** ** The sub-chunker is greedy *)

Module GreedySpec.
Import Chunker ChunkerSpec.

(** Consecutive groups of sentence units are cut greedily when a group is
    followed by another only if the first unit of the next one did not
    fit into its buffer. *)
Fixpoint greedy (encode : pystr -> list N) (groups : list (list pystr)) : Prop :=
  match groups with
  | group :: (next :: _) as rest =>
    (match next with
     | sentence :: _ =>
       (MAX_TOKENS_PER_CHUNK
        < token_count encode (glue group ++ sentence ++ py ". "))%nat
     | [] => False
     end)
    ∧ greedy encode rest
  | _ => True
  end.

End GreedySpec.

(** ** Connectivity probe: [BedrockEmbeddingService.test_connection] *)

Module EmbeddingProbe.

Section WithServices.

Variable W : Type.
Variable svc : Services W.

Definition test_connection : M W bool :=
  try_except
    (let test_text := py "연결 테스트" in
     do embedding <- EmbeddingService.create_embedding W svc test_text;
     match embedding with
     | [] => ret false
     | _ :: _ => ret (length embedding =? 1024)%nat
     end)
    (fun _ => ret false).

End WithServices.

End EmbeddingProbe.

(** ** Index administration: [create_index] and [delete_index] *)

Module IndexAdmin.

(** What a call of the index client gives: its value, a [RequestError]
    with its attribute [error], or another exception. *)
Inductive admin_outcome (A : Type) :=
| Done (a : A)
| RequestError (error : pystr) (e : exn)
| Failed (e : exn).
Arguments Done {A} a.
Arguments RequestError {A} error e.
Arguments Failed {A} e.

(** The administrative calls of the search engine, as oracles over the
    world: [indices.exists], [indices.create] with the dimension of the
    vector field of its mapping, and [indices.delete]. *)
Record Admin (W : Type) := {
  indices_exists : pystr -> W -> admin_outcome bool * W;
  indices_create : pystr -> Z -> W -> admin_outcome unit * W;
  indices_delete : pystr -> W -> admin_outcome unit * W
}.
Arguments indices_exists {W}.
Arguments indices_create {W}.
Arguments indices_delete {W}.

Section WithAdmin.

Variable W : Type.
Variable admin : Admin W.
Variable index_name : pystr.

Definition AM (A : Type) : Type := W -> admin_outcome A * W.

Definition aret {A} (a : A) : AM A := fun w => (Done a, w).

Definition abind {A B} (m : AM A) (f : A -> AM B) : AM B :=
  fun w =>
    match m w with
    | (Done a, w') => f a w'
    | (RequestError error e, w') => (RequestError error e, w')
    | (Failed e, w') => (Failed e, w')
    end.

(** The [try] block of [create_index]. *)
Definition create_index_try (dimension : Z) : AM bool :=
  abind (indices_exists admin index_name) (fun exists_already =>
    if exists_already then aret true
    else abind (indices_create admin index_name dimension) (fun _ => aret true)).

(** [create_index(dimension)], with its two [except] clauses. *)
Definition create_index (dimension : Z) (w : W) : bool * W :=
  match create_index_try dimension w with
  | (Done created, w') => (created, w')
  | (RequestError error _, w') =>
    (if eqb_str error (py "resource_already_exists_exception") then true
     else false, w')
  | (Failed _, w') => (false, w')
  end.

(** The [try] block of [delete_index]. *)
Definition delete_index_try : AM bool :=
  abind (indices_exists admin index_name) (fun exists_already =>
    if exists_already
    then abind (indices_delete admin index_name) (fun _ => aret true)
    else aret true).

Definition delete_index (w : W) : bool * W :=
  match delete_index_try w with
  | (Done deleted, w') => (deleted, w')
  | (RequestError _ _, w') => (false, w')
  | (Failed _, w') => (false, w')
  end.

End WithAdmin.

End IndexAdmin.

(** ** The chunker with the failures of its tokenizer *)

Module Tokenized.
Import Chunker.

(** A loop whose body may raise: the first exception ends it. *)
Fixpoint fold_outcome {S A : Type} (step : S -> A -> outcome S) (st : S)
    (l : list A) : outcome S :=
  match l with
  | [] => Return st
  | x :: rest =>
    match step st x with
    | Return st' => fold_outcome step st' rest
    | Raise e => Raise e
    end
  end.

(** The token sequence of a text the tokenizer accepts, and no token for
    one it rejects. *)
Definition accepted_tokens (tokenize : pystr -> outcome (list N))
    (text : pystr) : list N :=
  match tokenize text with
  | Return tokens => tokens
  | Raise _ => []
  end.

(** The tokenizer raised [e] for some text. *)
Definition rejected (tokenize : pystr -> outcome (list N)) (e : exn) : Prop :=
  ∃ text, tokenize text = Raise e.

Section WithRuntime.

Variable tolower_full : N -> list N.
Variable lower_sigma : pystr -> pystr -> N.

(** [self.tokenizer.encode]: the token sequence of a text, or the
    exception of the tokenizer; [tiktoken] raises [ValueError] for a text
    that spells one of its special tokens. *)
Variable tokenize : pystr -> outcome (list N).

(** [len(self.tokenizer.encode(text))] *)
Definition token_count (text : pystr) : outcome nat :=
  match tokenize text with
  | Return tokens => Return (length tokens)
  | Raise e => Raise e
  end.

(** One iteration of [for sentence in sentences]. *)
Definition long_step (page_number : Z) (page_images : list ImageInfo)
    (st : long_state) (sentence : pystr) : outcome long_state :=
  let '(chunks, current_chunk) := st in
  let test_chunk := current_chunk ++ sentence ++ py ". " in
  match token_count test_chunk with
  | Raise e => Raise e
  | Return n =>
    if bool_decide (n ≤ MAX_TOKENS_PER_CHUNK)%nat
    then Return (chunks, test_chunk)
    else
      Return
        (if truthy current_chunk
         then chunks ++ [sub_chunk tolower_full lower_sigma current_chunk
                           page_number page_images]
         else chunks,
         sentence ++ py ". ")
  end.

Definition _split_long_section (section : pystr) (page_number : Z)
    (page_images : list ImageInfo) : outcome (list DocumentChunk) :=
  let sentences := Re.split_sentences section in
  match fold_outcome (long_step page_number page_images) ([], []) sentences with
  | Raise e => Raise e
  | Return (chunks, current_chunk) =>
    Return (if truthy current_chunk
            then chunks ++ [sub_chunk tolower_full lower_sigma current_chunk
                              page_number page_images]
            else chunks)
  end.

(** One iteration of [for section in sections]. *)
Definition section_step (c : Content) (page_number : Z)
    (page_images : list ImageInfo) (st : chunks_state) (section : pystr)
  : outcome chunks_state :=
  let '(chunks, chunk_id) := st in
  match token_count section with
  | Raise e => Raise e
  | Return n =>
    if bool_decide (n ≤ MAX_TOKENS_PER_CHUNK)%nat
    then Return (chunks ++ [whole_chunk tolower_full lower_sigma c section
                              page_number page_images chunk_id],
                 S chunk_id)
    else
      match _split_long_section section page_number page_images with
      | Raise e => Raise e
      | Return sub_chunks => Return (foldl (adopt_sub_chunk c) st sub_chunks)
      end
  end.

(** One iteration of [for page_num, page_content in enumerate(page_contents)]. *)
Definition page_step (c : Content) (st : chunks_state)
    (entry : nat * PageContent) : outcome chunks_state :=
  let '(page_num, page_content) := entry in
  let text_content := text_content_of page_content in
  if negb (truthy (strip text_content)) then Return st
  else
    let page_number := (Z.of_nat page_num + 1)%Z in
    let page_images :=
      List.filter (fun img => (img_page_number img =? page_number)%Z)
                  (images_info c) in
    fold_outcome (section_step c page_number page_images) st
                 (Splitter._split_by_sections text_content).

(** [create_chunks(content)]: the chunks, or the exception of the
    tokenizer, which the function does not catch. *)
Definition create_chunks (c : Content) : outcome (list DocumentChunk) :=
  let page_contents := page_contents_of (markdown_content c) in
  match fold_outcome (page_step c) ([], O) (enumerate 0 page_contents) with
  | Raise e => Raise e
  | Return st => Return (fst st)
  end.

End WithRuntime.

End Tokenized.

(** ** System lifecycle and the indexing pipeline of [RAGSystem] *)

Module Lifecycle.
Import IndexAdmin.

Section WithServices.

Variable W : Type.
Variable svc : Services W.
Variable admin : Admin W.
Variable index_name : pystr.

(** [setup_system]: the probe of the embedding model, then the index. The
    calls of the index client act on the world and are not among the
    requests the trace lists. *)
Definition setup_system : M W bool :=
  try_except
    (do connected <- EmbeddingProbe.test_connection W svc;
     if negb connected then ret false
     else
       do created <- observe (create_index W admin index_name 1024);
       if negb created then ret false else ret true)
    (fun _ => ret false).

Definition reset_system : M W bool :=
  try_except
    (do deleted <- observe (delete_index W admin index_name);
     if negb deleted then ret false
     else
       do created <- observe (create_index W admin index_name 1024);
       if negb created then ret false else ret true)
    (fun _ => ret false).

(** The case table and the tokenizer of the document processor; the
    tokenizer may raise. *)
Variable tolower_full : N -> list N.
Variable lower_sigma : pystr -> pystr -> N.
Variable tokenize : pystr -> outcome (list N).

(** [extract_pdf_content]: the content dict of a file, or an exception. *)
Variable extract_pdf_content : pystr -> W -> outcome Chunker.Content * W.

(** [datetime.isoformat()] of a clock reading. *)
Variable isoformat : Z -> pystr.

(** The content dict after [content['source_file'] = pdf_path] and
    [content['timestamp'] = datetime.now().isoformat()]. *)
Definition stamped_content (pdf_path : pystr) (extracted : Chunker.Content)
    (now : Z) : Chunker.Content :=
  {| Chunker.markdown_content := Chunker.markdown_content extracted;
     Chunker.metadata := Chunker.metadata extracted;
     Chunker.images_info := Chunker.images_info extracted;
     Chunker.source_file := Some (Chunker.MStr pdf_path);
     Chunker.timestamp := Some (Chunker.MStr (isoformat now)) |}.

(** [DocumentProcessor.process_document]: an exception of the extraction
    or of the tokenizer in [create_chunks] goes to the caller. *)
Definition process_document (pdf_path : pystr)
  : M W (list Chunker.DocumentChunk) :=
  do extracted <- (fun '(w, sent) =>
                     let '(r, w') := extract_pdf_content pdf_path w in
                     (r, (w', sent)));
  do now <- observe (clock svc);
  lift (Tokenized.create_chunks tolower_full lower_sigma tokenize
          (stamped_content pdf_path extracted now)).

Definition process_and_index_document (pdf_path : pystr) : M W bool :=
  try_except
    (do chunks <- process_document pdf_path;
     match chunks with
     | [] => ret false
     | _ :: _ =>
       let texts := map Chunker.content chunks in
       do embeddings <- EmbeddingService.create_embeddings_batch W svc texts 10;
       if negb (length embeddings =? length chunks)%nat then ret false
       else
         do success <- VectorStore.add_documents W svc index_name chunks embeddings;
         if success then ret true else ret false
     end)
    (fun _ => ret false).

End WithServices.

End Lifecycle.

(** ** An index for closed examples *)

Module AdminWorld.
Import IndexAdmin.

Definition ALREADY_EXISTS : pystr := py "resource_already_exists_exception".

Definition NotFound : exn :=
  {| exn_class := "NotFoundError"; exn_msg := py "index_not_found_exception" |}.

Definition BadRequest : exn :=
  {| exn_class := "RequestError"; exn_msg := py "resource_already_exists_exception" |}.

(** A world that is one flag: whether the index is there. *)
Definition flag_index : Admin bool :=
  {| indices_exists := fun _ present => (Done present, present);
     indices_create := fun _ _ present =>
       if present then (RequestError ALREADY_EXISTS BadRequest, present)
       else (Done (), true);
     indices_delete := fun _ present =>
       if present then (Done (), false) else (Failed NotFound, present) |}.

(** The index appears between the check and the creation. *)
Definition racing_index : Admin bool :=
  {| indices_exists := fun _ present => (Done false, present);
     indices_create := fun _ _ present =>
       (RequestError ALREADY_EXISTS BadRequest, true);
     indices_delete := fun _ present => (Done (), false) |}.

(** An index client that cannot reach its cluster. *)
Definition refusing : Admin unit :=
  {| indices_exists := fun _ w => (Failed Worlds.ConnectionError, w);
     indices_create := fun _ _ w => (Failed Worlds.ConnectionError, w);
     indices_delete := fun _ w => (Failed Worlds.ConnectionError, w) |}.

End AdminWorld.

(** ** The chunks of the sample page *)

Module IndexedSamples.



End IndexedSamples.

(** ** Tokenizers that may raise, for closed examples *)

Module TokenizerSamples.


Definition END_OF_TEXT : pystr := py "<|endoftext|>".

(** A tokenizer that counts characters and, in the manner of [tiktoken],
    raises [ValueError] for a text that spells the special token. *)
Definition strict (text : pystr) : outcome (list N) :=
  if contains END_OF_TEXT text
  then Raise (ValueError (py "Encountered text corresponding to disallowed special token"))
  else Return (Examples.char_tokens text).

(** A page that spells the special token. *)
Definition special_page : pystr := py "Manual <|endoftext|> end".

Definition special_document : Chunker.Content :=
  Samples.document [special_page].

End TokenizerSamples.

(** ** The shape of a chunk *)

Module ChunkShape.
Import Chunker ChunkerSpec.

Section WithRuntime.

Variable tolower_full : N -> list N.
Variable lower_sigma : pystr -> pystr -> N.
Variable encode : pystr -> list N.

(** What [create_chunks] puts into a chunk, apart from its identifier. *)
Definition chunk_shape (c : Content) (page_number : Z)
    (page_images : list ImageInfo) (section : pystr) (ch : DocumentChunk) : Prop :=
  Chunker.page_number ch = page_number
  ∧ chunk_metadata ch = chunk_metadata_of c
  ∧ has_images ch = bool_decide (0 < length page_images)%nat
  ∧ image_descriptions ch = image_descriptions_of page_number page_images
  ∧ ((content ch = section
      ∧ section_type ch = Some (Chunker.identify_section_type tolower_full lower_sigma section)
      ∧ (Chunker.token_count encode section ≤ MAX_TOKENS_PER_CHUNK)%nat)
     ∨ (¬ (Chunker.token_count encode section ≤ MAX_TOKENS_PER_CHUNK)%nat
        ∧ ∃ group, group ≠ []
            ∧ content ch = strip (glue group)
            ∧ section_type ch = Some (Chunker.identify_section_type tolower_full lower_sigma (glue group)))).

End WithRuntime.

End ChunkShape.

(** ** The requests of the services *)

Module Requests.
Import EmbeddingService RAGSystem.

(** The request [create_embedding] sends for a text. *)
Definition embedding_request (text : pystr) : call :=
  InvokeEmbedding EMBEDDING_MODEL_ID (_preprocess_text text).

(** A request of the indexing step: a bulk request or the refresh. *)
Definition is_index_request (c : call) : bool :=
  match c with
  | OsBulk _ | OsRefresh _ => true
  | _ => false
  end.

(** A request to the chat model. *)
Definition is_llm_request (c : call) : bool :=
  match c with
  | InvokeLLM _ _ => true
  | _ => false
  end.

(** The query of a search mode, for the vector of the question. *)
Definition search_query (question search_type : pystr) (vector : list float)
    (k : Z) : option Query :=
  if bool_decide (search_type = py "vector") then Some (Knn vector k)
  else if bool_decide (search_type = py "hybrid")
  then Some (Hybrid question vector k float_0_7)
  else None.

Section WithFormat.

Variable float_str : float -> pystr.

(** The prompt [generate_answer] sends for a list of results. *)
Definition prompt_for (query : pystr) (results : list SearchResult)
    (max_context_length : Z) : pystr :=
  prompt_of (join (py "

") (build_context_parts float_str results max_context_length))
    query.

End WithFormat.

End Requests.

(** ** The sources of a response *)

Module Sources.
Import RAGSystem.

(** What [query] shows of a content string. *)
Definition shown (s : pystr) : pystr :=
  if (200 <? length s)%nat then take 200 s ++ py "..." else s.

(** The source dict of a result whose content is the string [s]. *)
Definition source_dict (result : SearchResult) (s : pystr) : gmap string pyval :=
  <["content"%string := VStr (shown s)]>
  (<["page_number"%string := r_page_number result]>
   (<["score"%string := score result]>
    (<["section_type"%string := r_section_type result]>
     {["has_images"%string := r_has_images result]}))).

(** The content of a result as a string, when it is one. *)
Definition content_string (result : SearchResult) : option pystr :=
  match r_content result with
  | VStr s => Some s
  | _ => None
  end.

End Sources.

(** * Properties *)

(** ** Strings *)

Section StringFacts.

Lemma startswith_spec p s :
  startswith p s = true ↔ ∃ b, s = p ++ b.
Proof.
  revert s. induction p as [|a p IH]; intros s; simpl.
  - split; [intros _; by exists s | done].
  - destruct s as [|c s].
    + split; [done | intros [b Hb]; discriminate].
    + rewrite andb_true_iff, N.eqb_eq, IH. split.
      * intros [-> [b ->]]. by exists b.
      * intros [b Hb]. injection Hb as -> ->. eauto.
Qed.

Lemma contains_spec p s :
  contains p s = true ↔ ∃ a b, s = a ++ p ++ b.
Proof.
  induction s as [|c s IH].
  - simpl. rewrite orb_false_r, startswith_spec. split.
    + intros [b Hb]. by exists [], b.
    + intros (a & b & Hab). destruct a; [by exists b | discriminate].
  - change (contains p (c :: s)) with (startswith p (c :: s) || contains p s).
    rewrite orb_true_iff, startswith_spec, IH. split.
    + intros [[b Hb] | (a & b & ->)].
      * by exists [], b.
      * by exists (c :: a), b.
    + intros (a & b & Hab). destruct a as [|c' a].
      * left. by exists b.
      * right. injection Hab as -> ->. by exists a, b.
Qed.

Lemma truthy_true (s : pystr) : truthy s = true ↔ s ≠ [].
Proof. destruct s; simpl; split; congruence. Qed.

End StringFacts.

(** ** Trimming *)

Section StripFacts.

Lemma elem_of_rev {A} (x : A) (l : list A) : x ∈ rev l ↔ x ∈ l.
Proof. rewrite !list_elem_of_In. symmetry. apply in_rev. Qed.

Lemma lstrip_keeps c s :
  c ∈ s → Py_UNICODE_ISSPACE c = false → c ∈ lstrip s.
Proof.
  intros Hin Hc. induction s as [|x s IH]; simpl; [done|].
  destruct (Py_UNICODE_ISSPACE x) eqn:Hx; [|done].
  apply elem_of_cons in Hin as [-> | Hin]; [congruence | by apply IH].
Qed.

Lemma lstrip_sub c s : c ∈ lstrip s → c ∈ s.
Proof.
  induction s as [|x s IH]; simpl; [done|].
  destruct (Py_UNICODE_ISSPACE x); [right; by apply IH | done].
Qed.

Lemma lstrip_head c rest s : lstrip s = c :: rest → Py_UNICODE_ISSPACE c = false.
Proof.
  induction s as [|x s IH]; simpl; [done|].
  destruct (Py_UNICODE_ISSPACE x) eqn:Hx; [done|]. by intros [= <- _].
Qed.

Lemma strip_keeps c s :
  c ∈ s → Py_UNICODE_ISSPACE c = false → c ∈ strip s.
Proof.
  intros Hin Hc. unfold strip, rstrip.
  apply elem_of_rev, lstrip_keeps; [|done].
  apply elem_of_rev. by apply lstrip_keeps.
Qed.

Lemma strip_sub c s : c ∈ strip s → c ∈ s.
Proof.
  unfold strip, rstrip. intros Hin.
  apply elem_of_rev, lstrip_sub, elem_of_rev, lstrip_sub in Hin. done.
Qed.

(** A text is blank exactly when all its characters are whitespace. *)
Lemma strip_nonblank s :
  strip s ≠ [] ↔ ∃ c, c ∈ s ∧ Py_UNICODE_ISSPACE c = false.
Proof.
  split.
  - intros Hne. unfold strip, rstrip in Hne.
    destruct (lstrip (rev (lstrip s))) as [|c rest] eqn:Hs; [done|].
    exists c. split; [|by eapply lstrip_head].
    apply lstrip_sub, elem_of_rev. eapply lstrip_sub. rewrite Hs. left.
  - intros (c & Hin & Hc) Hnil.
    pose proof (strip_keeps c s Hin Hc) as Hk. rewrite Hnil in Hk.
    by apply elem_of_nil in Hk.
Qed.

Lemma lstrip_app_nonspace a c b :
  Py_UNICODE_ISSPACE c = false → lstrip (a ++ c :: b) = lstrip a ++ c :: b.
Proof.
  intros Hc. induction a as [|x a IH]; simpl; [by rewrite Hc|].
  by destruct (Py_UNICODE_ISSPACE x).
Qed.

(** Trimming a text that ends with a full stop and a space takes the
    space away and keeps the full stop. *)
Lemma strip_stop_space s : strip (s ++ [0x2E; 0x20]) = lstrip s ++ [0x2E].
Proof.
  unfold strip, rstrip. rewrite (lstrip_app_nonspace s 0x2E [0x20]) by done.
  rewrite rev_app_distr.
  change (rev [0x2E; 0x20] ++ rev (lstrip s)) with (0x20 :: 0x2E :: rev (lstrip s)).
  change (lstrip (0x20 :: 0x2E :: rev (lstrip s))) with (0x2E :: rev (lstrip s)).
  simpl. by rewrite rev_involutive.
Qed.

End StripFacts.

(** The primitives on the strings of the source. *)

Example split_lines_example :
  split Splitter.NL_str (py "intro
# A
") = [py "intro"; py "# A"; []].
Proof. reflexivity. Qed.

Example split_pages_example :
  split (py "
---
") (py "one
---
two") = [py "one"; py "two"].
Proof. reflexivity. Qed.

Example strip_example : strip (py "  주의 사항.
") = py "주의 사항.".
Proof. reflexivity. Qed.

Example match_heading_examples :
  map Re.match_heading
      [py "# 주의"; py "###### a"; py "#  "; py "# "; py "####### a"; py "#a";
       py " # a"]
  = [true; true; true; false; false; false; false].
Proof. reflexivity. Qed.

Example split_sentences_example :
  Re.split_sentences (py "Stop!  Go on? Fine. ")
  = [py "Stop"; py "Go on"; py "Fine"; []].
Proof. reflexivity. Qed.

Example split_sentences_no_space : Re.split_sentences (py "v1.2 ok") = [py "v1.2 ok"].
Proof. reflexivity. Qed.

Example str_Z_example : str_Z (-12) = py "-12" ∧ str_nat 120 = py "120".
Proof. by split. Qed.

(** ** Section splitter *)

Module SplitterFacts.
Import Splitter SplitterSpec.

Lemma group_lines_cons lines : ∃ g gs, group_lines lines = g :: gs.
Proof.
  induction lines as [|line rest (g & gs & IH)]; simpl; [by eauto|].
  rewrite IH. destruct (Re.match_heading line); eauto.
Qed.

Lemma filter_nonblank_empty_group (sections rest : list pystr) :
  List.filter nonblank (sections ++ join NL_str [] :: rest)
  = List.filter nonblank (sections ++ rest).
Proof. rewrite !List.filter_app. reflexivity. Qed.

Lemma loop_groups lines : ∀ sections current_section g gs,
  group_lines lines = g :: gs →
  List.filter nonblank (close (foldl split_step (sections, current_section) lines))
  = List.filter nonblank
      (sections ++ map (join NL_str) ((current_section ++ g) :: gs)).
Proof.
  induction lines as [|line rest IH]; intros sections cur g gs Hg.
  - simpl in Hg. injection Hg as <- <-. simpl. rewrite app_nil_r.
    destruct cur; [|done]. by rewrite filter_nonblank_empty_group, app_nil_r.
  - simpl in Hg. destruct (group_lines_cons rest) as (g' & gs' & Hrest).
    rewrite Hrest in Hg. simpl. destruct (Re.match_heading line) eqn:Hh.
    + injection Hg as <- <-. rewrite app_nil_r. destruct cur as [|c cur].
      * rewrite (IH _ _ _ _ Hrest). simpl.
        by rewrite filter_nonblank_empty_group.
      * rewrite (IH _ _ _ _ Hrest). by rewrite <- app_assoc.
    + injection Hg as <- <-. rewrite (IH _ _ _ _ Hrest).
      by rewrite <- app_assoc.
Qed.

Lemma split_by_sections_close content :
  _split_by_sections content
  = List.filter (fun s => truthy (strip s))
      (close (foldl split_step ([], []) (split NL_str content))).
Proof.
  unfold _split_by_sections, close.
  by destruct (foldl split_step ([], []) (split NL_str content)) as [secs [|c cur]].
Qed.

Lemma split_by_sections_groups content :
  _split_by_sections content = sections_by_headings content.
Proof.
  rewrite split_by_sections_close. unfold sections_by_headings.
  destruct (group_lines_cons (split NL_str content)) as (g & gs & Hg).
  change (fun s => truthy (strip s)) with nonblank.
  rewrite (loop_groups _ [] [] g gs Hg). by rewrite Hg.
Qed.

Lemma group_lines_concat lines : concat (group_lines lines) = lines.
Proof.
  induction lines as [|line rest IH]; [done|]. simpl.
  destruct (group_lines_cons rest) as (g & gs & Hrest). rewrite Hrest in *.
  destruct (Re.match_heading line); simpl in *; by rewrite IH.
Qed.

Lemma group_lines_shape lines :
  ∃ g gs, group_lines lines = g :: gs
          ∧ Forall (fun l => Re.match_heading l = false) g
          ∧ Forall heading_group gs.
Proof.
  induction lines as [|line rest (g & gs & IH & Hg & Hgs)]; simpl.
  - exists [], []. by repeat split.
  - rewrite IH. destruct (Re.match_heading line) eqn:Hh.
    + exists [], ((line :: g) :: gs). repeat split; [done|].
      constructor; [by split | done].
    + exists (line :: g), gs. repeat split; [by constructor | done].
Qed.

Lemma group_lines_length lines :
  length (group_lines lines) = S (count_headings lines).
Proof.
  unfold count_headings. induction lines as [|line rest IH]; [done|]. simpl.
  destruct (group_lines_cons rest) as (g & gs & Hrest). rewrite Hrest in *.
  destruct (Re.match_heading line); simpl in *; lia.
Qed.

(** *** What a heading is *)

Lemma split_lines_no_newline s : ∀ cur line,
  Re.NL ∉ cur → line ∈ split_from NL_str 0 cur s → Re.NL ∉ line.
Proof.
  induction s as [|c s IH]; intros cur line Hcur Hin.
  - simpl in Hin. apply list_elem_of_singleton in Hin as ->.
    by rewrite elem_of_rev.
  - cbn [split_from] in Hin. destruct (startswith NL_str (c :: s)) eqn:Hnl.
    + cbn [length NL_str pred] in Hin.
      apply elem_of_cons in Hin as [-> | Hin]; [by rewrite elem_of_rev|].
      apply (IH [] line); [apply not_elem_of_nil | done].
    + unfold NL_str in Hnl. cbn [startswith] in Hnl.
      rewrite andb_true_r in Hnl. apply N.eqb_neq in Hnl.
      apply (IH (c :: cur) line); [|done].
      apply not_elem_of_cons. by split.
Qed.

Lemma lines_no_newline content line :
  line ∈ split NL_str content → Re.NL ∉ line.
Proof. apply split_lines_no_newline, not_elem_of_nil. Qed.

Lemma dot_plus_end_line s :
  Re.NL ∉ s → s ≠ [] → Re.dot_plus_end s = true.
Proof.
  induction s as [|c rest IH]; [done|]. intros Hnl _.
  apply not_elem_of_cons in Hnl as [Hc Hrest]. cbn [Re.dot_plus_end].
  assert (Hne : (c =? Re.NL) = false) by (apply N.eqb_neq; congruence).
  rewrite Hne. simpl negb. cbn [andb].
  destruct rest as [|c' rest']; [done|].
  rewrite (IH Hrest) by done. destruct rest'; [apply orb_true_r | done].
Qed.

Lemma spaces_then_text_line s :
  Re.NL ∉ s →
  Re.spaces_then_text s = true
  ↔ ∃ c text, s = c :: text ∧ Py_UNICODE_ISSPACE c = true ∧ text ≠ [].
Proof.
  intros Hnl. destruct s as [|c rest].
  - split; [done | by intros (? & ? & ? & _)].
  - apply not_elem_of_cons in Hnl as [_ Hrest]. cbn [Re.spaces_then_text].
    rewrite andb_true_iff, orb_true_iff. split.
    + intros [Hc Htext]. exists c, rest. split; [done|]. split; [done|].
      destruct rest; [|done]. by destruct Htext.
    + intros (c' & text & [= <- <-] & Hc & Hne). split; [done|].
      left. by apply dot_plus_end_line.
Qed.

Lemma hashes_then_text_line n : ∀ s,
  Re.NL ∉ s →
  Re.hashes_then_text n s = true
  ↔ ∃ (hashes : nat) (space : N) (text : pystr),
      s = replicate hashes Re.HASH ++ space :: text
      ∧ (1 ≤ hashes ≤ n)%nat
      ∧ Py_UNICODE_ISSPACE space = true
      ∧ text ≠ [].
Proof.
  induction n as [|n IH]; intros s Hnl.
  - split; [by destruct s | intros (k & _ & _ & _ & Hk & _); lia].
  - destruct s as [|c rest].
    + split; [done|]. intros (k & c & text & Hs & _). by destruct k.
    + apply not_elem_of_cons in Hnl as [_ Hrest]. cbn [Re.hashes_then_text].
      rewrite andb_true_iff, orb_true_iff, N.eqb_eq.
      rewrite (spaces_then_text_line rest Hrest), (IH rest Hrest). split.
      * intros [-> [(space & text & -> & Hspace & Hne)
                   | (k & space & text & -> & Hk & Hspace & Hne)]].
        -- exists 1%nat, space, text. repeat split; [lia | lia | done | done].
        -- exists (S k), space, text. repeat split; [lia | lia | done | done].
      * intros (k & space & text & Hs & Hk & Hspace & Hne).
        destruct k as [|k]; [lia|]. simpl in Hs. injection Hs as -> ->.
        split; [done|]. destruct k as [|k].
        -- left. by exists space, text.
        -- right. exists (S k), space, text. repeat split; [lia | lia | done | done].
Qed.

(** The pattern of the source matches a line exactly when the line is a
    heading as the specification words it. *)
Lemma match_heading_line line :
  Re.NL ∉ line → Re.match_heading line = true ↔ is_heading line.
Proof. intros Hnl. apply (hashes_then_text_line 6 line Hnl). Qed.

(** C9. For every input text, [_split_by_sections] returns, in order, the
    joined groups of the lines of the text that are not blank after
    trimming: the lines before the first heading form the leading group,
    every line that matches the heading pattern opens a group of its own
    (so there is one group more than there are heading lines, and a
    heading followed by a heading is a group alone), no line is lost or
    reordered, and every returned section is non-empty after trimming.
    A line matches the pattern exactly when it is one to six [#]
    characters, then a whitespace character, then at least one more
    character. *)
Theorem split_by_sections_spec (content : pystr) :
  let lines := split NL_str content in
  _split_by_sections content
  = List.filter nonblank (map (join NL_str) (group_lines lines))
  ∧ Forall (fun section => strip section ≠ []) (_split_by_sections content)
  ∧ concat (group_lines lines) = lines
  ∧ length (group_lines lines) = S (count_headings lines)
  ∧ (∃ leading groups,
      group_lines lines = leading :: groups
      ∧ Forall (fun l => Re.match_heading l = false) leading
      ∧ Forall heading_group groups)
  ∧ Forall (fun line => Re.match_heading line = true ↔ is_heading line) lines.
Proof.
  intros lines. split; [apply split_by_sections_groups|].
  split.
  { rewrite split_by_sections_groups. unfold sections_by_headings.
    apply Forall_forall. intros s Hs. apply list_elem_of_In, filter_In in Hs.
    destruct Hs as [_ Hs]. by apply truthy_true. }
  split; [apply group_lines_concat|].
  split; [apply group_lines_length|].
  split; [apply group_lines_shape|].
  apply Forall_forall. intros line Hline.
  by apply match_heading_line, (lines_no_newline content).
Qed.

End SplitterFacts.

(** ** Section types *)

Module SectionTypeFacts.
Import Chunker.

Section Lowering.

Variable tolower_full : N -> list N.
Variable lower_sigma : pystr -> pystr -> N.

(** Hangul has no case: the table maps a syllable to itself. *)
Hypothesis hangul_caseless : ∀ c, is_hangul c = true → tolower_full c = [c].

Abbreviation lower_from := (Chunker.lower_from tolower_full lower_sigma).
Abbreviation lower := (Chunker.lower tolower_full lower_sigma).
Abbreviation identify_section_type :=
  (Chunker.identify_section_type tolower_full lower_sigma).

(** Lowering works character by character: what precedes a position in
    the text yields what precedes it in the result. *)
Lemma lower_from_prefix a rest : ∀ before,
  ∃ x, lower_from before (a ++ rest) = x ++ lower_from (rev a ++ before) rest.
Proof.
  induction a as [|c a IH]; intros before; [by exists []|]. simpl.
  destruct (IH (c :: before)) as [x Hx]. rewrite Hx.
  exists ((if c =? 0x3A3 then [lower_sigma before (a ++ rest)]
           else tolower_full c) ++ x).
  by rewrite <- !app_assoc.
Qed.

Lemma lower_from_hangul kw rest : ∀ before,
  forallb is_hangul kw = true →
  lower_from before (kw ++ rest) = kw ++ lower_from (rev kw ++ before) rest.
Proof.
  induction kw as [|c kw IH]; intros before Hkw; [done|].
  simpl in Hkw. apply andb_true_iff in Hkw as [Hc Hkw]. simpl.
  rewrite (IH _ Hkw), (hangul_caseless c Hc), <- (app_assoc (rev kw)).
  destruct (c =? 0x3A3) eqn:Hs; [|done].
  apply N.eqb_eq in Hs. subst c. discriminate Hc.
Qed.

Lemma contains_lower kw text :
  forallb is_hangul kw = true →
  contains kw text = true → contains kw (lower text) = true.
Proof.
  intros Hkw Hin. apply contains_spec in Hin as (a & b & ->).
  apply contains_spec. unfold Chunker.lower.
  destruct (lower_from_prefix a (kw ++ b) []) as [x ->].
  rewrite (lower_from_hangul _ _ _ Hkw). eauto.
Qed.

Lemma warning_keywords_hangul :
  forallb (forallb is_hangul) warning_keywords = true.
Proof. by vm_compute. Qed.

Lemma any_keyword_in_intro keywords kw text :
  kw ∈ keywords → contains kw text = true → any_keyword_in keywords text = true.
Proof.
  intros Hkw Hin. apply existsb_exists. exists kw.
  split; [by apply list_elem_of_In | done].
Qed.

(** C8. [identify_section_type] is total and returns one of the five
    labels; the label is decided by the first keyword group, in the order
    warning, instruction, specification, troubleshooting, that has a
    keyword in the lowered text, and is general when none has. Hence a
    text that contains a warning keyword and an instruction keyword is
    classified as warning. *)
Theorem identify_section_type_priority (text : pystr) :
  let t := lower text in
  let label := identify_section_type text in
  label ∈ [py "warning"; py "instruction"; py "specification";
           py "troubleshooting"; py "general"]
  ∧ (label = py "warning" ↔ any_keyword_in warning_keywords t = true)
  ∧ (label = py "instruction" ↔
       any_keyword_in warning_keywords t = false
       ∧ any_keyword_in instruction_keywords t = true)
  ∧ (label = py "specification" ↔
       any_keyword_in warning_keywords t = false
       ∧ any_keyword_in instruction_keywords t = false
       ∧ any_keyword_in specification_keywords t = true)
  ∧ (label = py "troubleshooting" ↔
       any_keyword_in warning_keywords t = false
       ∧ any_keyword_in instruction_keywords t = false
       ∧ any_keyword_in specification_keywords t = false
       ∧ any_keyword_in troubleshooting_keywords t = true)
  ∧ (label = py "general" ↔
       any_keyword_in warning_keywords t = false
       ∧ any_keyword_in instruction_keywords t = false
       ∧ any_keyword_in specification_keywords t = false
       ∧ any_keyword_in troubleshooting_keywords t = false)
  ∧ (∀ kw kw',
       kw ∈ warning_keywords → kw' ∈ instruction_keywords →
       contains kw text = true → contains kw' text = true →
       label = py "warning").
Proof.
  intros t label.
  assert (Hwarn : ∀ kw, kw ∈ warning_keywords → contains kw text = true →
                        any_keyword_in warning_keywords t = true).
  { intros kw Hkw Hin. apply (any_keyword_in_intro _ kw); [done|].
    apply contains_lower; [|done].
    pose proof warning_keywords_hangul as Hall.
    rewrite forallb_forall in Hall. apply Hall. by apply list_elem_of_In. }
  subst label. unfold Chunker.identify_section_type. fold t.
  destruct (any_keyword_in warning_keywords t) eqn:H1;
    [|destruct (any_keyword_in instruction_keywords t) eqn:H2;
      [|destruct (any_keyword_in specification_keywords t) eqn:H3;
        [|destruct (any_keyword_in troubleshooting_keywords t) eqn:H4]]].
  all: split; [set_solver|].
  all: repeat split; try done; try (by vm_compute); try (by intros (? & ?));
    try (by intros (? & ? & ?)); try (by intros (? & ? & ? & ?)).
  all: intros kw kw' Hkw _ Hin _; specialize (Hwarn kw Hkw Hin); done.
Qed.

End Lowering.

End SectionTypeFacts.

(** ** The context builder of [generate_answer] *)

Module ContextFacts.
Import RAGSystem ContextSpec.

Section Context.

Variable float_str : float -> pystr.

Abbreviation part_of := (RAGSystem.part_of float_str).
Abbreviation total := (annotated_length float_str).

Lemma total_nonneg results : (0 ≤ total results)%Z.
Proof. induction results; simpl; lia. Qed.

Lemma total_take_mono results : ∀ i j,
  (i ≤ j)%nat → (total (take i results) ≤ total (take j results))%Z.
Proof.
  induction results as [|r results IH]; intros i j Hij.
  - by rewrite !take_nil.
  - destruct i as [|i].
    + simpl. apply total_nonneg.
    + destruct j as [|j]; [lia|]. simpl.
      specialize (IH i j ltac:(lia)). lia.
Qed.

(** The loop keeps the parts it has and adds whole parts in order, up to
    the first one that does not fit. *)
Lemma context_loop_prefix max results : ∀ context_parts current_length,
  ∃ j, (j ≤ length results)%nat
       ∧ context_loop float_str max results context_parts current_length
         = context_parts ++ map part_of (take j results)
       ∧ (∀ i, (1 ≤ i ≤ j)%nat →
               (current_length + total (take i results) ≤ max)%Z)
       ∧ ((j < length results)%nat →
          (current_length + total (take (S j) results) > max)%Z).
Proof.
  induction results as [|r results IH]; intros acc cur.
  - exists 0%nat. simpl. rewrite app_nil_r. repeat split; [done|lia|lia].
  - simpl. destruct (_ >? _)%Z eqn:Hgt.
    + exists 0%nat. simpl. rewrite app_nil_r.
      repeat split; [lia|lia|]. intros _. apply Z.gtb_lt in Hgt. lia.
    + rewrite Z.gtb_ltb, Z.ltb_ge in Hgt.
      destruct (IH (acc ++ [part_of r])
                   (cur + Z.of_nat (length (part_of r)))%Z)
        as (j & Hj & Heq & Hfit & Hstop).
      exists (S j). simpl. repeat split.
      * lia.
      * by rewrite Heq, <- app_assoc.
      * intros i Hi. destruct i as [|i]; [lia|]. simpl.
        destruct i as [|i].
        -- rewrite take_0. simpl. lia.
        -- specialize (Hfit (S i) ltac:(lia)). lia.
      * intros Hlt. specialize (Hstop ltac:(lia)). lia.
Qed.

(** The annotated part of a result with a string content and an integer
    page number. *)
Lemma part_of_annotated result content page :
  r_content result = VStr content → r_page_number result = VInt page →
  part_of result = annotated content page
  ∧ length (part_of result) = (length content + 7 + length (str_Z page))%nat.
Proof.
  intros Hcontent Hpage. unfold RAGSystem.part_of, annotated.
  rewrite Hcontent, Hpage. simpl format. split.
  - reflexivity.
  - rewrite !length_app. change (length (py " ")) with 1%nat.
    change (length (py "(페이지 ")) with 5%nat.
    change (length (py ")")) with 1%nat. lia.
Qed.

(** C7. The context builder returns the annotated parts of a prefix of the
    results, whole and in ranking order: every included result keeps the
    accumulated length within the maximum, and the first result left out,
    if there is one, would exceed it. So when the accumulated length is
    within the maximum after [j] results and beyond it after [j + 1], the
    parts are exactly those of the first [j] results; with five results
    and a maximum of 4000 first exceeded at the fourth, exactly the first
    three are included. The part of a result is its whole content, a
    space and the page number in brackets, and the length that is
    accumulated is that of the part, annotation included: of five results
    of 1330 characters, whose contents alone would fit three times into
    4000, only the first two are included. *)
Theorem build_context_parts_prefix (results : list SearchResult) (max : Z) :
  (∃ j, (j ≤ length results)%nat
        ∧ build_context_parts float_str results max = map part_of (take j results)
        ∧ (∀ i, (1 ≤ i ≤ j)%nat → (total (take i results) ≤ max)%Z)
        ∧ ((j < length results)%nat → (total (take (S j) results) > max)%Z))
  ∧ (∀ j, (j < length results)%nat →
          (total (take j results) ≤ max)%Z →
          (total (take (S j) results) > max)%Z →
          build_context_parts float_str results max = map part_of (take j results))
  ∧ (∀ r1 r2 r3 r4 r5,
       results = [r1; r2; r3; r4; r5] →
       (total [r1; r2; r3] ≤ 4000)%Z →
       (total [r1; r2; r3; r4] > 4000)%Z →
       build_context_parts float_str results 4000 = [part_of r1; part_of r2; part_of r3])
  ∧ (∀ result content page,
       r_content result = VStr content → r_page_number result = VInt page →
       part_of result = annotated content page
       ∧ total [result]
         = (Z.of_nat (length content) + 7 + Z.of_nat (length (str_Z page)))%Z)
  ∧ build_context_parts float_str tight_results 4000
    = [annotated (replicate 1330 0x61) 1; annotated (replicate 1330 0x61) 2].
Proof.
  assert (Hex : ∀ max', ∃ j, (j ≤ length results)%nat
        ∧ build_context_parts float_str results max' = map part_of (take j results)
        ∧ (∀ i, (1 ≤ i ≤ j)%nat → (total (take i results) ≤ max')%Z)
        ∧ ((j < length results)%nat → (total (take (S j) results) > max')%Z)).
  { intros max'. unfold build_context_parts.
    destruct (context_loop_prefix max' results [] 0%Z) as (j & Hj & Heq & Hfit & Hstop).
    exists j. repeat split; [done|done| |].
    - intros i Hi. specialize (Hfit i Hi). lia.
    - intros Hlt. specialize (Hstop Hlt). lia. }
  assert (Huniq : ∀ max' j, (j < length results)%nat →
          (total (take j results) ≤ max')%Z →
          (total (take (S j) results) > max')%Z →
          build_context_parts float_str results max' = map part_of (take j results)).
  { intros max' j Hj Hle Hgt.
    destruct (Hex max') as (j' & Hj' & Heq & Hfit & Hstop).
    rewrite Heq. f_equal. f_equal.
    destruct (decide (j' = j)) as [|Hne]; [done|exfalso].
    destruct (decide (j' < j)%nat) as [Hlt|Hge].
    - specialize (Hstop ltac:(lia)).
      pose proof (total_take_mono results (S j') j ltac:(lia)). lia.
    - specialize (Hfit (S j) ltac:(lia)). lia. }
  split; [apply Hex|]. split; [apply Huniq|]. split.
  { intros r1 r2 r3 r4 r5 -> H3 H4.
    by apply (Huniq 4000%Z 3%nat); [simpl; lia| |]. }
  split.
  - intros result content page Hcontent Hpage.
    destruct (part_of_annotated result content page Hcontent Hpage) as [Hpart Hlen].
    split; [done|]. unfold annotated_length. simpl. rewrite Hlen. lia.
  - by vm_compute.
Qed.

End Context.

(** Five results of 1308 characters each: three fit into 4000. *)
Lemma build_context_parts_prefix_witness :
  build_context_parts no_float_str five_results 4000
  = map (RAGSystem.part_of no_float_str)
        [sample_result 1300 1; sample_result 1300 2; sample_result 1300 3].
Proof.
  apply (proj1 (proj2 (proj2 (build_context_parts_prefix no_float_str
                                five_results 4000)))
           (sample_result 1300 1) (sample_result 1300 2) (sample_result 1300 3)
           (sample_result 1300 4) (sample_result 1300 5)).
  - reflexivity.
  - vm_compute. discriminate.
  - by vm_compute.
Defined.

End ContextFacts.

(** ** Embedding client *)

Module EmbeddingFacts.
Import EmbeddingService EmbeddingSpec.

Section Batches.

Variable W : Type.
Variable svc : Services W.

Abbreviation embedded := (EmbeddingSpec.embedded W svc).

Lemma embedded_app s texts1 vs1 s1 texts2 vs2 s2 :
  embedded s texts1 vs1 s1 → embedded s1 texts2 vs2 s2 →
  embedded s (texts1 ++ texts2) (vs1 ++ vs2) s2.
Proof.
  induction 1 as [| ? ? ? ? ? ? ? Hcall _ IH | ? ? ? ? ? ? ? Hcall _ IH];
    intros H2; simpl.
  - done.
  - eapply embedded_ok; eauto.
  - eapply embedded_failed; eauto.
Qed.

Lemma embedded_length s texts vs s' :
  embedded s texts vs s' → length vs = length texts.
Proof. induction 1; simpl; lia. Qed.

(** The inner loop embeds its batch, one text after the other. *)
Lemma embed_batch_embedded batch : ∀ batch_embeddings s,
  ∃ vs s', embed_batch W svc batch batch_embeddings s
           = (Return (batch_embeddings ++ vs), s')
           ∧ embedded s batch vs s'.
Proof.
  induction batch as [|text rest IH]; intros acc s.
  - exists [], s. simpl. rewrite app_nil_r. split; [done | constructor].
  - simpl. unfold bind, embed_or_zero, try_except.
    destruct (create_embedding W svc text s) as [[v|e] s1] eqn:Hcall.
    + destruct (IH (acc ++ [v]) s1) as (vs & s' & Heq & Hemb).
      exists (v :: vs), s'. unfold ret. rewrite Heq, <- app_assoc.
      split; [done | by eapply embedded_ok].
    + destruct (IH (acc ++ [zero_vector]) s1) as (vs & s' & Heq & Hemb).
      exists (zero_vector :: vs), s'. unfold ret. rewrite Heq, <- app_assoc.
      split; [done | by eapply embedded_failed].
Qed.

(** The outer loop, started at index [i], embeds the texts from [i] on. *)
Lemma batch_loop_embedded texts batch_size :
  (0 < batch_size)%Z →
  ∀ fuel i embeddings s,
    (length texts - i ≤ fuel)%nat →
    ∃ vs s',
      batch_loop W svc texts batch_size
        (range_up fuel i (length texts) (Z.to_nat batch_size)) embeddings s
      = (Return (embeddings ++ vs), s')
      ∧ embedded s (drop i texts) vs s'.
Proof.
  intros Hpos. induction fuel as [|fuel IH]; intros i acc s Hfuel.
  - exists [], s. simpl. rewrite app_nil_r, drop_ge by lia.
    split; [done | constructor].
  - simpl. destruct (i <? length texts)%nat eqn:Hlt.
    + simpl. unfold bind.
      destruct (embed_batch_embedded (slice texts i batch_size) [] s)
        as (vs1 & s1 & Heq1 & Hemb1).
      rewrite Heq1. simpl.
      destruct (IH (i + Z.to_nat batch_size)%nat (acc ++ vs1) s1) as (vs2 & s2 & Heq2 & Hemb2).
      { apply Nat.ltb_lt in Hlt. lia. }
      exists (vs1 ++ vs2), s2. rewrite Heq2, <- app_assoc. split; [done|].
      rewrite <- (take_drop (Z.to_nat batch_size) (drop i texts)).
      apply (embedded_app _ _ _ s1); [done|].
      by rewrite drop_drop.
    + apply Nat.ltb_ge in Hlt. exists [], s. simpl.
      rewrite app_nil_r, drop_ge by lia. split; [done | constructor].
Qed.

(** C6. For every list of texts and every batch size of at least one,
    [create_embeddings_batch] returns, and returns one vector for every
    text, in the order of the texts: the vector [create_embedding] gave
    for the text, or the zero vector of 1024 entries when that call
    raised; after a failed text the texts that follow are still
    embedded. *)
Theorem create_embeddings_batch_embedded (texts : list pystr) (batch_size : Z)
    (s : state W) :
  (0 < batch_size)%Z →
  ∃ vectors s',
    create_embeddings_batch W svc texts batch_size s = (Return vectors, s')
    ∧ embedded s texts vectors s'
    ∧ length vectors = length texts
    ∧ zero_vector = replicate 1024 float_zero.
Proof.
  intros Hpos. unfold create_embeddings_batch, range0.
  destruct (batch_size =? 0)%Z eqn:H0; [apply Z.eqb_eq in H0; lia|].
  destruct (batch_size <? 0)%Z eqn:Hneg; [apply Z.ltb_lt in Hneg; lia|].
  simpl. unfold bind, ret.
  destruct (batch_loop_embedded texts batch_size Hpos (length texts) 0%nat [] s)
    as (vs & s' & Heq & Hemb); [lia|].
  exists vs, s'. rewrite Heq. simpl in *.
  repeat split; [done | by eapply embedded_length].
Qed.

End Batches.

End EmbeddingFacts.

(** One text, three batch sizes: a batch size of zero makes [range] raise
    and a negative one leaves the loop without a turn, so that no vector
    is returned for the text; a batch size of one gives its vector. *)
Lemma create_embeddings_batch_nonpositive_size :
  EmbeddingService.create_embeddings_batch unit (Worlds.serving [] true)
    [py "a"] 0 Worlds.start
  = (Raise (ValueError (py "range() arg 3 must not be zero")), Worlds.start)
  ∧ EmbeddingService.create_embeddings_batch unit (Worlds.serving [] true)
      [py "a"] (-1) Worlds.start
    = (Return [], Worlds.start)
  ∧ fst (EmbeddingService.create_embeddings_batch unit (Worlds.serving [] true)
           [py "a"] 1 Worlds.start)
    = Return [[float_0_7]].
Proof. repeat split; by vm_compute. Qed.

(** Two texts and a model that is down: two zero vectors. *)
Lemma create_embeddings_batch_embedded_witness :
  ∃ vectors s',
    EmbeddingService.create_embeddings_batch unit Worlds.unreachable
      [py "a"; py "b"] 1 Worlds.start = (Return vectors, s')
    ∧ EmbeddingSpec.embedded unit Worlds.unreachable Worlds.start
        [py "a"; py "b"] vectors s'
    ∧ length vectors = length [py "a"; py "b"]
    ∧ EmbeddingService.zero_vector = replicate 1024 float_zero.
Proof.
  apply (EmbeddingFacts.create_embeddings_batch_embedded unit Worlds.unreachable
           [py "a"; py "b"] 1 Worlds.start).
  lia.
Defined.

(** ** Retrieval store *)

Module VectorStoreFacts.
Import VectorStore.

Section AddDocuments.

Variable W : Type.
Variable svc : Services W.
Variable index_name : pystr.

(** C3. When the numbers of chunks and of embeddings differ,
    [add_documents] fails before any request: its [try] block raises the
    [ValueError] at once, the function reports the failure by returning
    [False], and the state, the world and the list of requests sent, is
    the one it started with: no bulk request and no refresh was issued. *)
Theorem add_documents_length_mismatch (chunks : list Chunker.DocumentChunk)
    (embeddings : list (list float)) (w : W) (sent : list call) :
  length chunks ≠ length embeddings →
  add_documents_try W svc index_name chunks embeddings (w, sent)
  = (Raise (ValueError (py "청크 수와 임베딩 수가 일치하지 않습니다.")), (w, sent))
  ∧ add_documents W svc index_name chunks embeddings (w, sent)
    = (Return false, (w, sent)).
Proof.
  intros Hne. unfold add_documents, try_except, add_documents_try.
  destruct (length chunks =? length embeddings)%nat eqn:Heq.
  - apply Nat.eqb_eq in Heq. done.
  - done.
Qed.

End AddDocuments.

End VectorStoreFacts.

(** No chunk and one embedding: the failure, and nothing sent. *)
Lemma add_documents_length_mismatch_witness :
  VectorStore.add_documents_try unit (Worlds.serving [] true) Worlds.index_name
    [] [EmbeddingService.zero_vector] ((), [])
  = (Raise (ValueError (py "청크 수와 임베딩 수가 일치하지 않습니다.")), ((), []))
  ∧ VectorStore.add_documents unit (Worlds.serving [] true) Worlds.index_name
      [] [EmbeddingService.zero_vector] ((), [])
    = (Return false, ((), [])).
Proof.
  apply (VectorStoreFacts.add_documents_length_mismatch unit
           (Worlds.serving [] true) Worlds.index_name [] [EmbeddingService.zero_vector]).
  simpl. lia.
Defined.

(** With equal numbers the function goes on to its requests: for no
    chunk at all, the refresh alone. *)
Lemma add_documents_sends_requests :
  snd (snd (VectorStore.add_documents unit (Worlds.serving [] true)
              Worlds.index_name [] [] Worlds.start))
  = [OsRefresh Worlds.index_name].
Proof. by vm_compute. Qed.

(** ** Query orchestrator *)

Module QueryFacts.
Import RAGSystem.

Lemma no_results_response_fields question elapsed :
  let response := no_results_response question elapsed in
  response !! "answer"%string = Some (RStr NO_RESULTS_ANSWER)
  ∧ response !! "sources"%string = Some (RSources [])
  ∧ response !! "results_count"%string = None
  ∧ response !! "error"%string = None.
Proof. by repeat split. Qed.

Lemma error_response_fields question e :
  let response := error_response question e in
  response !! "answer"%string = Some (RStr (py "오류가 발생했습니다: " ++ exn_msg e))
  ∧ response !! "sources"%string = Some (RSources [])
  ∧ response !! "search_time"%string = Some (RInt 0)
  ∧ response !! "error"%string = Some (RStr (exn_msg e)).
Proof. by repeat split. Qed.

Section Query.

Variable W : Type.
Variable svc : Services W.
Variable index_name : pystr.
Variable float_str : float -> pystr.

Abbreviation search := (RAGSystem.search W svc index_name).
Abbreviation generate_answer := (RAGSystem.generate_answer W svc float_str).
Abbreviation query_try := (RAGSystem.query_try W svc index_name float_str).
Abbreviation query := (RAGSystem.query W svc index_name float_str).
Abbreviation create_embedding := (EmbeddingService.create_embedding W svc).

(** [search] absorbs every exception. *)
Lemma search_returns question k search_type s :
  ∃ results s', search question k search_type s = (Return results, s').
Proof.
  unfold RAGSystem.search, try_except.
  destruct (bind _ _ s) as [[results|e] s']; unfold ret; eauto.
Qed.

Lemma search_embedding_raises question k search_type s e s1 :
  create_embedding question s = (Raise e, s1) →
  search question k search_type s = (Return [], s1).
Proof.
  intros Hraise. unfold RAGSystem.search, try_except, bind.
  by rewrite Hraise.
Qed.

(** [generate_answer] absorbs every exception. *)
Lemma generate_answer_returns question results max_context_length s :
  ∃ answer s',
    generate_answer question results max_context_length s = (Return answer, s').
Proof.
  unfold RAGSystem.generate_answer, try_except.
  destruct results as [|result results].
  - unfold ret. eauto.
  - destruct (bind _ _ s) as [[answer|e] s']; unfold ret; eauto.
Qed.

Lemma query_no_results question k search_type w sent t0 w1 w2 sent2 t1 w3 :
  clock svc w = (t0, w1) →
  search question k search_type (w1, sent) = (Return [], (w2, sent2)) →
  clock svc w2 = (t1, w3) →
  query question k search_type (w, sent)
  = (Return (no_results_response question (t1 - t0)), (w3, sent2)).
Proof.
  intros Ht0 Hsearch Ht1.
  unfold RAGSystem.query, try_except, RAGSystem.query_try, bind, observe.
  rewrite Ht0. fold search. rewrite Hsearch. by rewrite Ht1.
Qed.

End Query.

End QueryFacts.

(** C4. The question of the scenario, asked of an index that holds no
    document: the search returns no result and [query] gives the fixed
    answer and an empty source list, in a dict that has no key
    [results_count]. *)
Theorem query_no_results_lacks_results_count :
  let question := py "없는 질문" in
  let response := RAGSystem.no_results_response question 0 in
  fst (RAGSystem.search unit (Worlds.serving [] true) Worlds.index_name
         question 3 (py "vector") Worlds.start)
  = Return []
  ∧ fst (RAGSystem.query unit (Worlds.serving [] true) Worlds.index_name
           ContextSpec.no_float_str question 3 (py "vector") Worlds.start)
    = Return response
  ∧ response !! "answer"%string = Some (RAGSystem.RStr RAGSystem.NO_RESULTS_ANSWER)
  ∧ response !! "sources"%string = Some (RAGSystem.RSources [])
  ∧ response !! "results_count"%string = None
  ∧ dom response = {["question"; "answer"; "sources"; "search_time"]}%string.
Proof.
  intros question response.
  split; [vm_compute; reflexivity|]. split; [vm_compute; reflexivity|].
  split; [reflexivity|]. split; [reflexivity|]. split; [reflexivity|].
  subst response. unfold RAGSystem.no_results_response.
  rewrite !dom_insert_L, dom_singleton_L. set_solver.
Qed.

(** ** Chunker *)

Module ChunkerFacts.
Import Chunker ChunkerSpec.

Lemma dot_space : py ". " = [0x2E; 0x20].
Proof. reflexivity. Qed.

Lemma glue_snoc group sentence :
  glue (group ++ [sentence]) = glue group ++ sentence ++ py ". ".
Proof. unfold glue. rewrite map_app, concat_app. simpl. by rewrite app_nil_r. Qed.

Lemma glue_singleton sentence : glue [sentence] = sentence ++ py ". ".
Proof. unfold glue. simpl. by rewrite app_nil_r. Qed.

Lemma glue_truthy group : group ≠ [] → truthy (glue group) = true.
Proof.
  destruct group as [|sentence rest]; [done|]. intros _. unfold glue. simpl.
  rewrite dot_space. by destruct sentence.
Qed.

Lemma split_sentences_from_nonempty s : ∀ in_gap cur,
  Re.split_sentences_from in_gap cur s ≠ [].
Proof.
  induction s as [|c s IH]; intros in_gap cur; simpl; [done|].
  destruct (in_gap && Py_UNICODE_ISSPACE c); [apply IH|].
  destruct (Re.is_terminator c && Re.next_is_space s); [done | apply IH].
Qed.

Section WithRuntime.

Variable tolower_full : N -> list N.
Variable lower_sigma : pystr -> pystr -> N.
Variable encode : pystr -> list N.

Abbreviation token_count := (Chunker.token_count encode).
Abbreviation sub_chunk := (Chunker.sub_chunk tolower_full lower_sigma).
Abbreviation long_step := (Chunker.long_step tolower_full lower_sigma encode).
Abbreviation _split_long_section :=
  (Chunker._split_long_section tolower_full lower_sigma encode).
Abbreviation create_chunks := (Chunker.create_chunks tolower_full lower_sigma encode).
Abbreviation emitted := (ChunkerSpec.emitted tolower_full lower_sigma encode).
Abbreviation emitted_page := (ChunkerSpec.emitted_page tolower_full lower_sigma encode).
Abbreviation emitted_section :=
  (ChunkerSpec.emitted_section tolower_full lower_sigma encode).

Abbreviation closable := (ChunkerSpec.closable encode).
Abbreviation long_inv := (ChunkerSpec.long_inv tolower_full lower_sigma encode).

Lemma long_loop_inv page_number page_images sentences :
  long_inv page_number page_images sentences
    (foldl (long_step page_number page_images) ([], []) sentences).
Proof.
  induction sentences as [|sentence processed IH] using rev_ind.
  - by left.
  - rewrite foldl_app. simpl. right.
    destruct IH as [[-> ->] | (groups & group & -> & Hne & Hgs & Hclos & ->)].
    + simpl. exists [], [sentence]. rewrite glue_singleton.
      destruct (bool_decide _) eqn:Hfit.
      * apply bool_decide_eq_true in Hfit. repeat split; try done.
        constructor; [|done]. left. by rewrite glue_singleton.
      * repeat split; try done. constructor; [|done]. right. eauto.
    + unfold Chunker.long_step.
      destruct (bool_decide _) eqn:Hfit.
      * apply bool_decide_eq_true in Hfit.
        exists groups, (group ++ [sentence]). rewrite glue_snoc.
        repeat split; try done.
        -- by rewrite app_assoc.
        -- by destruct group.
        -- apply Forall_app in Hclos as [Hclos _]. apply Forall_app. split; [done|].
           constructor; [|done]. left. by rewrite glue_snoc.
      * rewrite (glue_truthy group Hne).
        exists (groups ++ [group]), [sentence]. rewrite glue_singleton.
        repeat split; try done.
        -- rewrite concat_app. simpl. by rewrite app_nil_r.
        -- apply Forall_app. split; [done | by constructor].
        -- apply Forall_app. split; [done|]. constructor; [|done]. right. eauto.
        -- by rewrite map_app.
Qed.

(** The sub-chunks of a section are the buffers of consecutive groups of
    its sentence units. *)
Lemma split_long_section_groups section page_number page_images :
  ∃ groups,
    concat groups = Re.split_sentences section
    ∧ Forall (fun g => g ≠ []) groups
    ∧ Forall closable groups
    ∧ _split_long_section section page_number page_images
      = map (fun g => sub_chunk (glue g) page_number page_images) groups.
Proof.
  unfold Chunker._split_long_section.
  pose proof (long_loop_inv page_number page_images (Re.split_sentences section)) as Hinv.
  destruct Hinv as [[Hnil _] | (groups & group & Hcat & Hne & Hgs & Hclos & ->)].
  - by apply split_sentences_from_nonempty in Hnil.
  - rewrite (glue_truthy group Hne). exists (groups ++ [group]).
    repeat split; try done.
    + rewrite concat_app. simpl. by rewrite app_nil_r.
    + apply Forall_app. split; [done | by constructor].
    + by rewrite map_app.
Qed.

(** *** Numbering *)

Lemma number_from_app chunks1 chunks2 : ∀ i,
  number_from i (chunks1 ++ chunks2)
  = number_from i chunks1 ++ number_from (i + length chunks1) chunks2.
Proof.
  induction chunks1 as [|chunk rest IH]; intros i; simpl.
  - by rewrite Nat.add_0_r.
  - rewrite IH. do 3 f_equal. lia.
Qed.

Lemma adopt_loop c subs : ∀ chunks i,
  foldl (adopt_sub_chunk c) (chunks, i) subs
  = (chunks ++ number_from i (map (stamped c) subs), (i + length subs)%nat).
Proof.
  induction subs as [|sub rest IH]; intros chunks i; simpl.
  - by rewrite app_nil_r, Nat.add_0_r.
  - rewrite IH, <- app_assoc. simpl. do 2 f_equal. lia.
Qed.

Lemma section_step_emitted c page_number page_images chunks i section :
  section_step tolower_full lower_sigma encode c page_number page_images
    (chunks, i) section
  = (chunks ++ number_from i (emitted_section c page_number page_images section),
     (i + length (emitted_section c page_number page_images section))%nat).
Proof.
  unfold section_step, ChunkerSpec.emitted_section.
  destruct (bool_decide _).
  - simpl. do 2 f_equal. lia.
  - rewrite adopt_loop. by rewrite length_map.
Qed.

Lemma sections_loop c page_number page_images sections : ∀ chunks i,
  foldl (section_step tolower_full lower_sigma encode c page_number page_images)
        (chunks, i) sections
  = (chunks ++ number_from i
                 (flat_map (emitted_section c page_number page_images) sections),
     (i + length (flat_map (emitted_section c page_number page_images) sections))%nat).
Proof.
  induction sections as [|section rest IH]; intros chunks i; cbn [foldl flat_map].
  - simpl. by rewrite app_nil_r, Nat.add_0_r.
  - rewrite section_step_emitted, IH, number_from_app, length_app, <- app_assoc.
    f_equal. lia.
Qed.

Lemma page_step_emitted c chunks i entry :
  page_step tolower_full lower_sigma encode c (chunks, i) entry
  = (chunks ++ number_from i (emitted_page c entry),
     (i + length (emitted_page c entry))%nat).
Proof.
  destruct entry as [page_num page_content].
  unfold page_step, ChunkerSpec.emitted_page, page_sections, images_of_page. simpl.
  destruct (negb (truthy (strip (text_content_of page_content)))).
  - simpl. by rewrite app_nil_r, Nat.add_0_r.
  - apply sections_loop.
Qed.

Lemma pages_loop c entries : ∀ chunks i,
  foldl (page_step tolower_full lower_sigma encode c) (chunks, i) entries
  = (chunks ++ number_from i (flat_map (emitted_page c) entries),
     (i + length (flat_map (emitted_page c) entries))%nat).
Proof.
  induction entries as [|entry rest IH]; intros chunks i; cbn [foldl flat_map].
  - simpl. by rewrite app_nil_r, Nat.add_0_r.
  - rewrite page_step_emitted, IH, number_from_app, length_app, <- app_assoc.
    f_equal. lia.
Qed.

Lemma create_chunks_emitted c : create_chunks c = number_from 0 (emitted c).
Proof. unfold Chunker.create_chunks. by rewrite pages_loop. Qed.

End WithRuntime.

Lemma number_from_ids chunks : ∀ i,
  map chunk_id (number_from i chunks) = map chunk_name (seq i (length chunks)).
Proof.
  induction chunks as [|chunk rest IH]; intros i; simpl; [done|].
  by rewrite IH.
Qed.

Lemma number_from_length chunks : ∀ i,
  length (number_from i chunks) = length chunks.
Proof. induction chunks as [|chunk rest IH]; intros i; simpl; [done|]. by rewrite IH. Qed.

Lemma number_from_contents chunks : ∀ i,
  map content (number_from i chunks) = map content chunks.
Proof. induction chunks as [|chunk rest IH]; intros i; simpl; [done|]. by rewrite IH. Qed.

Lemma str_of_string_inj a b : str_of_string a = str_of_string b → a = b.
Proof.
  unfold str_of_string. intros Heq.
  rewrite <- (string_of_list_ascii_of_string a), <- (string_of_list_ascii_of_string b).
  f_equal. revert Heq.
  generalize (list_ascii_of_string a) (list_ascii_of_string b).
  induction l as [|x l IH]; intros [|y l'] Heq; simpl in Heq; try done.
  injection Heq as Hxy Hl. f_equal; [|by apply IH].
  by rewrite <- (ascii_N_embedding x), <- (ascii_N_embedding y), Hxy.
Qed.

Lemma str_nat_inj a b : str_nat a = str_nat b → a = b.
Proof.
  unfold str_nat. intros Heq. apply str_of_string_inj in Heq.
  apply DecimalNat.Unsigned.to_uint_inj.
  pose proof (NilEmpty.usu (Nat.to_uint a)) as Ha.
  pose proof (NilEmpty.usu (Nat.to_uint b)) as Hb.
  rewrite Heq in Ha. rewrite Ha in Hb. by injection Hb.
Qed.

Lemma chunk_name_inj : Inj (=) (=) chunk_name.
Proof.
  intros a b Heq. unfold chunk_name in Heq.
  apply app_inv_head in Heq. by apply str_nat_inj.
Qed.

Lemma seq_strongly_sorted n : ∀ i, StronglySorted lt (seq i n).
Proof.
  induction n as [|n IH]; intros i; simpl; constructor; [apply IH|].
  apply Forall_forall. intros j Hj. apply elem_of_seq in Hj. lia.
Qed.

(** C2. In one run of [create_chunks] the chunks are those of the pages in
    page order, within a page those of its sections in section order,
    within a section its sub-chunks in their order, and they are numbered
    through by one counter that starts at zero: the identifier of the
    chunk at position [i] is [chunk_i]. So the numeric suffixes increase
    strictly along the list and no identifier occurs twice. *)
Theorem chunk_ids_sequential (tolower_full : N → list N)
    (lower_sigma : pystr → pystr → N) (encode : pystr → list N) (c : Content) :
  let chunks := create_chunks tolower_full lower_sigma encode c in
  chunks = number_from 0 (emitted tolower_full lower_sigma encode c)
  ∧ (∃ suffixes,
       map chunk_id chunks = map (fun i => py "chunk_" ++ str_nat i) suffixes
       ∧ suffixes = seq 0 (length chunks)
       ∧ StronglySorted lt suffixes)
  ∧ NoDup (map chunk_id chunks).
Proof.
  intros chunks. subst chunks. rewrite create_chunks_emitted.
  split; [done|]. split.
  - eexists. split; [apply number_from_ids|].
    split; [by rewrite number_from_length | apply seq_strongly_sorted].
  - rewrite number_from_ids. apply (@NoDup_fmap_2 _ _ chunk_name chunk_name_inj), NoDup_seq.
Qed.

(** *** Token budget *)

Lemma number_from_elem chunk chunks : ∀ i,
  chunk ∈ number_from i chunks → ∃ ch, ch ∈ chunks ∧ content chunk = content ch.
Proof.
  induction chunks as [|ch rest IH]; intros i Hin; simpl in Hin.
  - by apply elem_of_nil in Hin.
  - apply elem_of_cons in Hin as [-> | Hin].
    + exists ch. split; [left | done].
    + destruct (IH _ Hin) as (ch' & Hch' & Heq). exists ch'. split; [by right | done].
Qed.

Lemma enumerate_elem {A} (l : list A) : ∀ start entry,
  entry ∈ enumerate start l → snd entry ∈ l.
Proof.
  induction l as [|x rest IH]; intros start entry Hin; simpl in Hin.
  - by apply elem_of_nil in Hin.
  - apply elem_of_cons in Hin as [-> | Hin]; [left | right; eauto].
Qed.

Lemma elem_of_flat_map {A B} (f : A → list B) (l : list A) (y : B) :
  y ∈ flat_map f l ↔ ∃ x, x ∈ l ∧ y ∈ f x.
Proof.
  rewrite list_elem_of_In, in_flat_map. split.
  - intros (x & Hx & Hy). exists x. by rewrite !list_elem_of_In.
  - intros (x & Hx & Hy). exists x. by rewrite <- !list_elem_of_In.
Qed.

(** Where a chunk comes from: a section of the document that fits the
    budget, or a group of sentence units of a section that does not. *)
Lemma emitted_origin tolower_full lower_sigma encode c ch :
  ch ∈ emitted tolower_full lower_sigma encode c →
  ∃ section, section ∈ document_sections c
    ∧ ((content ch = section
        ∧ (token_count encode section ≤ MAX_TOKENS_PER_CHUNK)%nat)
       ∨ (¬ (token_count encode section ≤ MAX_TOKENS_PER_CHUNK)%nat
          ∧ ∃ groups group,
              concat groups = Re.split_sentences section
              ∧ group ∈ groups
              ∧ closable encode group
              ∧ content ch = strip (glue group))).
Proof.
  unfold ChunkerSpec.emitted. intros Hin.
  apply elem_of_flat_map in Hin as (entry & Hentry & Hin).
  apply enumerate_elem in Hentry.
  unfold ChunkerSpec.emitted_page in Hin.
  apply elem_of_flat_map in Hin as (section & Hsection & Hin).
  exists section. split.
  { unfold document_sections. apply elem_of_flat_map. eauto. }
  unfold ChunkerSpec.emitted_section in Hin.
  destruct (bool_decide _) eqn:Hfit.
  - apply bool_decide_eq_true in Hfit. left.
    apply list_elem_of_singleton in Hin as ->. done.
  - apply bool_decide_eq_false in Hfit. right. split; [done|].
    apply list_elem_of_fmap in Hin as (sub & -> & Hsub).
    destruct (split_long_section_groups tolower_full lower_sigma encode section
                (Z.of_nat (fst entry) + 1)
                (images_of_page c (Z.of_nat (fst entry) + 1)))
      as (groups & Hcat & _ & Hclos & Heq).
    rewrite Heq in Hsub. apply list_elem_of_fmap in Hsub as (group & -> & Hgroup).
    exists groups, group. repeat split; try done.
    rewrite Forall_forall in Hclos. by apply Hclos.
Qed.

(** What the code keeps of the token budget: every chunk of
    [create_chunks] is a whole section within the budget, or the trimmed
    text of a buffer within the budget, or the trimmed text of one
    sentence unit with its full stop. The budget is checked on the buffer
    before it is trimmed; under a tokenizer for which trimming never adds
    tokens, the chunk itself is within the budget unless it is a single
    sentence unit. *)
Theorem chunk_token_budget (tolower_full : N → list N)
    (lower_sigma : pystr → pystr → N) (encode : pystr → list N)
    (c : Content) (chunk : DocumentChunk) :
  chunk ∈ create_chunks tolower_full lower_sigma encode c →
  ((∃ text, (content chunk = text ∨ content chunk = strip text)
            ∧ (token_count encode text ≤ MAX_TOKENS_PER_CHUNK)%nat)
   ∨ single_unit c (content chunk))
  ∧ ((∀ text, (token_count encode (strip text) ≤ token_count encode text)%nat) →
     within_budget encode c chunk).
Proof.
  intros Hin. rewrite create_chunks_emitted in Hin.
  apply number_from_elem in Hin as (ch & Hch & Hcontent).
  unfold within_budget. rewrite Hcontent. clear Hcontent chunk.
  apply emitted_origin in Hch
    as (section & Hsection
        & [[-> Hfit] | (_ & groups & group & Hcat & Hgroup & Hclos & ->)]).
  - split; [left; eauto | intros _; by left].
  - assert (Hunit : ∀ sentence, group = [sentence] →
                    single_unit c (strip (glue group))).
    { intros sentence ->. exists sentence. rewrite glue_singleton. split; [|done].
      unfold sentence_units. apply elem_of_flat_map. exists section.
      split; [done|]. rewrite <- Hcat. apply list_elem_of_In, in_concat.
      exists [sentence]. split; [by apply list_elem_of_In | by left]. }
    destruct Hclos as [Hfit | [sentence Hone]].
    + split; [left; eauto|]. intros Hstrip. left.
      specialize (Hstrip (glue group)). lia.
    + split; [right; eauto | intros _; right; eauto].
Qed.

(** C10. The sub-chunks of a section are rebuilt from its sentence units:
    the units, cut at [.], [!] or [?] followed by whitespace, fall into
    consecutive groups, and the content of a sub-chunk is the trimmed
    concatenation of the units of its group, every unit followed by a
    full stop and a space. The terminators and the whitespace of the
    section are not kept, and a sub-chunk need not occur in its section:
    of the section [Hi!  Go? XXX...] the first sub-chunk is [Hi. Go.]. *)
Theorem sub_chunks_rebuilt :
  (∀ tolower_full lower_sigma encode section page_number page_images,
     ∃ groups,
       concat groups = Re.split_sentences section
       ∧ Forall (fun group => group ≠ []) groups
       ∧ map content
           (_split_long_section tolower_full lower_sigma encode section
                                page_number page_images)
         = map (fun group =>
                  strip (concat (map (fun sentence => sentence ++ py ". ") group)))
               groups)
  ∧ (∃ chunk,
       (MAX_TOKENS_PER_CHUNK
        < token_count Examples.char_tokens Samples.exclaiming_section)%nat
       ∧ _split_long_section Examples.ascii_tolower Examples.sigma_small
           Examples.char_tokens Samples.exclaiming_section 1 [] !! 0%nat
         = Some chunk
       ∧ content chunk = py "Hi. Go."
       ∧ contains (content chunk) Samples.exclaiming_section = false).
Proof.
  split.
  - intros tolower_full lower_sigma encode section page_number page_images.
    destruct (split_long_section_groups tolower_full lower_sigma encode section
                page_number page_images) as (groups & Hcat & Hne & _ & Heq).
    exists groups. repeat split; [done|done|].
    rewrite Heq, map_map. done.
  - eexists. split; [vm_compute; lia|]. split; [by vm_compute|].
    split; by vm_compute.
Qed.

End ChunkerFacts.

(** ** The budget is tested before the buffer is trimmed *)

Module BudgetFacts.
Import Chunker ChunkerSpec ChunkerFacts SentenceSpec.







Section WithRuntime.

Variable tolower_full : N -> list N.
Variable lower_sigma : pystr -> pystr -> N.
Variable tokenize : pystr -> outcome (list N).

Abbreviation token_count := (Tokenized.token_count tokenize).
Abbreviation long_step := (Tokenized.long_step tolower_full lower_sigma tokenize).
Abbreviation create_chunks :=
  (Tokenized.create_chunks tolower_full lower_sigma tokenize).





End WithRuntime.

End BudgetFacts.

(** ** Closed instances *)

Lemma lstrip_length s : (length (lstrip s) ≤ length s)%nat.
Proof.
  induction s as [|c s IH]; simpl; [done|].
  destruct (Py_UNICODE_ISSPACE c); simpl; lia.
Qed.

Lemma strip_length s : (length (strip s) ≤ length s)%nat.
Proof.
  unfold strip, rstrip. rewrite length_rev.
  etransitivity; [apply lstrip_length|]. rewrite length_rev. apply lstrip_length.
Qed.

Lemma ascii_tolower_hangul c :
  is_hangul c = true → Examples.ascii_tolower c = [c].
Proof.
  unfold is_hangul, Examples.ascii_tolower. intros Hc.
  apply andb_true_iff in Hc as [Hlow _]. apply N.leb_le in Hlow.
  destruct (c <=? 0x5A) eqn:Hz; [apply N.leb_le in Hz; lia|].
  by rewrite andb_false_r.
Qed.

(** A text with the warning keyword and an instruction keyword. *)
Lemma identify_section_type_priority_witness :
  Chunker.identify_section_type Examples.ascii_tolower Examples.sigma_small
    (py "주의: 사용법") = py "warning".
Proof.
  pose proof (SectionTypeFacts.identify_section_type_priority
                Examples.ascii_tolower Examples.sigma_small ascii_tolower_hangul
                (py "주의: 사용법")) as Hspec.
  cbv zeta in Hspec. destruct Hspec as (_ & _ & _ & _ & _ & _ & Hboth).
  apply (Hboth (py "주의") (py "사용법")).
  - vm_compute. left.
  - vm_compute. left.
  - by vm_compute.
  - by vm_compute.
Defined.

(** The page of the scenario under a tokenizer that counts characters:
    one chunk, within the budget. *)
Lemma chunk_token_budget_witness :
  ∃ chunk,
    Chunker.create_chunks Examples.ascii_tolower Examples.sigma_small
      Examples.char_tokens Samples.warning_document !! 0%nat = Some chunk
    ∧ Chunker.section_type chunk = Some (py "warning")
    ∧ ChunkerSpec.within_budget Examples.char_tokens Samples.warning_document chunk.
Proof.
  eexists. split; [by vm_compute|]. split; [by vm_compute|].
  refine (proj2 (ChunkerFacts.chunk_token_budget Examples.ascii_tolower
                   Examples.sigma_small Examples.char_tokens
                   Samples.warning_document _ _) _).
  - apply list_elem_of_lookup. exists 0%nat. by vm_compute.
  - intros text. apply strip_length.
Defined.

(** A section whose second buffer has exactly 512 tokens under a
    tokenizer that merges a leading space into the word after it: the
    buffer passes the test, the chunk is the trimmed buffer, and trimming
    splits the merged token, so that the chunk, which holds two sentence
    units, has 513 tokens. *)
Lemma trimmed_chunk_over_budget :
  ∃ chunk,
    Chunker.create_chunks Examples.ascii_tolower Examples.sigma_small
      Samples.merged_tokens Samples.overflow_document !! 0%nat = Some chunk
    ∧ ChunkerSpec.sentence_units Samples.overflow_document
      = [Samples.long_first_unit; py "y"; py "z"]
    ∧ Chunker.content chunk
      = strip (ChunkerSpec.glue [Samples.long_first_unit; py "y"])
    ∧ Chunker.token_count Samples.merged_tokens
        (ChunkerSpec.glue [Samples.long_first_unit; py "y"]) = 512%nat
    ∧ Chunker.token_count Samples.merged_tokens (Chunker.content chunk) = 513%nat
    ∧ ¬ ChunkerSpec.within_budget Samples.merged_tokens
          Samples.overflow_document chunk.
Proof.
  eexists. split; [by vm_compute|].
  assert (Hunits : ChunkerSpec.sentence_units Samples.overflow_document
                   = [Samples.long_first_unit; py "y"; py "z"]) by (by vm_compute).
  split; [done|]. split; [by vm_compute|]. split; [by vm_compute|].
  split; [by vm_compute|].
  intros [Hle | (sentence & Hin & Heq)].
  - vm_compute in Hle. lia.
  - rewrite Hunits in Hin. apply (f_equal length) in Heq.
    repeat (apply elem_of_cons in Hin as [-> | Hin]);
      [vm_compute in Heq; discriminate ..|].
    by apply elem_of_nil in Hin.
Qed.


(** The embedding model is down: [query] answers that nothing was found,
    in a dict without an error field. The chat model is down: the answer
    carries the error detail, the sources are listed and there is no
    error field either. *)
Lemma query_stage_failures_have_no_error_field :
  let question := py "질문" in
  let nothing_found := RAGSystem.no_results_response question 0 in
  let source : gmap string pyval :=
    <["content"%string := VStr (replicate 10 0x61)]>
    (<["page_number"%string := VInt 1]>
     (<["score"%string := VFloat float_zero]>
      (<["section_type"%string := VStr (py "general")]>
       {["has_images"%string := VBool false]}))) in
  let answered :=
    RAGSystem.full_response question
      (py "답변 생성 중 오류가 발생했습니다: connection refused")
      [source] 0 (py "hybrid") 1 in
  bedrock_embedding Worlds.unreachable EmbeddingService.EMBEDDING_MODEL_ID
    (EmbeddingService._preprocess_text question) ()
  = (Raise Worlds.ConnectionError, ())
  ∧ fst (RAGSystem.query unit Worlds.unreachable Worlds.index_name
           ContextSpec.no_float_str question 5 (py "hybrid") Worlds.start)
    = Return nothing_found
  ∧ nothing_found !! "answer"%string
    = Some (RAGSystem.RStr RAGSystem.NO_RESULTS_ANSWER)
  ∧ nothing_found !! "error"%string = None
  ∧ nothing_found !! "search_time"%string = Some (RAGSystem.RSeconds 0)
  ∧ bedrock_llm (Worlds.serving [ContextSpec.sample_result 10 1] false)
      RAGSystem.LLM_MODEL_ID
      (RAGSystem.prompt_of
         (RAGSystem.part_of ContextSpec.no_float_str (ContextSpec.sample_result 10 1))
         question) ()
    = (Raise Worlds.ConnectionError, ())
  ∧ fst (RAGSystem.query unit
           (Worlds.serving [ContextSpec.sample_result 10 1] false) Worlds.index_name
           ContextSpec.no_float_str question 5 (py "hybrid") Worlds.start)
    = Return answered
  ∧ answered !! "error"%string = None
  ∧ answered !! "sources"%string = Some (RAGSystem.RSources [source])
  ∧ answered !! "search_time"%string = Some (RAGSystem.RSeconds 0).
Proof.
  intros question nothing_found source answered.
  split; [reflexivity|]. split; [vm_compute; reflexivity|].
  split; [reflexivity|]. split; [reflexivity|]. split; [reflexivity|].
  split; [reflexivity|]. split; [vm_compute; reflexivity|].
  split; [reflexivity|]. split; reflexivity.
Qed.

(** * Further properties *)

(** ** More on the chunker *)

Module ChunkerMore.
Import Chunker ChunkerSpec ChunkerFacts GreedySpec.

Section WithRuntime.

Variable tolower_full : N -> list N.
Variable lower_sigma : pystr -> pystr -> N.
Variable encode : pystr -> list N.

Abbreviation token_count := (Chunker.token_count encode).
Abbreviation identify_section_type :=
  (Chunker.identify_section_type tolower_full lower_sigma).
Abbreviation sub_chunk := (Chunker.sub_chunk tolower_full lower_sigma).
Abbreviation _split_long_section :=
  (Chunker._split_long_section tolower_full lower_sigma encode).
Abbreviation create_chunks := (Chunker.create_chunks tolower_full lower_sigma encode).
Abbreviation emitted := (ChunkerSpec.emitted tolower_full lower_sigma encode).
Abbreviation emitted_page := (ChunkerSpec.emitted_page tolower_full lower_sigma encode).
Abbreviation emitted_section :=
  (ChunkerSpec.emitted_section tolower_full lower_sigma encode).
Abbreviation chunk_shape := (ChunkShape.chunk_shape tolower_full lower_sigma encode).

(** *** The shape of a chunk *)

Lemma emitted_section_shape c page_number page_images section ch :
  ch ∈ emitted_section c page_number page_images section →
  chunk_shape c page_number page_images section ch.
Proof.
  unfold ChunkerSpec.emitted_section, chunk_shape. intros Hin.
  destruct (bool_decide _) eqn:Hfit.
  - apply bool_decide_eq_true in Hfit.
    apply list_elem_of_singleton in Hin as ->. simpl. repeat split; try done.
    by left.
  - apply bool_decide_eq_false in Hfit.
    apply list_elem_of_fmap in Hin as (sub & -> & Hsub).
    destruct (split_long_section_groups tolower_full lower_sigma encode section
                page_number page_images) as (groups & _ & Hne & _ & Heq).
    rewrite Heq in Hsub. apply list_elem_of_fmap in Hsub as (group & -> & Hgroup).
    simpl. repeat split; try done. right. split; [done|]. exists group.
    rewrite Forall_forall in Hne. split; [by apply Hne | done].
Qed.

Lemma enumerate_lookup {A} (l : list A) : ∀ start i x,
  (i, x) ∈ enumerate start l → (start ≤ i)%nat ∧ l !! (i - start)%nat = Some x.
Proof.
  induction l as [|y rest IH]; intros start i x Hin; simpl in Hin.
  - by apply elem_of_nil in Hin.
  - apply elem_of_cons in Hin as [[= -> ->] | Hin].
    + rewrite Nat.sub_diag. by split.
    + apply IH in Hin as [Hle Hlook]. split; [lia|].
      replace (i - start)%nat with (S (i - S start)) by lia. done.
Qed.

(** Every chunk comes from a section of a page of the document. *)
Lemma emitted_shape c ch :
  ch ∈ emitted c →
  ∃ i page section,
    page_contents_of (markdown_content c) !! i = Some page
    ∧ section ∈ page_sections page
    ∧ chunk_shape c (Z.of_nat i + 1) (images_of_page c (Z.of_nat i + 1)) section ch.
Proof.
  unfold ChunkerSpec.emitted. intros Hin.
  apply elem_of_flat_map in Hin as ([i page] & Hentry & Hin).
  apply enumerate_lookup in Hentry as [_ Hlook]. rewrite Nat.sub_0_r in Hlook.
  unfold ChunkerSpec.emitted_page in Hin. simpl in Hin.
  apply elem_of_flat_map in Hin as (section & Hsection & Hin).
  exists i, page, section. split; [done|]. split; [done|].
  by apply emitted_section_shape.
Qed.

Lemma number_from_elem_id chunk chunks : ∀ i,
  chunk ∈ number_from i chunks → ∃ ch j, ch ∈ chunks ∧ chunk = with_id ch j.
Proof.
  induction chunks as [|ch rest IH]; intros i Hin; simpl in Hin.
  - by apply elem_of_nil in Hin.
  - apply elem_of_cons in Hin as [-> | Hin].
    + exists ch, i. split; [left | done].
    + destruct (IH _ Hin) as (ch' & j & Hch' & Heq). exists ch', j.
      split; [by right | done].
Qed.

Lemma created_shape c chunk :
  chunk ∈ create_chunks c →
  ∃ i page section,
    page_contents_of (markdown_content c) !! i = Some page
    ∧ section ∈ page_sections page
    ∧ chunk_shape c (Z.of_nat i + 1) (images_of_page c (Z.of_nat i + 1))
        section chunk.
Proof.
  rewrite create_chunks_emitted. intros Hin.
  apply number_from_elem_id in Hin as (ch & j & Hch & ->).
  apply emitted_shape in Hch as (i & page & section & Hpage & Hsection & Hshape).
  exists i, page, section. split; [done|]. split; [done|].
  unfold chunk_shape in *. simpl. done.
Qed.

Lemma page_sections_nonblank page section :
  section ∈ page_sections page → strip section ≠ [].
Proof.
  unfold page_sections. destruct (negb _); [by intros ?%elem_of_nil|].
  rewrite SplitterFacts.split_by_sections_groups.
  unfold SplitterSpec.sections_by_headings.
  rewrite list_elem_of_In, filter_In. intros [_ Hnb]. by apply truthy_true.
Qed.

Lemma glue_has_stop group : group ≠ [] → 0x2E ∈ glue group.
Proof.
  destruct group as [|sentence rest]; [done|]. intros _. unfold glue. simpl.
  rewrite dot_space, !elem_of_app. left. right. left.
Qed.

(** X1. No chunk is blank: the content of every chunk of [create_chunks]
    holds a character that is no whitespace, so it is non-empty, also
    after trimming. *)
Theorem chunk_contents_nonblank (c : Content) :
  Forall (fun chunk => strip (content chunk) ≠ [] ∧ content chunk ≠ [])
         (create_chunks c).
Proof.
  apply Forall_forall. intros chunk Hin.
  apply created_shape in Hin
    as (i & page & section & _ & Hsection & _ & _ & _ & _ & Hcontent).
  assert (Hnb : strip (content chunk) ≠ []).
  { destruct Hcontent as [(-> & _ & _) | (_ & group & Hne & -> & _)].
    - by eapply page_sections_nonblank.
    - apply strip_nonblank. exists 0x2E. split; [|done].
      apply strip_keeps; [by apply glue_has_stop | done]. }
  split; [done|]. intros Hnil. rewrite Hnil in Hnb. done.
Qed.

(** *** Pages *)

Lemma page_sections_page_nonblank page section :
  section ∈ page_sections page → strip (text_content_of page) ≠ [].
Proof.
  unfold page_sections.
  destruct (truthy (strip (text_content_of page))) eqn:Hpage; simpl.
  - intros _. by apply truthy_true.
  - by intros ?%elem_of_nil.
Qed.

Lemma strongly_sorted_app {A} (R : A → A → Prop) l1 l2 :
  StronglySorted R l1 → StronglySorted R l2 →
  (∀ x y, x ∈ l1 → y ∈ l2 → R x y) →
  StronglySorted R (l1 ++ l2).
Proof.
  induction 1 as [|x l1 Hl1 IH Hx]; intros Hl2 Hcross; simpl; [done|].
  constructor.
  - apply IH; [done|]. intros a b Ha Hb. apply Hcross; [by right | done].
  - apply Forall_app. split; [done|]. apply Forall_forall. intros y Hy.
    apply Hcross; [left | done].
Qed.

Lemma strongly_sorted_constant (z : Z) l :
  Forall (fun x => x = z) l → StronglySorted Z.le l.
Proof.
  induction 1 as [|x l -> Hl IH]; constructor; [done|].
  eapply Forall_impl; [exact Hl|]. simpl. intros ? ->. lia.
Qed.

Lemma emitted_page_numbers c i page :
  Forall (fun pn => pn = (Z.of_nat i + 1)%Z)
         (map page_number (emitted_page c (i, page))).
Proof.
  apply Forall_forall. intros pn Hpn.
  apply list_elem_of_fmap in Hpn as (ch & -> & Hch).
  unfold ChunkerSpec.emitted_page in Hch. simpl in Hch.
  apply elem_of_flat_map in Hch as (section & _ & Hch).
  by apply emitted_section_shape in Hch as (Hpn & _).
Qed.

Lemma emitted_pages_sorted c pages : ∀ start,
  StronglySorted Z.le
    (map page_number (flat_map (emitted_page c) (enumerate start pages)))
  ∧ Forall (fun pn => (Z.of_nat start + 1 ≤ pn)%Z)
      (map page_number (flat_map (emitted_page c) (enumerate start pages))).
Proof.
  induction pages as [|page rest IH]; intros start; simpl.
  - split; constructor.
  - destruct (IH (S start)) as [Hsorted Hlow].
    pose proof (emitted_page_numbers c start page) as Hhere.
    rewrite map_app. split.
    + apply strongly_sorted_app; [by eapply strongly_sorted_constant | done |].
      intros x y Hx Hy. rewrite Forall_forall in Hhere, Hlow.
      specialize (Hhere x Hx). specialize (Hlow y Hy). lia.
    + apply Forall_app. split.
      * eapply Forall_impl; [exact Hhere|]. simpl. intros ? ->. lia.
      * eapply Forall_impl; [exact Hlow|]. simpl. intros. lia.
Qed.

Lemma number_from_page_numbers chunks : ∀ i,
  map page_number (number_from i chunks) = map page_number chunks.
Proof. induction chunks as [|chunk rest IH]; intros i; simpl; [done|]. by rewrite IH. Qed.

(** X2. The page number of a chunk is the position, counted from one, of
    a page of the document whose text is not blank, and along the chunk
    list the page numbers never decrease. *)
Theorem chunk_page_numbers (c : Content) :
  Forall (fun chunk =>
            ∃ i page,
              page_contents_of (markdown_content c) !! i = Some page
              ∧ page_number chunk = (Z.of_nat i + 1)%Z
              ∧ strip (text_content_of page) ≠ [])
         (create_chunks c)
  ∧ StronglySorted Z.le (map page_number (create_chunks c)).
Proof.
  split.
  - apply Forall_forall. intros chunk Hin.
    apply created_shape in Hin as (i & page & section & Hpage & Hsection & Hpn & _).
    exists i, page. split; [done|]. split; [done|].
    by eapply page_sections_page_nonblank.
  - rewrite create_chunks_emitted, number_from_page_numbers.
    apply emitted_pages_sorted.
Qed.

(** *** Metadata and images *)

(** X3. Every chunk, a sub-chunk of a long section too, carries the same
    metadata: that of the document, in which [source_file] and
    [processing_timestamp] are set to the values of the content dict, the
    empty string when it has none. *)
Theorem chunk_metadata_provenance (c : Content) :
  Forall (fun chunk => chunk_metadata chunk = chunk_metadata_of c) (create_chunks c)
  ∧ chunk_metadata_of c !! "source_file"%string
    = Some (default (MStr []) (source_file c))
  ∧ chunk_metadata_of c !! "processing_timestamp"%string
    = Some (default (MStr []) (timestamp c))
  ∧ (∀ key, key ≠ "source_file"%string → key ≠ "processing_timestamp"%string →
            chunk_metadata_of c !! key = metadata c !! key).
Proof.
  split; [|split; [|split]].
  - apply Forall_forall. intros chunk Hin.
    by apply created_shape in Hin as (i & page & section & _ & _ & _ & Hmeta & _).
  - unfold chunk_metadata_of. by rewrite lookup_insert_ne, lookup_insert_eq.
  - unfold chunk_metadata_of. by rewrite lookup_insert_eq.
  - intros key Hs Ht. unfold chunk_metadata_of.
    by rewrite !lookup_insert_ne.
Qed.

Lemma images_of_page_elem c pn img :
  img ∈ images_of_page c pn ↔ img ∈ images_info c ∧ img_page_number img = pn.
Proof.
  unfold images_of_page. rewrite list_elem_of_In, filter_In, <- list_elem_of_In.
  by rewrite Z.eqb_eq.
Qed.

(** X4. A chunk has images exactly when an image of the inventory lies on
    its page, and exactly then it has a description, a single one, which
    names the page and the number of images on it. *)
Theorem chunk_images_of_page (c : Content) :
  Forall (fun chunk =>
            let on_page := images_of_page c (page_number chunk) in
            (has_images chunk = true ↔
               ∃ img, img ∈ images_info c
                      ∧ img_page_number img = page_number chunk)
            ∧ (has_images chunk = false → image_descriptions chunk = [])
            ∧ (has_images chunk = true →
               image_descriptions chunk
               = [py "페이지 " ++ str_Z (page_number chunk) ++ py "에 "
                  ++ str_nat (length on_page) ++ py "개의 이미지 포함"]))
         (create_chunks c).
Proof.
  apply Forall_forall. intros chunk Hin.
  apply created_shape in Hin
    as (i & page & section & _ & _ & Hpn & _ & Himg & Hdesc & _).
  rewrite Hpn, Himg, Hdesc. cbv zeta.
  destruct (images_of_page c (Z.of_nat i + 1)) as [|img imgs] eqn:Himgs; simpl.
  - split; [|by split]. split; [done|]. intros (img & Hinv & Hpage).
    assert (img ∈ images_of_page c (Z.of_nat i + 1)) as Hon
      by (by apply images_of_page_elem).
    rewrite Himgs in Hon. by apply elem_of_nil in Hon.
  - split; [|by split]. split; [|done]. intros _. exists img.
    apply images_of_page_elem. rewrite Himgs. left.
Qed.

(** *** Sections are kept *)

Lemma emitted_section_nonempty c page_number page_images section :
  (1 ≤ length (emitted_section c page_number page_images section))%nat.
Proof.
  unfold ChunkerSpec.emitted_section. destruct (bool_decide _); [done|].
  rewrite length_map.
  destruct (split_long_section_groups tolower_full lower_sigma encode section
              page_number page_images) as (groups & Hcat & _ & _ & ->).
  rewrite length_map. destruct groups as [|g groups]; [|simpl; lia].
  simpl in Hcat. symmetry in Hcat.
  by apply split_sentences_from_nonempty in Hcat.
Qed.

Lemma flat_map_length_ge {A B} (f : A → list B) (l : list A) :
  (∀ x, 1 ≤ length (f x))%nat → (length l ≤ length (flat_map f l))%nat.
Proof.
  intros Hf. induction l as [|x l IH]; simpl; [done|].
  rewrite length_app. specialize (Hf x). lia.
Qed.

Lemma emitted_length c pages : ∀ start,
  (length (flat_map page_sections pages)
   ≤ length (flat_map (emitted_page c) (enumerate start pages)))%nat.
Proof.
  induction pages as [|page rest IH]; intros start; simpl; [done|].
  rewrite !length_app. specialize (IH (S start)).
  unfold ChunkerSpec.emitted_page at 1. simpl.
  pose proof (flat_map_length_ge
                (emitted_section c (Z.of_nat start + 1)
                   (images_of_page c (Z.of_nat start + 1)))
                (page_sections page)
                (emitted_section_nonempty c _ _)) as Hpage.
  lia.
Qed.

Lemma emitted_fitting_sections c pn imgs sections :
  Forall (fun section => (token_count section ≤ MAX_TOKENS_PER_CHUNK)%nat) sections →
  map content (flat_map (emitted_section c pn imgs) sections) = sections.
Proof.
  induction 1 as [|section rest Hfit _ IH]; simpl; [done|].
  rewrite map_app, IH. unfold ChunkerSpec.emitted_section.
  by rewrite bool_decide_eq_true_2.
Qed.

Lemma emitted_fitting_pages c pages : ∀ start,
  Forall (fun section => (token_count section ≤ MAX_TOKENS_PER_CHUNK)%nat)
         (flat_map page_sections pages) →
  map content (flat_map (emitted_page c) (enumerate start pages))
  = flat_map page_sections pages.
Proof.
  induction pages as [|page rest IH]; intros start Hfit; simpl; [done|].
  simpl in Hfit. apply Forall_app in Hfit as [Hpage Hrest].
  rewrite map_app, (IH _ Hrest). f_equal.
  unfold ChunkerSpec.emitted_page. simpl. by apply emitted_fitting_sections.
Qed.

(** No section is dropped, and sections within the budget are kept as
    they are. *)
Lemma created_length c :
  (length (document_sections c) ≤ length (create_chunks c))%nat.
Proof.
  rewrite create_chunks_emitted, number_from_length. apply emitted_length.
Qed.

Lemma created_fitting c :
  Forall (fun section => (token_count section ≤ MAX_TOKENS_PER_CHUNK)%nat)
         (document_sections c) →
  map content (create_chunks c) = document_sections c.
Proof.
  rewrite create_chunks_emitted, number_from_contents.
  apply emitted_fitting_pages.
Qed.

(** *** The sub-chunker is greedy *)

Lemma greedy_extend_last groups group sentence :
  group ≠ [] → greedy encode (groups ++ [group]) →
  greedy encode (groups ++ [group ++ [sentence]]).
Proof.
  intros Hne. induction groups as [|g groups IH]; [done|].
  destruct groups as [|g' groups].
  - simpl. intros [Hfirst _]. split; [|done].
    destruct group as [|s rest]; [done|]. done.
  - intros [Hfirst Hrest]. split; [done | by apply IH].
Qed.

Lemma greedy_close groups group sentence :
  (MAX_TOKENS_PER_CHUNK < token_count (glue group ++ sentence ++ py ". "))%nat →
  greedy encode (groups ++ [group]) →
  greedy encode ((groups ++ [group]) ++ [[sentence]]).
Proof.
  intros Hover. induction groups as [|g groups IH]; [by split|].
  destruct groups as [|g' groups].
  - intros [Hfirst _]. split; [done | by split].
  - intros [Hfirst Hrest]. split; [done | by apply IH].
Qed.

Lemma long_loop_greedy page_number page_images sentences :
  (sentences = []
   ∧ foldl (Chunker.long_step tolower_full lower_sigma encode page_number page_images)
           ([], []) sentences = ([], []))
  ∨ ∃ groups group,
      sentences = concat groups ++ group
      ∧ group ≠ []
      ∧ greedy encode (groups ++ [group])
      ∧ foldl (Chunker.long_step tolower_full lower_sigma encode page_number page_images)
              ([], []) sentences
        = (map (fun g => sub_chunk (glue g) page_number page_images) groups,
           glue group).
Proof.
  induction sentences as [|sentence processed IH] using rev_ind.
  - by left.
  - rewrite foldl_app. simpl. right.
    destruct IH as [[-> ->] | (groups & group & -> & Hne & Hgreedy & ->)].
    + simpl. exists [], [sentence]. rewrite glue_singleton.
      by destruct (bool_decide _).
    + unfold Chunker.long_step.
      destruct (bool_decide _) eqn:Hfit.
      * exists groups, (group ++ [sentence]). rewrite glue_snoc.
        repeat split; try done.
        -- by rewrite app_assoc.
        -- by destruct group.
        -- by apply greedy_extend_last.
      * apply bool_decide_eq_false in Hfit.
        rewrite (glue_truthy group Hne).
        exists (groups ++ [group]), [sentence]. rewrite glue_singleton.
        repeat split; try done.
        -- rewrite concat_app. simpl. by rewrite app_nil_r.
        -- apply greedy_close; [lia | done].
        -- by rewrite map_app.
Qed.

(** X6. The sub-chunker is greedy: the sentence units of a section fall
    into consecutive groups, one per sub-chunk, and a group is closed only
    when the first unit of the next group, with its full stop, would have
    taken the buffer over the token budget. *)
Theorem split_long_section_greedy (section : pystr) (page_number : Z)
    (page_images : list ImageInfo) :
  ∃ groups,
    concat groups = Re.split_sentences section
    ∧ map content (_split_long_section section page_number page_images)
      = map (fun group => strip (glue group)) groups
    ∧ greedy encode groups.
Proof.
  unfold Chunker._split_long_section.
  destruct (long_loop_greedy page_number page_images (Re.split_sentences section))
    as [[Hnil _] | (groups & group & Hcat & Hne & Hgreedy & ->)].
  - by apply split_sentences_from_nonempty in Hnil.
  - rewrite (glue_truthy group Hne). exists (groups ++ [group]).
    split; [|split; [|done]].
    + rewrite concat_app. simpl. by rewrite app_nil_r.
    + by rewrite !map_app, map_map.
Qed.

(** *** Full stops *)

(** X7. Every chunk is a section of the document, unchanged, or, when
    it is cut from a section over the token budget, a text that ends with
    a full stop, whatever the section ended with. *)
Theorem chunks_are_sections_or_end_with_stop (c : Content) :
  Forall (fun chunk =>
            (content chunk ∈ document_sections c
             ∧ (token_count (content chunk) ≤ MAX_TOKENS_PER_CHUNK)%nat)
            ∨ ∃ body, content chunk = body ++ py ".")
         (create_chunks c).
Proof.
  apply Forall_forall. intros chunk Hin.
  apply created_shape in Hin
    as (i & page & section & Hpage & Hsection & _ & _ & _ & _ & Hcontent).
  destruct Hcontent as [(-> & _ & Hfit) | (_ & group & Hne & -> & _)].
  - left. split; [|done]. unfold document_sections.
    apply elem_of_flat_map. exists page. split; [|done].
    by eapply list_elem_of_lookup_2.
  - right. destruct (exists_last Hne) as (units & sentence & ->).
    rewrite glue_snoc, dot_space, app_assoc, strip_stop_space.
    by eexists.
Qed.

End WithRuntime.

End ChunkerMore.

(** ** More on the section splitter *)

Module SplitterMore.
Import Splitter SplitterSpec SplitterFacts.

Lemma split_from_nonempty sep s : ∀ skip cur, split_from sep skip cur s ≠ [].
Proof.
  induction s as [|c s IH]; intros skip cur; simpl; [done|].
  destruct skip; [|apply IH]. destruct (startswith sep (c :: s)); [done | apply IH].
Qed.

Lemma join_cons sep p rest :
  rest ≠ [] → join sep (p :: rest) = p ++ sep ++ join sep rest.
Proof. by destruct rest. Qed.

(** Joining the lines of a text gives the text back. *)
Lemma join_split_lines s : ∀ cur,
  join NL_str (split_from NL_str 0 cur s) = rev cur ++ s.
Proof.
  induction s as [|c s IH]; intros cur.
  - simpl. by rewrite app_nil_r.
  - cbn [split_from]. destruct (startswith NL_str (c :: s)) eqn:Hnl.
    + unfold NL_str in Hnl. cbn [startswith] in Hnl.
      rewrite andb_true_r in Hnl. apply N.eqb_eq in Hnl. subst c.
      rewrite join_cons by apply split_from_nonempty.
      cbn [length NL_str pred]. by rewrite IH.
    + rewrite IH. simpl. by rewrite <- app_assoc.
Qed.

Lemma join_lines_of content : join NL_str (split NL_str content) = content.
Proof. unfold split. by rewrite join_split_lines. Qed.

Lemma join_app sep l1 l2 :
  l1 ≠ [] → l2 ≠ [] → join sep (l1 ++ l2) = join sep l1 ++ sep ++ join sep l2.
Proof.
  intros H1 H2. induction l1 as [|p l1 IH]; [done|].
  destruct l1 as [|q l1].
  - simpl. by destruct l2.
  - change ((p :: q :: l1) ++ l2) with (p :: ((q :: l1) ++ l2)).
    rewrite join_cons by done. rewrite IH by done.
    rewrite (join_cons sep p (q :: l1)) by done. by rewrite <- !app_assoc.
Qed.

Lemma concat_nonempty {A} (gs : list (list A)) :
  gs ≠ [] → Forall (fun g => g ≠ []) gs → concat gs ≠ [].
Proof.
  destruct gs as [|g gs]; [done|]. intros _ Hne.
  apply Forall_cons in Hne as [Hg _]. simpl. by destruct g.
Qed.

Lemma join_concat sep gs :
  Forall (fun g => g ≠ []) gs →
  join sep (map (join sep) gs) = join sep (concat gs).
Proof.
  induction 1 as [|g gs Hg Hgs IH]; [done|].
  destruct gs as [|g' gs].
  - simpl. by rewrite app_nil_r.
  - change (map (join sep) (g :: g' :: gs))
      with (join sep g :: map (join sep) (g' :: gs)).
    rewrite join_cons by done. rewrite IH.
    change (concat (g :: g' :: gs)) with (g ++ concat (g' :: gs)).
    rewrite join_app; [done | done |]. by apply concat_nonempty.
Qed.

Lemma join_holds sep line c g :
  line ∈ g → c ∈ line → c ∈ join sep g.
Proof.
  intros Hline Hc. induction g as [|p g IH]; [by apply elem_of_nil in Hline|].
  destruct g as [|q g].
  - apply list_elem_of_singleton in Hline as ->. done.
  - rewrite join_cons by done. rewrite !elem_of_app.
    apply elem_of_cons in Hline as [-> | Hline]; [by left | right; right; by apply IH].
Qed.

(** A group of lines that holds a line that is not blank is not blank. *)
Lemma nonblank_group g :
  g ≠ [] → Forall (fun line => strip line ≠ []) g →
  nonblank (join NL_str g) = true.
Proof.
  destruct g as [|line g]; [done|]. intros _ Hlines.
  apply Forall_cons in Hlines as [Hline _].
  apply strip_nonblank in Hline as (c & Hc & Hns).
  apply truthy_true, strip_nonblank. exists c. split; [|done].
  eapply join_holds; [left | done].
Qed.

Lemma heading_group_nonempty g : heading_group g → g ≠ [].
Proof. by destruct g. Qed.

Lemma filter_all {A} (P : A → bool) l :
  Forall (fun x => P x = true) l → List.filter P l = l.
Proof. induction 1 as [|x l Hx _ IH]; simpl; [done|]. by rewrite Hx, IH. Qed.

(** X8. The sections of a text without blank lines, joined by newlines,
    are the text: the splitter cuts such a text and changes nothing. *)
Theorem sections_rejoin (content : pystr) :
  Forall (fun line => strip line ≠ []) (split NL_str content) →
  join NL_str (_split_by_sections content) = content.
Proof.
  intros Hlines. rewrite split_by_sections_groups.
  unfold sections_by_headings.
  destruct (group_lines_shape (split NL_str content))
    as (leading & groups & Hgroups & _ & Hheads).
  pose proof (group_lines_concat (split NL_str content)) as Hcat.
  rewrite Hgroups in *. simpl in Hcat.
  assert (Hgs : Forall (fun g => g ≠ []) groups).
  { eapply Forall_impl; [exact Hheads|]. apply heading_group_nonempty. }
  assert (Hall : ∀ g, g ∈ leading :: groups →
                      Forall (fun line => strip line ≠ []) g).
  { intros g Hg. apply Forall_forall. intros line Hline.
    rewrite Forall_forall in Hlines. apply Hlines. rewrite <- Hcat.
    change (leading ++ concat groups) with (concat (leading :: groups)).
    apply list_elem_of_In, in_concat. exists g.
    by rewrite <- !list_elem_of_In. }
  assert (Hkept : List.filter nonblank (map (join NL_str) groups)
                  = map (join NL_str) groups).
  { apply filter_all, Forall_forall. intros s Hs.
    apply list_elem_of_fmap in Hs as (g & -> & Hg).
    rewrite Forall_forall in Hgs.
    apply nonblank_group; [by apply Hgs | apply Hall; by right]. }
  transitivity (join NL_str (split NL_str content)); [|apply join_lines_of].
  rewrite <- Hcat.
  destruct leading as [|line leading].
  - simpl. change (nonblank []) with false. cbv iota.
    rewrite Hkept. by apply join_concat.
  - cbn [map List.filter].
    rewrite nonblank_group; [|done | apply Hall; left].
    rewrite Hkept.
    change (join NL_str (line :: leading) :: map (join NL_str) groups)
      with (map (join NL_str) ((line :: leading) :: groups)).
    rewrite join_concat; [done|]. by constructor.
Qed.

Lemma group_lines_plain lines :
  Forall (fun line => Re.match_heading line = false) lines →
  group_lines lines = [lines].
Proof.
  induction 1 as [|line rest Hline _ IH]; [done|].
  simpl. by rewrite IH, Hline.
Qed.

(** X9. A text none of whose lines is a heading is one section, the text
    itself, or no section at all when it is blank. *)
Theorem plain_text_one_section (content : pystr) :
  Forall (fun line => Re.match_heading line = false) (split NL_str content) →
  _split_by_sections content = if truthy (strip content) then [content] else [].
Proof.
  intros Hplain. rewrite split_by_sections_groups.
  unfold sections_by_headings. rewrite (group_lines_plain _ Hplain).
  simpl. by rewrite join_lines_of.
Qed.

(** *** Nothing visible is lost *)

Lemma join_elem sep g c :
  c ∈ join sep g → c ∈ sep ∨ ∃ line, line ∈ g ∧ c ∈ line.
Proof.
  induction g as [|p g IH]; [by intros ?%elem_of_nil|].
  destruct g as [|q g].
  - simpl. intros Hc. right. exists p. split; [left | done].
  - rewrite join_cons by done. rewrite !elem_of_app. intros [Hc | [Hc | Hc]].
    + right. exists p. split; [left | done].
    + by left.
    + destruct (IH Hc) as [Hs | (line & Hl & Hcl)]; [by left|].
      right. exists line. split; [by right | done].
Qed.

Lemma newline_is_space c : c ∈ NL_str → Py_UNICODE_ISSPACE c = true.
Proof. unfold NL_str. by intros ->%list_elem_of_singleton. Qed.

(** The characters of the sections are those of the text, whitespace
    apart. *)
Lemma sections_hold content c :
  Py_UNICODE_ISSPACE c = false →
  c ∈ content ↔ ∃ section, section ∈ _split_by_sections content ∧ c ∈ section.
Proof.
  intros Hc. rewrite split_by_sections_groups. unfold sections_by_headings.
  pose proof (group_lines_concat (split NL_str content)) as Hcat.
  pose proof (join_lines_of content) as Hjoin.
  split.
  - intros Hin. rewrite <- Hjoin in Hin.
    apply join_elem in Hin as [Hnl | (line & Hline & Hin)].
    { apply newline_is_space in Hnl. congruence. }
    rewrite <- Hcat in Hline.
    apply list_elem_of_In, in_concat in Hline as (g & Hg & Hline).
    apply list_elem_of_In in Hg, Hline.
    assert (Hhere : c ∈ join NL_str g) by (by eapply join_holds).
    exists (join NL_str g). split; [|done].
    apply list_elem_of_In, filter_In. split.
    + apply list_elem_of_In, list_elem_of_fmap. by exists g.
    + apply truthy_true, strip_nonblank. by exists c.
  - intros (section & Hsection & Hin).
    apply list_elem_of_In, filter_In in Hsection as [Hsection _].
    apply list_elem_of_In, list_elem_of_fmap in Hsection as (g & -> & Hg).
    apply join_elem in Hin as [Hnl | (line & Hline & Hin)].
    { apply newline_is_space in Hnl. congruence. }
    rewrite <- Hjoin. eapply join_holds; [|done].
    rewrite <- Hcat. apply list_elem_of_In, in_concat. exists g.
    by rewrite <- !list_elem_of_In.
Qed.

(** A text has no section exactly when it is blank. *)
Lemma no_section_iff_blank content :
  _split_by_sections content = [] ↔ strip content = [].
Proof.
  split.
  - intros Hnone. destruct (strip content) as [|x rest] eqn:Hstrip; [done|].
    assert (Hnb : strip content ≠ []) by (by rewrite Hstrip).
    apply strip_nonblank in Hnb as (c & Hin & Hc).
    apply (sections_hold content c Hc) in Hin as (section & Hsection & _).
    rewrite Hnone in Hsection. by apply elem_of_nil in Hsection.
  - intros Hblank.
    destruct (_split_by_sections content) as [|section rest] eqn:Hsections; [done|].
    assert (Hsection : section ∈ _split_by_sections content)
      by (rewrite Hsections; left).
    assert (Hnb : strip section ≠ []).
    { rewrite split_by_sections_groups in Hsection.
      unfold sections_by_headings in Hsection.
      apply list_elem_of_In, filter_In in Hsection as [_ Hnb].
      by apply truthy_true. }
    apply strip_nonblank in Hnb as (c & Hin & Hc).
    assert (Hcontent : c ∈ content).
    { apply (sections_hold content c Hc). by exists section. }
    assert (Hne : strip content ≠ []) by (apply strip_nonblank; by exists c).
    done.
Qed.

(** X10. The splitter loses nothing that can be seen: a character that
    is no whitespace occurs in the text exactly when it occurs in one of
    its sections, also when blank groups of lines are dropped; and a text
    has no section exactly when it is blank. *)
Theorem sections_keep_characters (content : pystr) :
  (∀ c, Py_UNICODE_ISSPACE c = false →
        (c ∈ content ↔ ∃ section, section ∈ _split_by_sections content ∧ c ∈ section))
  ∧ (_split_by_sections content = [] ↔ strip content = []).
Proof. split; [apply sections_hold | apply no_section_iff_blank]. Qed.

End SplitterMore.

(** A page with a leading paragraph and two headings. *)
Lemma sections_rejoin_witness :
  join Splitter.NL_str (Splitter._split_by_sections (py "intro
# A
body
## B"))
  = py "intro
# A
body
## B".
Proof.
  apply SplitterMore.sections_rejoin. vm_compute.
  repeat constructor; discriminate.
Defined.

(** A paragraph of two lines. *)
Lemma plain_text_one_section_witness :
  Splitter._split_by_sections (py "first line
second line") = [py "first line
second line"].
Proof.
  apply (SplitterMore.plain_text_one_section (py "first line
second line")).
  vm_compute. repeat constructor.
Defined.

(** ** Documents without chunks *)

Module BlankPages.
Import Chunker ChunkerSpec ChunkerFacts.

Section WithRuntime.

Variable tolower_full : N -> list N.
Variable lower_sigma : pystr -> pystr -> N.
Variable encode : pystr -> list N.

Abbreviation create_chunks := (Chunker.create_chunks tolower_full lower_sigma encode).

(** When every call of the tokenizer answers, a document gives no chunk
    exactly when all its pages are blank. *)
Lemma created_none_iff_blank (c : Content) :
  create_chunks c = []
  ↔ Forall (fun page => strip (text_content_of page) = [])
           (page_contents_of (markdown_content c)).
Proof.
  split.
  - intros Hnone. apply Forall_forall. intros page Hpage.
    destruct (strip (text_content_of page)) as [|x rest] eqn:Hstrip; [done|].
    exfalso.
    pose proof (ChunkerMore.emitted_length tolower_full lower_sigma encode c
                  (page_contents_of (markdown_content c)) 0) as Hlen.
    rewrite create_chunks_emitted in Hnone.
    apply (f_equal length) in Hnone. rewrite number_from_length in Hnone.
    unfold ChunkerSpec.emitted in Hnone. rewrite Hnone in Hlen. simpl in Hlen.
    assert (Hsections : page_sections page ≠ []).
    { unfold page_sections. rewrite Hstrip. simpl.
      intros Hno. apply SplitterMore.no_section_iff_blank in Hno. congruence. }
    destruct (page_sections page) as [|section sections] eqn:Hps; [done|].
    assert (Hin : section ∈ flat_map page_sections
                               (page_contents_of (markdown_content c))).
    { apply elem_of_flat_map. exists page. split; [done|]. rewrite Hps. left. }
    destruct (flat_map page_sections (page_contents_of (markdown_content c)));
      [by apply elem_of_nil in Hin | simpl in Hlen; lia].
  - intros Hblank.
    destruct (create_chunks c) as [|chunk rest] eqn:Hchunks; [done|].
    assert (Hin : chunk ∈ create_chunks c) by (rewrite Hchunks; left).
    apply ChunkerMore.created_shape in Hin
      as (i & page & section & Hpage & Hsection & _).
    apply ChunkerMore.page_sections_page_nonblank in Hsection.
    rewrite Forall_forall in Hblank.
    specialize (Hblank page (list_elem_of_lookup_2 _ _ _ Hpage)). done.
Qed.

End WithRuntime.

End BlankPages.

(** ** The chunker and the failures of its tokenizer *)

Module TokenizedFacts.
Import Chunker ChunkerSpec ChunkerFacts Tokenized.

Lemma fold_outcome_returns {S A : Type} (fstep : S → A → outcome S)
    (tstep : S → A → S) :
  (∀ st x st', fstep st x = Return st' → tstep st x = st') →
  ∀ l st st', fold_outcome fstep st l = Return st' → foldl tstep st l = st'.
Proof.
  intros Hstep. induction l as [|x l IH]; intros st st'; simpl.
  - by intros [= <-].
  - destruct (fstep st x) as [st1|e] eqn:Hx; [|done].
    rewrite (Hstep _ _ _ Hx). apply IH.
Qed.

Lemma fold_outcome_total {S A : Type} (fstep : S → A → outcome S)
    (tstep : S → A → S) :
  (∀ st x, fstep st x = Return (tstep st x)) →
  ∀ l st, fold_outcome fstep st l = Return (foldl tstep st l).
Proof.
  intros Hstep. induction l as [|x l IH]; intros st; simpl; [done|].
  by rewrite Hstep, IH.
Qed.

Lemma fold_outcome_raises {S A : Type} (fstep : S → A → outcome S)
    (P : exn → Prop) :
  (∀ st x e, fstep st x = Raise e → P e) →
  ∀ l st e, fold_outcome fstep st l = Raise e → P e.
Proof.
  intros Hstep. induction l as [|x l IH]; intros st e; simpl; [done|].
  destruct (fstep st x) as [st1|e1] eqn:Hx.
  - apply IH.
  - intros [= <-]. by eapply Hstep.
Qed.

Section WithRuntime.

Variable tolower_full : N -> list N.
Variable lower_sigma : pystr -> pystr -> N.
Variable tokenize : pystr -> outcome (list N).

Abbreviation encode := (accepted_tokens tokenize).
Abbreviation create_chunks := (Tokenized.create_chunks tolower_full lower_sigma tokenize).
Abbreviation created := (Chunker.create_chunks tolower_full lower_sigma encode).

Abbreviation rejected := (Tokenized.rejected tokenize).

Lemma token_count_returns text n :
  Tokenized.token_count tokenize text = Return n →
  Chunker.token_count encode text = n.
Proof.
  unfold Tokenized.token_count, Chunker.token_count, accepted_tokens.
  destruct (tokenize text); [by intros [= <-] | done].
Qed.

Lemma token_count_raises text e :
  Tokenized.token_count tokenize text = Raise e → rejected e.
Proof.
  unfold Tokenized.token_count. destruct (tokenize text) eqn:Htext; [done|].
  intros [= <-]. by exists text.
Qed.

Lemma token_count_total text :
  (∀ text, ∃ tokens, tokenize text = Return tokens) →
  Tokenized.token_count tokenize text = Return (Chunker.token_count encode text).
Proof.
  intros Hall. unfold Tokenized.token_count, Chunker.token_count, accepted_tokens.
  by destruct (Hall text) as [tokens ->].
Qed.

(** *** A run that returns *)

Lemma long_step_returns page_number page_images st sentence st' :
  Tokenized.long_step tolower_full lower_sigma tokenize page_number page_images
    st sentence = Return st' →
  Chunker.long_step tolower_full lower_sigma encode page_number page_images
    st sentence = st'.
Proof.
  destruct st as [chunks current_chunk].
  unfold Tokenized.long_step, Chunker.long_step.
  destruct (Tokenized.token_count _ _) as [n|e] eqn:Hn; [|done].
  rewrite (token_count_returns _ _ Hn).
  by destruct (bool_decide _); intros [= <-].
Qed.

Lemma split_long_section_returns section page_number page_images sub_chunks :
  Tokenized._split_long_section tolower_full lower_sigma tokenize section
    page_number page_images = Return sub_chunks →
  Chunker._split_long_section tolower_full lower_sigma encode section
    page_number page_images = sub_chunks.
Proof.
  unfold Tokenized._split_long_section, Chunker._split_long_section.
  destruct (fold_outcome _ _ _) as [[chunks current_chunk]|e] eqn:Hloop; [|done].
  apply (fold_outcome_returns _ _ (long_step_returns page_number page_images))
    in Hloop.
  rewrite Hloop. by intros [= <-].
Qed.

Lemma section_step_returns c page_number page_images st section st' :
  Tokenized.section_step tolower_full lower_sigma tokenize c page_number
    page_images st section = Return st' →
  Chunker.section_step tolower_full lower_sigma encode c page_number
    page_images st section = st'.
Proof.
  destruct st as [chunks chunk_id].
  unfold Tokenized.section_step, Chunker.section_step.
  destruct (Tokenized.token_count _ _) as [n|e] eqn:Hn; [|done].
  rewrite (token_count_returns _ _ Hn).
  destruct (bool_decide _); [by intros [= <-]|].
  destruct (Tokenized._split_long_section _ _ _ _ _ _) as [sub_chunks|e]
    eqn:Hsub; [|done].
  rewrite (split_long_section_returns _ _ _ _ Hsub). by intros [= <-].
Qed.

Lemma page_step_returns c st entry st' :
  Tokenized.page_step tolower_full lower_sigma tokenize c st entry = Return st' →
  Chunker.page_step tolower_full lower_sigma encode c st entry = st'.
Proof.
  destruct entry as [page_num page_content].
  unfold Tokenized.page_step, Chunker.page_step.
  destruct (negb _); [by intros [= <-]|].
  apply (fold_outcome_returns _ _ (section_step_returns c _ _)).
Qed.

Lemma create_chunks_returns c chunks :
  create_chunks c = Return chunks → chunks = created c.
Proof.
  unfold Tokenized.create_chunks, Chunker.create_chunks.
  destruct (fold_outcome _ _ _) as [st|e] eqn:Hloop; [|done].
  apply (fold_outcome_returns _ _ (page_step_returns c)) in Hloop.
  rewrite Hloop. by intros [= <-].
Qed.

(** *** A run that raises *)

Lemma long_step_raises page_number page_images st sentence e :
  Tokenized.long_step tolower_full lower_sigma tokenize page_number page_images
    st sentence = Raise e → rejected e.
Proof.
  destruct st as [chunks current_chunk]. unfold Tokenized.long_step.
  destruct (Tokenized.token_count _ _) as [n|e'] eqn:Hn.
  - by destruct (bool_decide _).
  - intros [= <-]. by eapply token_count_raises.
Qed.

Lemma split_long_section_raises section page_number page_images e :
  Tokenized._split_long_section tolower_full lower_sigma tokenize section
    page_number page_images = Raise e → rejected e.
Proof.
  unfold Tokenized._split_long_section.
  destruct (fold_outcome _ _ _) as [[chunks current_chunk]|e'] eqn:Hloop; [done|].
  intros [= <-].
  by apply (fold_outcome_raises _ rejected
              (long_step_raises page_number page_images)) in Hloop.
Qed.

Lemma section_step_raises c page_number page_images st section e :
  Tokenized.section_step tolower_full lower_sigma tokenize c page_number
    page_images st section = Raise e → rejected e.
Proof.
  destruct st as [chunks chunk_id]. unfold Tokenized.section_step.
  destruct (Tokenized.token_count _ _) as [n|e'] eqn:Hn.
  - destruct (bool_decide _); [done|].
    destruct (Tokenized._split_long_section _ _ _ _ _ _) as [sub_chunks|e']
      eqn:Hsub; [done|].
    intros [= <-]. by eapply split_long_section_raises.
  - intros [= <-]. by eapply token_count_raises.
Qed.

Lemma page_step_raises c st entry e :
  Tokenized.page_step tolower_full lower_sigma tokenize c st entry = Raise e →
  rejected e.
Proof.
  destruct entry as [page_num page_content]. unfold Tokenized.page_step.
  destruct (negb _); [done|].
  apply (fold_outcome_raises _ rejected (section_step_raises c _ _)).
Qed.

Lemma create_chunks_raises c e :
  create_chunks c = Raise e → rejected e.
Proof.
  unfold Tokenized.create_chunks.
  destruct (fold_outcome _ _ _) as [st|e'] eqn:Hloop; [done|].
  intros [= <-].
  by apply (fold_outcome_raises _ rejected (page_step_raises c)) in Hloop.
Qed.

(** *** A tokenizer that accepts every text *)

Section Accepting.

Hypothesis accepts : ∀ text, ∃ tokens, tokenize text = Return tokens.

Lemma long_step_total page_number page_images st sentence :
  Tokenized.long_step tolower_full lower_sigma tokenize page_number page_images
    st sentence
  = Return (Chunker.long_step tolower_full lower_sigma encode page_number
              page_images st sentence).
Proof.
  destruct st as [chunks current_chunk].
  unfold Tokenized.long_step, Chunker.long_step.
  rewrite (token_count_total _ accepts). by destruct (bool_decide _).
Qed.

Lemma split_long_section_total section page_number page_images :
  Tokenized._split_long_section tolower_full lower_sigma tokenize section
    page_number page_images
  = Return (Chunker._split_long_section tolower_full lower_sigma encode section
              page_number page_images).
Proof.
  unfold Tokenized._split_long_section, Chunker._split_long_section.
  rewrite (fold_outcome_total _ _ (long_step_total page_number page_images)).
  by destruct (foldl _ _ _).
Qed.

Lemma section_step_total c page_number page_images st section :
  Tokenized.section_step tolower_full lower_sigma tokenize c page_number
    page_images st section
  = Return (Chunker.section_step tolower_full lower_sigma encode c page_number
              page_images st section).
Proof.
  destruct st as [chunks chunk_id].
  unfold Tokenized.section_step, Chunker.section_step.
  rewrite (token_count_total _ accepts). destruct (bool_decide _); [done|].
  by rewrite split_long_section_total.
Qed.

Lemma page_step_total c st entry :
  Tokenized.page_step tolower_full lower_sigma tokenize c st entry
  = Return (Chunker.page_step tolower_full lower_sigma encode c st entry).
Proof.
  destruct entry as [page_num page_content].
  unfold Tokenized.page_step, Chunker.page_step.
  destruct (negb _); [done|].
  apply (fold_outcome_total _ _ (section_step_total c _ _)).
Qed.

Lemma create_chunks_total c : create_chunks c = Return (created c).
Proof.
  unfold Tokenized.create_chunks, Chunker.create_chunks.
  by rewrite (fold_outcome_total _ _ (page_step_total c)).
Qed.

End Accepting.

(** X25. [create_chunks] has no handler for its tokenizer. When it
    returns, its chunks are those of the run in which every call of the
    tokenizer answers; when it raises, the exception is one the tokenizer
    raised for some text; and with a tokenizer that accepts every text it
    returns. *)
Theorem create_chunks_by_tokenizer (c : Content) :
  (∀ chunks, create_chunks c = Return chunks → chunks = created c)
  ∧ (∀ e, create_chunks c = Raise e → ∃ text, tokenize text = Raise e)
  ∧ ((∀ text, ∃ tokens, tokenize text = Return tokens) →
     create_chunks c = Return (created c)).
Proof.
  split; [apply create_chunks_returns|].
  split; [apply create_chunks_raises | intros Hall; by apply create_chunks_total].
Qed.

(** *** Sections within the budget *)

Lemma sections_fitting_return c page_number page_images sections : ∀ st,
  Forall (fun section =>
            ∃ n, Tokenized.token_count tokenize section = Return n
                 ∧ (n ≤ MAX_TOKENS_PER_CHUNK)%nat) sections →
  ∃ st', fold_outcome (Tokenized.section_step tolower_full lower_sigma tokenize
                         c page_number page_images) st sections = Return st'.
Proof.
  induction sections as [|section rest IH]; intros st Hfit; simpl; [by eexists|].
  apply Forall_cons in Hfit as [(n & Hn & Hle) Hrest].
  destruct st as [chunks chunk_id]. unfold Tokenized.section_step at 1.
  rewrite Hn, bool_decide_eq_true_2 by done. by apply IH.
Qed.

Lemma pages_fitting_return c pages : ∀ start st,
  Forall (fun section =>
            ∃ n, Tokenized.token_count tokenize section = Return n
                 ∧ (n ≤ MAX_TOKENS_PER_CHUNK)%nat)
         (flat_map page_sections pages) →
  ∃ st', fold_outcome (Tokenized.page_step tolower_full lower_sigma tokenize c) st
           (enumerate start pages) = Return st'.
Proof.
  induction pages as [|page rest IH]; intros start st Hfit; simpl; [by eexists|].
  simpl in Hfit. apply Forall_app in Hfit as [Hpage Hrest].
  unfold page_sections in Hpage. unfold Tokenized.page_step at 1.
  destruct (negb (truthy (strip (text_content_of page)))); [by apply IH|].
  destruct (sections_fitting_return c (Z.of_nat start + 1)
              (List.filter (fun img => (img_page_number img =? Z.of_nat start + 1)%Z)
                           (images_info c))
              _ st Hpage) as [st1 ->].
  by apply IH.
Qed.

(** X5. No section is dropped: a list [create_chunks] returns has at
    least as many chunks as the pages of the document have sections. When
    the tokenizer accepts every section and finds it within the token
    budget, [create_chunks] returns, and the contents of the chunks are
    exactly the sections, in order and unchanged. *)
Theorem sections_become_chunks (c : Content) :
  (∀ chunks, create_chunks c = Return chunks →
             (length (document_sections c) ≤ length chunks)%nat)
  ∧ (Forall (fun section =>
               ∃ n, Tokenized.token_count tokenize section = Return n
                    ∧ (n ≤ MAX_TOKENS_PER_CHUNK)%nat)
            (document_sections c) →
     ∃ chunks, create_chunks c = Return chunks
               ∧ map content chunks = document_sections c).
Proof.
  split.
  - intros chunks ->%create_chunks_returns. apply ChunkerMore.created_length.
  - intros Hfit.
    destruct (pages_fitting_return c (page_contents_of (markdown_content c))
                0%nat ([], 0%nat) Hfit) as [st Hst].
    exists (fst st). split; [unfold Tokenized.create_chunks; by rewrite Hst|].
    assert (Hchunks : create_chunks c = Return (fst st))
      by (unfold Tokenized.create_chunks; by rewrite Hst).
    rewrite (create_chunks_returns _ _ Hchunks).
    apply ChunkerMore.created_fitting.
    eapply Forall_impl; [exact Hfit|]. simpl.
    intros section (n & Hn & Hle). by rewrite (token_count_returns _ _ Hn).
Qed.

(** *** Blank documents *)

Lemma blank_pages_return c pages : ∀ start st,
  Forall (fun page => strip (text_content_of page) = []) pages →
  fold_outcome (Tokenized.page_step tolower_full lower_sigma tokenize c) st
    (enumerate start pages) = Return st.
Proof.
  induction pages as [|page rest IH]; intros start st Hblank; simpl; [done|].
  apply Forall_cons in Hblank as [Hpage Hrest].
  unfold Tokenized.page_step at 1. rewrite Hpage. simpl. by apply IH.
Qed.

(** X11. [create_chunks] returns the empty list exactly when all pages
    of the document are blank, a document without pages among them, and
    then the tokenizer is not called. For a document with a page that is
    not blank it returns at least one chunk, or raises an exception of
    the tokenizer. *)
Theorem no_chunks_iff_blank (c : Content) :
  (create_chunks c = Return []
   ↔ Forall (fun page => strip (text_content_of page) = [])
            (page_contents_of (markdown_content c)))
  ∧ (¬ Forall (fun page => strip (text_content_of page) = [])
              (page_contents_of (markdown_content c)) →
     (∃ chunk chunks, create_chunks c = Return (chunk :: chunks))
     ∨ (∃ e text, create_chunks c = Raise e ∧ tokenize text = Raise e)).
Proof.
  assert (Hiff : create_chunks c = Return []
                 ↔ Forall (fun page => strip (text_content_of page) = [])
                          (page_contents_of (markdown_content c))).
  { split.
    - intros Hnone. pose proof (create_chunks_returns _ _ Hnone) as Hcreated.
      symmetry in Hcreated. by apply BlankPages.created_none_iff_blank in Hcreated.
    - intros Hblank. unfold Tokenized.create_chunks.
      by rewrite (blank_pages_return c _ 0%nat ([], 0%nat) Hblank). }
  split; [done|]. intros Hsome.
  destruct (create_chunks c) as [[|chunk chunks]|e] eqn:Hrun.
  - exfalso. apply Hsome. by apply Hiff.
  - left. by exists chunk, chunks.
  - right. destruct (create_chunks_raises _ _ Hrun) as [text Htext].
    by exists e, text.
Qed.

End WithRuntime.

End TokenizedFacts.

(** The warning page under a tokenizer that rejects the special token:
    one section within the budget, and one chunk. *)
Lemma sections_become_chunks_witness :
  ∃ chunks,
    Tokenized.create_chunks Examples.ascii_tolower Examples.sigma_small
      TokenizerSamples.strict Samples.warning_document = Return chunks
    ∧ map Chunker.content chunks
      = ChunkerSpec.document_sections Samples.warning_document.
Proof.
  apply (proj2 (TokenizedFacts.sections_become_chunks Examples.ascii_tolower
                  Examples.sigma_small TokenizerSamples.strict
                  Samples.warning_document)).
  apply Forall_forall. intros section Hsection. vm_compute in Hsection.
  apply list_elem_of_singleton in Hsection as ->.
  exists 16%nat. split; [by vm_compute | unfold Chunker.MAX_TOKENS_PER_CHUNK; lia].
Defined.

(** A page that spells the special token: it is not blank, and the
    tokenizer raises. *)
Lemma no_chunks_iff_blank_witness :
  (∃ chunk chunks,
     Tokenized.create_chunks Examples.ascii_tolower Examples.sigma_small
       TokenizerSamples.strict TokenizerSamples.special_document
     = Return (chunk :: chunks))
  ∨ (∃ e text,
       Tokenized.create_chunks Examples.ascii_tolower Examples.sigma_small
         TokenizerSamples.strict TokenizerSamples.special_document = Raise e
       ∧ TokenizerSamples.strict text = Raise e).
Proof.
  apply (proj2 (TokenizedFacts.no_chunks_iff_blank Examples.ascii_tolower
                  Examples.sigma_small TokenizerSamples.strict
                  TokenizerSamples.special_document)).
  intros Hblank. apply Forall_cons in Hblank as [Hpage _].
  by vm_compute in Hpage.
Defined.

(** ** More on the embedding client *)

Module EmbeddingMore.
Import EmbeddingService EmbeddingSpec EmbeddingFacts EmbeddingProbe Requests.

Lemma space_str : py " " = [0x20].
Proof. reflexivity. Qed.

Lemma split_whitespace_length s : ∀ cur,
  (length (join (py " ") (split_whitespace_from cur s)) ≤ length cur + length s)%nat.
Proof.
  induction s as [|c s IH]; intros cur.
  - simpl. destruct cur; simpl; [lia|]. rewrite length_app, length_rev. simpl. lia.
  - cbn [split_whitespace_from]. destruct (Py_UNICODE_ISSPACE c).
    + destruct cur as [|x cur].
      * specialize (IH []). simpl in *. lia.
      * specialize (IH []).
        destruct (split_whitespace_from [] s) as [|w ws] eqn:Hws.
        -- cbn [join]. rewrite length_rev. simpl. lia.
        -- rewrite SplitterMore.join_cons by done.
           rewrite space_str in *. rewrite !length_app, length_rev.
           cbn [length] in *. lia.
    + specialize (IH (c :: cur)). simpl in *. lia.
Qed.

(** The words [text.split()] gives hold no whitespace. *)
Lemma split_whitespace_words s : ∀ cur,
  Forall (fun c => Py_UNICODE_ISSPACE c = false) cur →
  Forall (Forall (fun c => Py_UNICODE_ISSPACE c = false))
         (split_whitespace_from cur s).
Proof.
  induction s as [|c s IH]; intros cur Hcur.
  - simpl. destruct cur; [done|]. constructor; [|done]. by apply Forall_rev.
  - cbn [split_whitespace_from]. destruct (Py_UNICODE_ISSPACE c) eqn:Hc.
    + destruct cur; [by apply IH|]. constructor; [by apply Forall_rev | by apply IH].
    + apply IH. by constructor.
Qed.

(** They are not empty. *)
Lemma split_whitespace_nonempty s : ∀ cur,
  Forall (fun word => word ≠ []) (split_whitespace_from cur s).
Proof.
  induction s as [|c s IH]; intros cur.
  - simpl. destruct cur as [|x cur]; [done|]. constructor; [|done].
    simpl. by destruct (rev cur).
  - cbn [split_whitespace_from]. destruct (Py_UNICODE_ISSPACE c); [|apply IH].
    destruct cur as [|x cur]; [apply IH|]. constructor; [|apply IH].
    simpl. by destruct (rev cur).
Qed.

(** X12. The text handed to the embedding model is normalised and
    bounded: a blank text becomes the empty string; the result is a list
    of words, none empty and none with whitespace in it, joined by single
    spaces, so it has no whitespace at its ends and no two in a row; and
    it has at most 30003 characters, and no more than the text when that
    has at most 30000. *)
Theorem preprocess_text_normalised (text : pystr) :
  (strip text = [] → _preprocess_text text = [])
  ∧ (∃ words,
       _preprocess_text text = join (py " ") words
       ∧ Forall (fun word =>
                   word ≠ [] ∧ Forall (fun c => Py_UNICODE_ISSPACE c = false) word)
                words)
  ∧ N.of_nat (length (_preprocess_text text)) ≤ 30003
  ∧ (N.of_nat (length text) ≤ 30000 →
     (length (_preprocess_text text) ≤ length text)%nat).
Proof.
  unfold _preprocess_text. split; [|split; [|split]].
  - intros Hblank. rewrite Hblank. simpl. by rewrite orb_true_r.
  - destruct (_ || _); [by exists []|].
    eexists. split; [done|]. apply Forall_and. split.
    + apply split_whitespace_nonempty.
    + apply split_whitespace_words. constructor.
  - destruct (_ || _); [simpl; lia|].
    destruct (_ <? _)%nat eqn:Hlong.
    + pose proof (split_whitespace_length
                    (take (N.to_nat 30000) text ++ py "...") []) as Hle.
      rewrite length_app, length_take in Hle.
      change (length (py "...")) with 3%nat in Hle. cbn [length] in Hle. lia.
    + apply Nat.ltb_ge in Hlong.
      pose proof (split_whitespace_length text []) as Hle.
      cbn [length] in Hle. lia.
  - intros Hshort. destruct (_ || _); [simpl; lia|].
    destruct (_ <? _)%nat eqn:Hlong; [apply Nat.ltb_lt in Hlong; lia|].
    apply (split_whitespace_length text []).
Qed.

Section WithServices.

Variable W : Type.
Variable svc : Services W.

Abbreviation create_embedding := (EmbeddingService.create_embedding W svc).
Abbreviation create_embeddings_batch :=
  (EmbeddingService.create_embeddings_batch W svc).
Abbreviation embedded := (EmbeddingSpec.embedded W svc).

(** The run of [create_embedding], by the answer to its request. *)
Lemma create_embedding_run text w sent :
  create_embedding text (w, sent)
  = let '(r, w') :=
      bedrock_embedding svc EMBEDDING_MODEL_ID (_preprocess_text text) w in
    (match r with
     | Return [] => Raise (ValueError (py "임베딩 생성 실패: 빈 응답"))
     | Return v => Return v
     | Raise e => Raise e
     end, (w', sent ++ [embedding_request text])).
Proof.
  unfold EmbeddingService.create_embedding, try_except, bind, request,
    embedding_request.
  by destruct (bedrock_embedding svc EMBEDDING_MODEL_ID (_preprocess_text text) w)
    as [[[|x v]|e] w'].
Qed.

(** X13. [create_embedding] sends exactly one request, for the
    preprocessed text. What it returns is the vector of the response and
    is never empty: an empty vector in the response becomes a
    [ValueError], and an exception of the request is raised again. *)
Theorem create_embedding_contract (text : pystr) (w : W) (sent : list call) :
  ∃ r w',
    create_embedding text (w, sent) = (r, (w', sent ++ [embedding_request text]))
    ∧ (∀ v, r = Return v →
            v ≠ []
            ∧ bedrock_embedding svc EMBEDDING_MODEL_ID (_preprocess_text text) w
              = (Return v, w'))
    ∧ (bedrock_embedding svc EMBEDDING_MODEL_ID (_preprocess_text text) w
       = (Return [], w') →
       r = Raise (ValueError (py "임베딩 생성 실패: 빈 응답")))
    ∧ (∀ e, bedrock_embedding svc EMBEDDING_MODEL_ID (_preprocess_text text) w
            = (Raise e, w') →
            r = Raise e).
Proof.
  rewrite create_embedding_run.
  destruct (bedrock_embedding svc EMBEDDING_MODEL_ID (_preprocess_text text) w)
    as [[[|x v]|e] w'] eqn:Hcall; simpl.
  all: eexists _, _; (split; [done|]).
  all: repeat split; try done; try congruence; by intros [= <-].
Qed.

Lemma create_embedding_sent text s r s' :
  create_embedding text s = (r, s') →
  snd s' = snd s ++ [embedding_request text].
Proof.
  destruct s as [w sent]. rewrite create_embedding_run.
  destruct (bedrock_embedding svc EMBEDDING_MODEL_ID (_preprocess_text text) w)
    as [r0 w']. by intros [= _ <-].
Qed.

Lemma create_embedding_nonempty text s s' : create_embedding text s ≠ (Return [], s').
Proof.
  destruct s as [w sent]. rewrite create_embedding_run.
  by destruct (bedrock_embedding svc EMBEDDING_MODEL_ID (_preprocess_text text) w)
    as [[[|x v]|e] w'].
Qed.

Lemma embedded_sent s texts vs s' :
  embedded s texts vs s' →
  snd s' = snd s ++ map embedding_request texts.
Proof.
  induction 1 as [s | s text v s1 texts vs s' Hcall _ IH
                    | s text e s1 texts vs s' Hcall _ IH]; simpl.
  - by rewrite app_nil_r.
  - apply create_embedding_sent in Hcall. rewrite IH, Hcall.
    by rewrite <- app_assoc.
  - apply create_embedding_sent in Hcall. rewrite IH, Hcall.
    by rewrite <- app_assoc.
Qed.

Lemma embedded_functional s texts vs1 s1 :
  embedded s texts vs1 s1 → ∀ vs2 s2,
  embedded s texts vs2 s2 → vs1 = vs2 ∧ s1 = s2.
Proof.
  induction 1 as [s | s text v sa texts vs s' Hcall _ IH
                    | s text e sa texts vs s' Hcall _ IH];
    intros vs2 s2 H2; inversion H2; subst; try done.
  - rewrite Hcall in *. simplify_eq. destruct (IH _ _ ltac:(eassumption)) as [-> ->].
    done.
  - rewrite Hcall in *. simplify_eq.
  - rewrite Hcall in *. simplify_eq.
  - rewrite Hcall in *. simplify_eq. destruct (IH _ _ ltac:(eassumption)) as [-> ->].
    done.
Qed.

Lemma batches_run texts batch_size s :
  (0 < batch_size)%Z →
  ∃ vs s', create_embeddings_batch texts batch_size s = (Return vs, s')
           ∧ embedded s texts vs s'.
Proof.
  intros Hpos. unfold EmbeddingService.create_embeddings_batch, range0.
  destruct (batch_size =? 0)%Z eqn:H0; [apply Z.eqb_eq in H0; lia|].
  destruct (batch_size <? 0)%Z eqn:Hneg; [apply Z.ltb_lt in Hneg; lia|].
  simpl. unfold bind, ret.
  destruct (batch_loop_embedded W svc texts batch_size Hpos (length texts) 0%nat [] s)
    as (vs & s' & Heq & Hemb); [lia|].
  exists vs, s'. by rewrite Heq.
Qed.

(** X14. The batch size does not matter: for any two batch sizes of at
    least one, [create_embeddings_batch] returns the same vectors and
    leaves the same state. *)
Theorem batch_size_irrelevant (texts : list pystr) (size1 size2 : Z)
    (s : state W) :
  (0 < size1)%Z → (0 < size2)%Z →
  create_embeddings_batch texts size1 s = create_embeddings_batch texts size2 s.
Proof.
  intros H1 H2.
  destruct (batches_run texts size1 s H1) as (vs1 & s1 & -> & Hemb1).
  destruct (batches_run texts size2 s H2) as (vs2 & s2 & -> & Hemb2).
  by destruct (embedded_functional _ _ _ _ Hemb1 _ _ Hemb2) as [-> ->].
Qed.

(** X15. [create_embeddings_batch] sends one request for every text, in
    the order of the texts and each for its preprocessed text, also after
    a text whose request failed. *)
Theorem batch_sends_one_request_per_text (texts : list pystr) (batch_size : Z)
    (w : W) (sent : list call) :
  (0 < batch_size)%Z →
  ∃ vectors w',
    create_embeddings_batch texts batch_size (w, sent)
    = (Return vectors, (w', sent ++ map embedding_request texts)).
Proof.
  intros Hpos.
  destruct (batches_run texts batch_size (w, sent) Hpos) as (vs & [w' sent'] & -> & Hemb).
  apply embedded_sent in Hemb. simpl in Hemb. subst sent'. eauto.
Qed.

Lemma test_connection_run w sent :
  ∃ ok w',
    test_connection W svc (w, sent)
    = (Return ok, (w', sent ++ [embedding_request (py "연결 테스트")])).
Proof.
  unfold EmbeddingProbe.test_connection, try_except, bind.
  fold create_embedding. rewrite create_embedding_run.
  destruct (bedrock_embedding svc EMBEDDING_MODEL_ID
              (_preprocess_text (py "연결 테스트")) w) as [[[|x v]|e] w'];
    simpl; eauto.
Qed.

(** X16. [test_connection] never raises, sends the one request of its
    probe text, and answers [True] exactly when [create_embedding]
    returns a vector of 1024 entries for it. *)
Theorem test_connection_probe (w : W) (sent : list call) :
  ∃ ok w',
    test_connection W svc (w, sent)
    = (Return ok, (w', sent ++ [embedding_request (py "연결 테스트")]))
    ∧ (ok = true ↔
       ∃ v, create_embedding (py "연결 테스트") (w, sent)
            = (Return v, (w', sent ++ [embedding_request (py "연결 테스트")]))
            ∧ length v = 1024%nat).
Proof.
  unfold EmbeddingProbe.test_connection, try_except, bind.
  fold create_embedding. rewrite create_embedding_run.
  destruct (bedrock_embedding svc EMBEDDING_MODEL_ID
              (_preprocess_text (py "연결 테스트")) w) as [[[|x v]|e] w'].
  - exists false, w'. split; [done|]. split; [done|]. by intros (v & [=] & _).
  - exists (length v =? 1023)%nat, w'. split; [done|]. split.
    + intros Hlen. apply Nat.eqb_eq in Hlen. exists (x :: v). split; [done|].
      simpl. lia.
    + intros (v' & [= <-] & Hlen). apply Nat.eqb_eq. simpl in Hlen. lia.
  - exists false, w'. split; [done|]. split; [done|]. by intros (v & [=] & _).
Qed.

End WithServices.

End EmbeddingMore.

(** Three texts, in batches of one and of two. *)
Lemma batch_size_irrelevant_witness :
  EmbeddingService.create_embeddings_batch unit (Worlds.serving [] true)
    [py "a"; py "b"; py "c"] 1 Worlds.start
  = EmbeddingService.create_embeddings_batch unit (Worlds.serving [] true)
      [py "a"; py "b"; py "c"] 2 Worlds.start.
Proof.
  apply (EmbeddingMore.batch_size_irrelevant unit (Worlds.serving [] true)
           [py "a"; py "b"; py "c"] 1 2 Worlds.start); lia.
Defined.

(** Two texts and a model that is down: two requests all the same. *)
Lemma batch_sends_one_request_per_text_witness :
  ∃ vectors w',
    EmbeddingService.create_embeddings_batch unit Worlds.unreachable
      [py "a"; py "b"] 10 ((), [])
    = (Return vectors,
       (w', [] ++ map Requests.embedding_request [py "a"; py "b"])).
Proof.
  apply (EmbeddingMore.batch_sends_one_request_per_text unit Worlds.unreachable
           [py "a"; py "b"] 10 () []).
  lia.
Defined.

(** ** More on the retrieval store *)

Module VectorStoreMore.
Import VectorStore Requests.

Lemma zip_take_drop {A B} (k : nat) : ∀ (a : list A) (b : list B),
  zip (take k a) (take k b) ++ zip (drop k a) (drop k b) = zip a b.
Proof.
  induction k as [|k IH]; intros a b; [done|].
  destruct a as [|x a]; [done|].
  destruct b as [|y b]; [simpl; by destruct (drop k a)|].
  simpl. by rewrite IH.
Qed.

Section WithServices.

Variable W : Type.
Variable svc : Services W.
Variable index_name : pystr.

Abbreviation bulk_body_of := (VectorStore.bulk_body_of index_name).
Abbreviation bulk_loop := (VectorStore.bulk_loop W svc index_name).
Abbreviation add_documents := (VectorStore.add_documents W svc index_name).

Lemma bulk_body_split chunks embeddings k :
  bulk_body_of (take k chunks) (take k embeddings)
  ++ bulk_body_of (drop k chunks) (drop k embeddings)
  = bulk_body_of chunks embeddings.
Proof.
  unfold VectorStore.bulk_body_of.
  by rewrite <- flat_map_app, zip_take_drop.
Qed.

Lemma bulk_body_length chunks embeddings :
  length (bulk_body_of chunks embeddings)
  = (2 * length (zip chunks embeddings))%nat.
Proof.
  unfold VectorStore.bulk_body_of.
  induction (zip chunks embeddings) as [|[chunk embedding] rest IH]; [done|].
  simpl in *. lia.
Qed.

Lemma batch_body_small chunks embeddings i :
  (length (bulk_body_of (slice chunks i 100) (slice embeddings i 100)) ≤ 200)%nat.
Proof.
  rewrite bulk_body_length. unfold slice.
  rewrite length_zip_with, length_take. lia.
Qed.

(** The bulk loop, started at index [i], sends the documents from [i] on,
    in order and in bodies of at most 200 lines, up to the first request
    that fails. *)
Lemma bulk_loop_sends chunks embeddings : ∀ fuel i success_count w sent,
  (length chunks - i ≤ fuel)%nat →
  ∃ r w' bodies,
    bulk_loop chunks embeddings 100
      (range_up fuel i (length chunks) 100) success_count (w, sent)
    = (r, (w', sent ++ map OsBulk bodies))
    ∧ Forall (fun body => (length body ≤ 200)%nat) bodies
    ∧ match r with
      | Return _ =>
        concat bodies = bulk_body_of (drop i chunks) (drop i embeddings)
      | Raise _ =>
        ∃ unsent,
          concat bodies ++ unsent
          = bulk_body_of (drop i chunks) (drop i embeddings)
      end.
Proof.
  induction fuel as [|fuel IH]; intros i count w sent Hfuel.
  - exists (Return count), w, []. simpl. rewrite app_nil_r.
    rewrite (drop_ge chunks) by lia. by repeat split.
  - cbn [range_up]. destruct (i <? length chunks)%nat eqn:Hlt.
    + cbn [VectorStore.bulk_loop]. unfold bind at 1, request.
      set (body := bulk_body_of (slice chunks i 100) (slice embeddings i 100)).
      pose proof (bulk_body_split (drop i chunks) (drop i embeddings) 100) as Hsplit.
      rewrite !drop_drop in Hsplit.
      destruct (os_bulk svc body w) as [[response|e] w1] eqn:Hbulk.
      * unfold bind at 1.
        destruct (batch_successes response (length (slice chunks i 100)))
          as [added|e] eqn:Hadded; simpl.
        -- destruct (IH (i + 100)%nat (count + added)%nat w1 (sent ++ [OsBulk body]))
             as (r & w' & bodies & Heq & Hsmall & Hall).
           { apply Nat.ltb_lt in Hlt. lia. }
           exists r, w', (body :: bodies). rewrite Heq. simpl.
           rewrite <- app_assoc. split; [done|].
           split; [constructor; [apply batch_body_small | done]|].
           destruct r as [n|e].
           ++ rewrite Hall. exact Hsplit.
           ++ destruct Hall as [unsent Hall]. exists unsent.
              rewrite <- app_assoc, Hall. exact Hsplit.
        -- exists (Raise e), w1, [body]. simpl. split; [done|].
           split; [constructor; [apply batch_body_small | done]|].
           exists (bulk_body_of (drop (i + 100) chunks) (drop (i + 100) embeddings)).
           simpl. rewrite app_nil_r. exact Hsplit.
      * exists (Raise e), w1, [body]. simpl. split; [done|].
        split; [constructor; [apply batch_body_small | done]|].
        exists (bulk_body_of (drop (i + 100) chunks) (drop (i + 100) embeddings)).
        simpl. rewrite app_nil_r. exact Hsplit.
    + apply Nat.ltb_ge in Hlt. exists (Return count), w, []. simpl.
      rewrite app_nil_r, (drop_ge chunks) by lia. by repeat split.
Qed.

(** The run of [add_documents] on lists of equal length. *)
Lemma add_documents_run chunks embeddings s :
  length chunks = length embeddings →
  add_documents chunks embeddings s
  = match bulk_loop chunks embeddings 100
            (range_up (length chunks) 0 (length chunks) 100) 0%nat s with
    | (Return success_count, s1) =>
      match request (OsRefresh index_name) (os_refresh svc index_name) s1 with
      | (Return _, s2) => (Return (0 <? success_count)%nat, s2)
      | (Raise _, s2) => (Return false, s2)
      end
    | (Raise _, s1) => (Return false, s1)
    end.
Proof.
  intros Hlen.
  unfold VectorStore.add_documents, try_except, VectorStore.add_documents_try.
  apply Nat.eqb_eq in Hlen. rewrite Hlen. cbn [negb].
  unfold range0. cbn [Z.eqb Z.ltb Z.compare lift]. unfold bind, ret.
  change (Z.to_nat 100) with 100%nat.
  destruct (bulk_loop _ _ _ _ _ s) as [[count|e] s1]; [|done].
  by destruct (request _ _ s1) as [[[]|e] s2].
Qed.


Lemma add_documents_sent chunks embeddings w sent :
  length chunks = length embeddings →
  ∃ ok w' requests,
    add_documents chunks embeddings (w, sent) = (Return ok, (w', sent ++ requests))
    ∧ Forall (fun c => is_index_request c = true) requests.
Proof.
  intros Hlen. rewrite (add_documents_run _ _ _ Hlen).
  destruct (bulk_loop_sends chunks embeddings (length chunks) 0%nat 0%nat w sent)
    as (r & w1 & bodies & Heq & _ & _); [lia|].
  rewrite Heq.
  assert (Hbulk : Forall (fun c => is_index_request c = true) (map OsBulk bodies)).
  { apply Forall_forall. intros c Hc.
    by apply list_elem_of_fmap in Hc as (body & -> & _). }
  destruct r as [count|e]; [|by eauto].
  unfold request. destruct (os_refresh svc index_name w1) as [[[]|e] w2].
  - eexists _, w2, (map OsBulk bodies ++ [OsRefresh index_name]).
    rewrite <- app_assoc. split; [done|]. apply Forall_app. split; [done|].
    by repeat constructor.
  - eexists _, w2, (map OsBulk bodies ++ [OsRefresh index_name]).
    rewrite <- app_assoc. split; [done|]. apply Forall_app. split; [done|].
    by repeat constructor.
Qed.

End WithServices.

End VectorStoreMore.


(** ** More on the query orchestrator *)

Module QueryMore.
Import RAGSystem EmbeddingMore Requests Sources.

Lemma shown_length s : (length (shown s) ≤ 203)%nat.
Proof.
  unfold shown. destruct (200 <? length s)%nat eqn:Hlong.
  - rewrite length_app, length_take. change (length (py "...")) with 3%nat. lia.
  - apply Nat.ltb_ge in Hlong. lia.
Qed.

Lemma source_of_string result s :
  r_content result = VStr s → source_of result = Return (source_dict result s).
Proof.
  unfold source_of, source_content, source_dict, shown. intros ->. simpl.
  by destruct (200 <? length s)%nat.
Qed.

Lemma source_of_other result :
  content_string result = None →
  source_of result
  = Raise (TypeError (py "object of type '" ++ type_name (r_content result)
                      ++ py "' has no len()")).
Proof.
  unfold content_string, source_of, source_content.
  by destruct (r_content result).
Qed.

Lemma build_sources_strings results : ∀ sources contents,
  map content_string results = map Some contents →
  build_sources results sources
  = Return (sources ++ zip_with source_dict results contents).
Proof.
  induction results as [|result rest IH]; intros sources contents Hall.
  - destruct contents; [|done]. simpl. by rewrite app_nil_r.
  - destruct contents as [|s contents]; [done|]. simpl in Hall.
    injection Hall as Hs Hrest. unfold content_string in Hs.
    destruct (r_content result) eqn:Hc; try done. injection Hs as ->.
    simpl. rewrite (source_of_string _ _ Hc), (IH _ _ Hrest).
    by rewrite <- app_assoc.
Qed.

Lemma build_sources_first_other results : ∀ sources before result after,
  results = before ++ result :: after →
  Forall (fun r => content_string r ≠ None) before →
  content_string result = None →
  build_sources results sources
  = Raise (TypeError (py "object of type '" ++ type_name (r_content result)
                      ++ py "' has no len()")).
Proof.
  intros sources before. revert results sources.
  induction before as [|r before IH]; intros results sources result after -> Hbefore Hnone.
  - simpl. by rewrite (source_of_other _ Hnone).
  - apply Forall_cons in Hbefore as [Hr Hbefore]. simpl.
    unfold content_string in Hr. destruct (r_content r) eqn:Hc; try done.
    rewrite (source_of_string _ _ Hc). by eapply IH.
Qed.

(** X18. The source list of a response has one dict for every result,
    in ranking order, with the page number, score, section type and
    image flag of the result and its content cut to 200 characters and
    marked with three dots when it was longer, so never more than 203
    characters. A result whose content is no string but [None], a
    boolean or a number makes the whole list fail with a [TypeError]. *)
Theorem build_sources_lists_results (results : list SearchResult) :
  (∀ contents,
     map content_string results = map Some contents →
     build_sources results [] = Return (zip_with source_dict results contents)
     ∧ length (zip_with source_dict results contents) = length results
     ∧ Forall (fun s => (length (shown s) ≤ 203)%nat
                        ∧ take 200 (shown s) = take 200 s) contents)
  ∧ (∀ before result after,
       results = before ++ result :: after →
       Forall (fun r => content_string r ≠ None) before →
       content_string result = None →
       ∃ e, build_sources results [] = Raise e ∧ exn_class e = "TypeError"%string).
Proof.
  split.
  - intros contents Hall.
    split; [by rewrite (build_sources_strings _ [] _ Hall)|]. split.
    + rewrite length_zip_with. apply (f_equal length) in Hall.
      rewrite !length_map in Hall. lia.
    + apply Forall_forall. intros s _. split; [apply shown_length|].
      unfold shown. destruct (200 <? length s)%nat eqn:Hlong; [|done].
      apply Nat.ltb_lt in Hlong.
      rewrite take_app_le by (rewrite length_take; lia).
      by rewrite take_take, Nat.min_id.
  - intros before result after Hres Hbefore Hnone. eexists.
    split; [by eapply build_sources_first_other | done].
Qed.

Lemma build_sources_length results : ∀ sources out,
  build_sources results sources = Return out →
  length out = (length sources + length results)%nat.
Proof.
  induction results as [|result rest IH]; intros sources out; simpl.
  - intros [= <-]. lia.
  - destruct (source_of result) as [source|e]; [|done].
    intros Hout. apply IH in Hout. rewrite length_app in Hout. simpl in Hout. lia.
Qed.

Lemma build_sources_raises results : ∀ sources e,
  build_sources results sources = Raise e → exn_class e = "TypeError"%string.
Proof.
  induction results as [|result rest IH]; intros sources e; simpl; [done|].
  destruct (source_of result) as [source|e'] eqn:Hsource; [apply IH|].
  intros [= <-]. unfold source_of, source_content in Hsource.
  destruct (r_content result); simpl in Hsource; by simplify_eq.
Qed.

Section WithServices.

Variable W : Type.
Variable svc : Services W.
Variable index_name : pystr.
Variable float_str : float -> pystr.

Abbreviation search := (RAGSystem.search W svc index_name).
Abbreviation generate_answer := (RAGSystem.generate_answer W svc float_str).
Abbreviation query := (RAGSystem.query W svc index_name float_str).
Abbreviation build_context_parts := (RAGSystem.build_context_parts float_str).
Abbreviation prompt_for := (Requests.prompt_for float_str).

(** The run of [search], by the answers to its requests. *)
Lemma search_run question k search_type w sent :
  search question k search_type (w, sent)
  = match EmbeddingService.create_embedding W svc question (w, sent) with
    | (Return vector, (w1, sent1)) =>
      match search_query question search_type vector k with
      | Some q =>
        let '(r, w2) := os_search svc index_name q k w1 in
        (Return (match r with Return hits => hits | Raise _ => [] end),
         (w2, sent1 ++ [OsSearch index_name q k]))
      | None => (Return [], (w1, sent1))
      end
    | (Raise _, s1) => (Return [], s1)
    end.
Proof.
  unfold RAGSystem.search, try_except, bind.
  destruct (EmbeddingService.create_embedding W svc question (w, sent))
    as [[[|x vector]|e] [w1 sent1]] eqn:Hemb; [|simpl|done].
  - by apply create_embedding_nonempty in Hemb.
  - unfold eqb_str, search_query.
    destruct (bool_decide (search_type = py "vector")).
    { unfold VectorStore.search, try_except, request.
      by destruct (os_search svc index_name (Knn (x :: vector) k) k w1)
        as [[hits|e] w2]. }
    destruct (bool_decide (search_type = py "hybrid")); [|done].
    unfold VectorStore.hybrid_search, try_except, request.
    by destruct (os_search svc index_name
                   (Hybrid question (x :: vector) k float_0_7) k w1)
      as [[hits|e] w2].
Qed.

(** X19. [search] never raises and sends the embedding request of the
    question first. When that fails, or the mode is neither ["vector"]
    nor ["hybrid"], the result is empty and nothing else is sent: an
    unsupported mode is found out only after the question has been
    embedded. Otherwise one search request follows, a nearest-neighbour
    query for ["vector"] and the hybrid query with the weight 0.7 for
    ["hybrid"], with the size [k]; the result is the list of its hits,
    or empty when it fails. *)
Theorem search_requests (question : pystr) (k : Z) (search_type : pystr)
    (w : W) (sent : list call) :
  ∃ results w' sent' embedded w1,
    search question k search_type (w, sent) = (Return results, (w', sent'))
    ∧ EmbeddingService.create_embedding W svc question (w, sent)
      = (embedded, (w1, sent ++ [embedding_request question]))
    ∧ match embedded with
      | Raise _ => results = [] ∧ w' = w1 ∧ sent' = sent ++ [embedding_request question]
      | Return vector =>
        match search_query question search_type vector k with
        | None => results = [] ∧ w' = w1 ∧ sent' = sent ++ [embedding_request question]
        | Some q =>
          sent' = sent ++ [embedding_request question; OsSearch index_name q k]
          ∧ match os_search svc index_name q k w1 with
            | (Return hits, w2) => results = hits ∧ w' = w2
            | (Raise _, w2) => results = [] ∧ w' = w2
            end
        end
      end.
Proof.
  rewrite search_run.
  destruct (EmbeddingService.create_embedding W svc question (w, sent))
    as [r [w1 sent1]] eqn:Hemb.
  pose proof (create_embedding_sent W svc _ _ _ _ Hemb) as Hsent.
  simpl in Hsent. subst sent1. destruct r as [vector|e].
  - destruct (search_query question search_type vector k) as [q|] eqn:Hq.
    + destruct (os_search svc index_name q k w1) as [[hits|e] w2] eqn:Hcall.
      * eexists hits, w2, _, _, _. split; [done|]. split; [done|]. simpl.
        rewrite Hq, Hcall, <- app_assoc. done.
      * eexists [], w2, _, _, _. split; [done|]. split; [done|]. simpl.
        rewrite Hq, Hcall, <- app_assoc. done.
    + eexists [], w1, _, _, _. split; [done|]. split; [done|]. simpl.
      by rewrite Hq.
  - eexists [], w1, _, _, _. split; [done|]. by split.
Qed.

Lemma generate_answer_run query result results max_context_length w sent :
  generate_answer query (result :: results) max_context_length (w, sent)
  = let prompt := prompt_for query (result :: results) max_context_length in
    let '(r, w') := bedrock_llm svc LLM_MODEL_ID prompt w in
    (Return (match r with
             | Return text => text
             | Raise e => py "답변 생성 중 오류가 발생했습니다: " ++ exn_msg e
             end),
     (w', sent ++ [InvokeLLM LLM_MODEL_ID prompt])).
Proof.
  unfold RAGSystem.generate_answer, try_except, bind, request, prompt_for.
  by destruct (bedrock_llm svc LLM_MODEL_ID _ w) as [[text|e] w'].
Qed.

(** X20. [generate_answer] never raises. Without results it returns the
    fixed answer and sends nothing. With results it sends exactly one
    request to the chat model and returns its text, or the message with
    the error detail when the request fails. The request is sent also
    when the first result alone is longer than the maximum: the context
    of the prompt is then empty. *)
Theorem generate_answer_requests (query : pystr) (max_context_length : Z)
    (w : W) (sent : list call) :
  generate_answer query [] max_context_length (w, sent)
  = (Return NO_RESULTS_ANSWER, (w, sent))
  ∧ (∀ result results,
       let prompt := prompt_for query (result :: results) max_context_length in
       ∃ answer w',
         generate_answer query (result :: results) max_context_length (w, sent)
         = (Return answer, (w', sent ++ [InvokeLLM LLM_MODEL_ID prompt]))
         ∧ match bedrock_llm svc LLM_MODEL_ID prompt w with
           | (Return text, w1) => answer = text ∧ w' = w1
           | (Raise e, w1) =>
             answer = py "답변 생성 중 오류가 발생했습니다: " ++ exn_msg e ∧ w' = w1
           end)
  ∧ (∀ result results,
       (max_context_length < Z.of_nat (length (part_of float_str result)))%Z →
       prompt_for query (result :: results) max_context_length
       = prompt_of [] query).
Proof.
  split; [done|]. split.
  - intros result results prompt. rewrite generate_answer_run. fold prompt.
    cbv zeta.
    destruct (bedrock_llm svc LLM_MODEL_ID prompt w) as [[text|e] w'] eqn:Hllm.
    + by exists text, w'.
    + by exists (py "답변 생성 중 오류가 발생했습니다: " ++ exn_msg e), w'.
  - intros result results Hlong.
    unfold prompt_for, RAGSystem.build_context_parts. simpl.
    destruct (_ >? _)%Z eqn:Hgt; [done|].
    rewrite Z.gtb_ltb, Z.ltb_ge in Hgt. lia.
Qed.

Lemma search_sent question k search_type w sent :
  ∃ results w' requests,
    search question k search_type (w, sent)
    = (Return results, (w', sent ++ requests))
    ∧ (length requests ≤ 2)%nat
    ∧ Forall (fun c => is_llm_request c = false) requests.
Proof.
  rewrite search_run.
  destruct (EmbeddingService.create_embedding W svc question (w, sent))
    as [r [w1 sent1]] eqn:Hemb.
  pose proof (create_embedding_sent W svc _ _ _ _ Hemb) as Hsent.
  simpl in Hsent. subst sent1. destruct r as [vector|e].
  - destruct (search_query question search_type vector k) as [q|].
    + destruct (os_search svc index_name q k w1) as [r w2].
      eexists _, w2, [_; _]. rewrite <- app_assoc. split; [done|].
      split; [simpl; lia|]. by repeat constructor.
    + eexists _, w1, [_]. split; [done|]. split; [simpl; lia|].
      by repeat constructor.
  - eexists _, w1, [_]. split; [done|]. split; [simpl; lia|].
    by repeat constructor.
Qed.

(** X21. The outcomes of [query]. It always returns a dict with the
    keys [question], [answer], [sources] and [search_time], the question
    being the one asked, and sends at most three requests. The dict is
    one of three: the response for no results, and then the chat model
    was not asked; the full response, whose [results_count] is the
    length of its non-empty source list, after exactly one request to the
    chat model; or the error response for a [TypeError] of the source
    list, and then the chat model had been asked and its answer is
    lost. *)
Theorem query_outcomes (question : pystr) (k : Z) (search_type : pystr)
    (w : W) (sent : list call) :
  ∃ response w' requests,
    query question k search_type (w, sent)
    = (Return response, (w', sent ++ requests))
    ∧ response !! "question"%string = Some (RStr question)
    ∧ is_Some (response !! "answer"%string)
    ∧ is_Some (response !! "sources"%string)
    ∧ is_Some (response !! "search_time"%string)
    ∧ (length requests ≤ 3)%nat
    ∧ ((∃ elapsed,
          response = no_results_response question elapsed
          ∧ Forall (fun c => is_llm_request c = false) requests)
       ∨ (∃ answer sources elapsed,
            response = full_response question answer sources elapsed
                         search_type (length sources)
            ∧ sources ≠ []
            ∧ length (List.filter is_llm_request requests) = 1%nat)
       ∨ (∃ e,
            response = error_response question e
            ∧ exn_class e = "TypeError"%string
            ∧ length (List.filter is_llm_request requests) = 1%nat)).
Proof.
  unfold RAGSystem.query, try_except, RAGSystem.query_try, bind, observe.
  destruct (clock svc w) as [t0 w0]. fold search.
  destruct (search_sent question k search_type w0 sent)
    as (results & w1 & requests & Hsearch & Hlen & Hnollm).
  rewrite Hsearch. destruct results as [|result results].
  - destruct (clock svc w1) as [t1 w2].
    eexists _, w2, requests. split; [done|].
    split; [done|]. split; [by eexists|]. split; [by eexists|].
    split; [by eexists|]. split; [lia|]. left. eauto.
  - fold generate_answer. rewrite generate_answer_run. cbv zeta.
    destruct (bedrock_llm svc LLM_MODEL_ID _ w1) as [r w2].
    assert (Hfilter : ∀ c, length (List.filter is_llm_request
                                     (requests ++ [InvokeLLM LLM_MODEL_ID c]))
                           = 1%nat).
    { intros c. rewrite List.filter_app, length_app. simpl.
      replace (List.filter is_llm_request requests) with (@nil call); [done|].
      clear -Hnollm. induction Hnollm as [|x l Hx _ IH]; [done|].
      simpl. by rewrite Hx. }
    unfold lift.
    destruct (build_sources (result :: results) []) as [sources|e] eqn:Hsources.
    + unfold ret. destruct (clock svc w2) as [t1 w3].
      eexists _, w3, (requests ++ [_]). rewrite <- app_assoc. split; [done|].
      split; [done|]. split; [by eexists|]. split; [by eexists|].
      split; [by eexists|]. split; [rewrite length_app; simpl; lia|].
      right. left. apply build_sources_length in Hsources. simpl in Hsources.
      eexists _, sources, _. rewrite Hsources. split; [done|].
      split; [by destruct sources | apply Hfilter].
    + unfold raise, ret.
      eexists _, w2, (requests ++ [_]). rewrite <- app_assoc. split; [done|].
      split; [done|]. split; [by eexists|]. split; [by eexists|].
      split; [by eexists|]. split; [rewrite length_app; simpl; lia|].
      right. right. exists e. split; [done|].
      split; [by eapply build_sources_raises | apply Hfilter].
Qed.

End WithServices.

End QueryMore.

(** ** The stages of a query and their failures *)

Module QueryStages.
Import RAGSystem EmbeddingMore Requests Sources QueryMore.

Section WithServices.

Variable W : Type.
Variable svc : Services W.
Variable index_name : pystr.
Variable float_str : float -> pystr.

Abbreviation search := (RAGSystem.search W svc index_name).
Abbreviation generate_answer := (RAGSystem.generate_answer W svc float_str).
Abbreviation query := (RAGSystem.query W svc index_name float_str).
Abbreviation prompt_for := (Requests.prompt_for float_str).
Abbreviation create_embedding := (EmbeddingService.create_embedding W svc).

(** The run of [query] when the search gives nothing. *)
Lemma query_nothing_found question k search_type w sent t0 w0 w1 sent1 t1 w2 :
  clock svc w = (t0, w0) →
  search question k search_type (w0, sent) = (Return [], (w1, sent1)) →
  clock svc w1 = (t1, w2) →
  query question k search_type (w, sent)
  = (Return (no_results_response question (t1 - t0)), (w2, sent1)).
Proof.
  intros Ht0 Hsearch Ht1.
  unfold RAGSystem.query, try_except, RAGSystem.query_try, bind, observe.
  rewrite Ht0. fold search. rewrite Hsearch. by rewrite Ht1.
Qed.

(** C5. [query] never raises: in every state it returns a response
    dict. The failures of its stages end in three different responses.
    When the embedding of the question raises, when the search mode is
    not supported, and when the search request raises or finds nothing,
    the response is the one for no results: the fixed answer, no sources,
    the elapsed time, and no error field. When the search has hits, the
    chat model is asked once; if it raises, [generate_answer] turns the
    exception into an answer that ends with the error detail. Then, if
    the content of every hit is a string, the response is the full one:
    that answer, one source for every hit, the elapsed time, the search
    mode and the number of hits, and no error field. Only an exception of
    the source list, for a hit whose content has no length, reaches the
    handler of [query], whatever the chat model did: the response then
    has an answer that ends with the error detail, no sources, a search
    time of zero and the error field. *)
Theorem query_absorbs_exceptions (question : pystr) (k : Z) (search_type : pystr)
    (w : W) (sent : list call) :
  (∃ response s', query question k search_type (w, sent) = (Return response, s'))
  ∧ (∀ t0 w0 e w1 sent1 t1 w2,
       clock svc w = (t0, w0) →
       create_embedding question (w0, sent) = (Raise e, (w1, sent1)) →
       clock svc w1 = (t1, w2) →
       query question k search_type (w, sent)
       = (Return (no_results_response question (t1 - t0)), (w2, sent1)))
  ∧ (∀ t0 w0 vector w1 sent1 t1 w2,
       clock svc w = (t0, w0) →
       create_embedding question (w0, sent) = (Return vector, (w1, sent1)) →
       search_query question search_type vector k = None →
       clock svc w1 = (t1, w2) →
       query question k search_type (w, sent)
       = (Return (no_results_response question (t1 - t0)), (w2, sent1)))
  ∧ (∀ t0 w0 vector w1 sent1 q r w2 t1 w3,
       clock svc w = (t0, w0) →
       create_embedding question (w0, sent) = (Return vector, (w1, sent1)) →
       search_query question search_type vector k = Some q →
       os_search svc index_name q k w1 = (r, w2) →
       (∀ hit hits, r ≠ Return (hit :: hits)) →
       clock svc w2 = (t1, w3) →
       query question k search_type (w, sent)
       = (Return (no_results_response question (t1 - t0)),
          (w3, sent1 ++ [OsSearch index_name q k])))
  ∧ (∀ t0 w0 vector w1 sent1 q hit hits w2 r w3,
       clock svc w = (t0, w0) →
       create_embedding question (w0, sent) = (Return vector, (w1, sent1)) →
       search_query question search_type vector k = Some q →
       os_search svc index_name q k w1 = (Return (hit :: hits), w2) →
       bedrock_llm svc LLM_MODEL_ID (prompt_for question (hit :: hits) 4000) w2
       = (r, w3) →
       let answer :=
         match r with
         | Return text => text
         | Raise e => py "답변 생성 중 오류가 발생했습니다: " ++ exn_msg e
         end in
       let sent3 :=
         sent1 ++ [OsSearch index_name q k;
                   InvokeLLM LLM_MODEL_ID (prompt_for question (hit :: hits) 4000)] in
       (∀ contents t1 w4,
          map content_string (hit :: hits) = map Some contents →
          clock svc w3 = (t1, w4) →
          query question k search_type (w, sent)
          = (Return (full_response question answer
                       (zip_with source_dict (hit :: hits) contents)
                       (t1 - t0) search_type (length (hit :: hits))),
             (w4, sent3)))
       ∧ (∀ before result after,
            hit :: hits = before ++ result :: after →
            Forall (fun r => content_string r ≠ None) before →
            content_string result = None →
            query question k search_type (w, sent)
            = (Return (error_response question
                         (TypeError (py "object of type '"
                                     ++ type_name (r_content result)
                                     ++ py "' has no len()"))),
               (w3, sent3))))
  ∧ (∀ elapsed,
       let response := no_results_response question elapsed in
       response !! "answer"%string = Some (RStr NO_RESULTS_ANSWER)
       ∧ response !! "sources"%string = Some (RSources [])
       ∧ response !! "search_time"%string = Some (RSeconds elapsed)
       ∧ response !! "error"%string = None)
  ∧ (∀ answer sources elapsed count,
       let response :=
         full_response question answer sources elapsed search_type count in
       response !! "answer"%string = Some (RStr answer)
       ∧ response !! "sources"%string = Some (RSources sources)
       ∧ response !! "search_time"%string = Some (RSeconds elapsed)
       ∧ response !! "search_type"%string = Some (RStr search_type)
       ∧ response !! "results_count"%string = Some (RInt (Z.of_nat count))
       ∧ response !! "error"%string = None)
  ∧ (∀ e,
       let response := error_response question e in
       response !! "answer"%string
       = Some (RStr (py "오류가 발생했습니다: " ++ exn_msg e))
       ∧ response !! "sources"%string = Some (RSources [])
       ∧ response !! "search_time"%string = Some (RInt 0)
       ∧ response !! "error"%string = Some (RStr (exn_msg e))).
Proof.
  split; [|split; [|split; [|split; [|split; [|split; [|split]]]]]].
  - unfold RAGSystem.query, try_except.
    destruct (RAGSystem.query_try _ _ _ _ _ _ _ _) as [[response|e] s'];
      unfold ret; eauto.
  - intros t0 w0 e w1 sent1 t1 w2 Ht0 Hemb Ht1.
    apply (query_nothing_found _ _ _ _ _ t0 w0 w1 sent1 t1 w2); [done| |done].
    by rewrite search_run, Hemb.
  - intros t0 w0 vector w1 sent1 t1 w2 Ht0 Hemb Hq Ht1.
    apply (query_nothing_found _ _ _ _ _ t0 w0 w1 sent1 t1 w2); [done| |done].
    by rewrite search_run, Hemb, Hq.
  - intros t0 w0 vector w1 sent1 q r w2 t1 w3 Ht0 Hemb Hq Hsearch Hnone Ht1.
    apply (query_nothing_found _ _ _ _ _ t0 w0 w2
             (sent1 ++ [OsSearch index_name q k]) t1 w3); [done| |done].
    rewrite search_run, Hemb, Hq, Hsearch.
    destruct r as [[|hit hits]|e]; [done | by destruct (Hnone hit hits) | done].
  - intros t0 w0 vector w1 sent1 q hit hits w2 r w3 Ht0 Hemb Hq Hsearch Hllm
      answer sent3.
    assert (Hrun : ∀ sources_outcome,
              build_sources (hit :: hits) [] = sources_outcome →
              query question k search_type (w, sent)
              = match sources_outcome with
                | Return sources =>
                  let '(t1, w4) := clock svc w3 in
                  (Return (full_response question answer sources (t1 - t0)
                             search_type (length (hit :: hits))),
                   (w4, sent3))
                | Raise e => (Return (error_response question e), (w3, sent3))
                end).
    { intros sources_outcome Hsources.
      unfold RAGSystem.query, try_except, RAGSystem.query_try, bind, observe.
      rewrite Ht0. fold search. rewrite search_run, Hemb, Hq, Hsearch.
      fold generate_answer. rewrite generate_answer_run. cbv zeta.
      fold prompt_for. rewrite Hllm. unfold lift. rewrite Hsources.
      subst sent3. rewrite <- app_assoc. simpl.
      destruct sources_outcome as [sources|e]; [|done].
      unfold ret. by destruct (clock svc w3). }
    split.
    + intros contents t1 w4 Hall Ht1.
      rewrite (Hrun _ (build_sources_strings _ [] _ Hall)). simpl.
      by rewrite Ht1.
    + intros before result after Hhits Hbefore Hnone.
      by rewrite (Hrun _ (build_sources_first_other _ [] _ _ _ Hhits Hbefore Hnone)).
  - done.
  - done.
  - done.
Qed.

End WithServices.

End QueryStages.

(** The chat model is down and the one hit has a null content: the
    exception of the source list reaches the handler of [query], and the
    message of the chat model is lost. *)
Lemma query_absorbs_exceptions_witness :
  fst (RAGSystem.query unit (Worlds.serving [Worlds.null_content_hit] false)
         Worlds.index_name ContextSpec.no_float_str (py "질문") 5 (py "vector")
         Worlds.start)
  = Return (RAGSystem.error_response (py "질문")
              (TypeError (py "object of type 'NoneType' has no len()"))).
Proof.
  pose proof (QueryStages.query_absorbs_exceptions unit
                (Worlds.serving [Worlds.null_content_hit] false)
                Worlds.index_name ContextSpec.no_float_str
                (py "질문") 5 (py "vector") () [])
    as (_ & _ & _ & _ & Hhits & _).
  destruct (Hhits 0%Z () [float_0_7] ()
              [Requests.embedding_request (py "질문")]
              (Knn [float_0_7] 5) Worlds.null_content_hit [] ()
              (Raise Worlds.ConnectionError) ()
              eq_refl eq_refl eq_refl eq_refl eq_refl) as [_ Herror].
  unfold Worlds.start.
  by rewrite (Herror [] Worlds.null_content_hit [] eq_refl (Forall_nil_2 _) eq_refl).
Defined.

(** ** Index administration and the lifecycle of the system *)

Module LifecycleFacts.
Import IndexAdmin Lifecycle EmbeddingMore Requests.

Section WithServices.

Variable W : Type.
Variable svc : Services W.
Variable admin : Admin W.
Variable index_name : pystr.

Abbreviation create_index := (IndexAdmin.create_index W admin index_name).
Abbreviation delete_index := (IndexAdmin.delete_index W admin index_name).
Abbreviation setup_system := (Lifecycle.setup_system W svc admin index_name).
Abbreviation reset_system := (Lifecycle.reset_system W admin index_name).

(** X22. [create_index] and [delete_index] are idempotent by their
    checks. When the index is there, [create_index] reports success and
    creates nothing: the world is the one its check left. When the check
    says the index is missing and the creation fails because the index
    exists already, it reports success all the same. When the index is
    missing, [delete_index] reports success and deletes nothing; when it
    is there, [delete_index] reports whether the deletion went through. *)
Theorem index_admin_idempotent (dimension : Z) (w : W) :
  (∀ w1, indices_exists admin index_name w = (Done true, w1) →
         create_index dimension w = (true, w1))
  ∧ (∀ w1 e w2,
       indices_exists admin index_name w = (Done false, w1) →
       indices_create admin index_name dimension w1
       = (RequestError (py "resource_already_exists_exception") e, w2) →
       create_index dimension w = (true, w2))
  ∧ (∀ w1 error e w2,
       indices_exists admin index_name w = (Done false, w1) →
       indices_create admin index_name dimension w1 = (RequestError error e, w2) →
       error ≠ py "resource_already_exists_exception" →
       create_index dimension w = (false, w2))
  ∧ (∀ w1, indices_exists admin index_name w = (Done false, w1) →
           delete_index w = (true, w1))
  ∧ (∀ w1 r w2,
       indices_exists admin index_name w = (Done true, w1) →
       indices_delete admin index_name w1 = (r, w2) →
       delete_index w = (match r with Done _ => true | _ => false end, w2)).
Proof.
  unfold IndexAdmin.create_index, IndexAdmin.create_index_try,
    IndexAdmin.delete_index, IndexAdmin.delete_index_try, abind, aret.
  split; [|split; [|split; [|split]]].
  - by intros w1 ->.
  - by intros w1 e w2 -> ->.
  - intros w1 error e w2 -> -> Hne. unfold eqb_str.
    by rewrite bool_decide_eq_false_2.
  - by intros w1 ->.
  - intros w1 r w2 -> ->. by destruct r.
Qed.

(** X23. [setup_system] and [reset_system] never raise and stop at the
    first step that fails. When the probe of the embedding model fails,
    [setup_system] returns [False] and does not touch the index. When
    the deletion fails, [reset_system] returns [False] and creates
    nothing; when the deletion succeeds and the creation fails it returns
    [False] too, and the index stays deleted. [reset_system] sends no
    request of the indexing or query path, [setup_system] only that of
    the probe. *)
Theorem lifecycle_stops_at_first_failure (w : W) (sent : list call) :
  (∃ ok w', setup_system (w, sent)
            = (Return ok, (w', sent ++ [embedding_request (py "연결 테스트")])))
  ∧ (∀ s1, EmbeddingProbe.test_connection W svc (w, sent) = (Return false, s1) →
           setup_system (w, sent) = (Return false, s1))
  ∧ (∀ w1 sent1 created w2,
       EmbeddingProbe.test_connection W svc (w, sent) = (Return true, (w1, sent1)) →
       create_index 1024 w1 = (created, w2) →
       setup_system (w, sent) = (Return created, (w2, sent1)))
  ∧ (∀ w1, delete_index w = (false, w1) →
           reset_system (w, sent) = (Return false, (w1, sent)))
  ∧ (∀ w1 created w2,
       delete_index w = (true, w1) →
       create_index 1024 w1 = (created, w2) →
       reset_system (w, sent) = (Return created, (w2, sent))).
Proof.
  unfold Lifecycle.setup_system, Lifecycle.reset_system, try_except, bind, observe.
  split; [|split; [|split; [|split]]].
  - destruct (test_connection_run W svc w sent) as (ok & w1 & ->).
    destruct ok; simpl; [|by eauto].
    destruct (create_index 1024 w1) as [[] w2]; simpl; eauto.
  - by intros s1 ->.
  - intros w1 sent1 created w2 Hprobe Hcreate. rewrite Hprobe. simpl.
    rewrite Hcreate. by destruct created.
  - by intros w1 ->.
  - intros w1 created w2 Hdelete Hcreate. rewrite Hdelete. simpl.
    rewrite Hcreate. by destruct created.
Qed.

End WithServices.

Section Pipeline.

Variable W : Type.
Variable svc : Services W.
Variable index_name : pystr.
Variable tolower_full : N -> list N.
Variable lower_sigma : pystr -> pystr -> N.
Variable tokenize : pystr -> outcome (list N).
Variable extract_pdf_content : pystr -> W -> outcome Chunker.Content * W.
Variable isoformat : Z -> pystr.

Abbreviation process_document :=
  (Lifecycle.process_document W svc tolower_full lower_sigma tokenize
     extract_pdf_content isoformat).
Abbreviation process_and_index_document :=
  (Lifecycle.process_and_index_document W svc index_name tolower_full lower_sigma
     tokenize extract_pdf_content isoformat).

(** The content dict [process_document] hands to [create_chunks]. *)
Lemma process_document_run pdf_path w sent :
  process_document pdf_path (w, sent)
  = match extract_pdf_content pdf_path w with
    | (Raise e, w0) => (Raise e, (w0, sent))
    | (Return extracted, w0) =>
      let '(now, w1) := clock svc w0 in
      (Tokenized.create_chunks tolower_full lower_sigma tokenize
         (Lifecycle.stamped_content isoformat pdf_path extracted now),
       (w1, sent))
    end.
Proof.
  unfold Lifecycle.process_document, bind, observe, lift.
  destruct (extract_pdf_content pdf_path w) as [[extracted|e] w0]; [|done].
  destruct (clock svc w0) as [now w1].
  by destruct (Tokenized.create_chunks _ _ _ _).
Qed.

Lemma process_document_sent pdf_path w sent r w1 sent1 :
  process_document pdf_path (w, sent) = (r, (w1, sent1)) → sent1 = sent.
Proof.
  rewrite process_document_run.
  destruct (extract_pdf_content pdf_path w) as [[extracted|e] w0].
  - destruct (clock svc w0) as [now w2]. by intros [= _ _ <-].
  - by intros [= _ _ <-].
Qed.

(** X24. [process_and_index_document] never raises. When the extraction
    fails, when the tokenizer raises in [create_chunks], or when the
    document gives no chunk, it returns [False] and sends no request.
    Otherwise it first sends one embedding request for every chunk, in
    chunk order and for the preprocessed content of the chunk, and only
    then the requests of the indexing step; its test of the number of
    embeddings never fails. *)
Theorem pipeline_embeds_then_indexes (pdf_path : pystr) (w : W) (sent : list call) :
  (∃ ok w' requests,
     process_and_index_document pdf_path (w, sent)
     = (Return ok, (w', sent ++ requests))
     ∧ match fst (process_document pdf_path (w, sent)) with
       | Raise _ | Return [] => ok = false ∧ requests = []
       | Return chunks =>
         ∃ indexing,
           requests
           = map embedding_request (map Chunker.content chunks) ++ indexing
           ∧ Forall (fun c => is_index_request c = true) indexing
       end)
  ∧ (∀ extracted w0 now w1 e,
       extract_pdf_content pdf_path w = (Return extracted, w0) →
       clock svc w0 = (now, w1) →
       Tokenized.create_chunks tolower_full lower_sigma tokenize
         (Lifecycle.stamped_content isoformat pdf_path extracted now) = Raise e →
       process_and_index_document pdf_path (w, sent) = (Return false, (w1, sent))).
Proof.
  split.
  - unfold Lifecycle.process_and_index_document, try_except, bind.
    fold process_document.
    destruct (process_document pdf_path (w, sent)) as [r [w1 sent1]] eqn:Hdoc.
    apply process_document_sent in Hdoc as ->.
    destruct r as [[|chunk chunks]|e]; simpl.
    + exists false, w1, []. by rewrite app_nil_r.
    + destruct (batches_run W svc (Chunker.content chunk :: map Chunker.content chunks)
                  10 (w1, sent) ltac:(lia)) as (vs & [w2 sent2] & Hbatch & Hemb).
      rewrite Hbatch.
      pose proof (EmbeddingFacts.embedded_length W svc _ _ _ _ Hemb) as Hlen.
      apply embedded_sent in Hemb. simpl in Hemb, Hlen. subst sent2.
      rewrite length_map in Hlen. rewrite Hlen, Nat.eqb_refl. simpl.
      destruct (VectorStoreMore.add_documents_sent W svc index_name
                  (chunk :: chunks) vs w2
                  (sent ++ embedding_request (Chunker.content chunk)
                     :: map embedding_request (map Chunker.content chunks)))
        as (ok & w3 & indexing & Hadd & Hindexing); [simpl; lia|].
      rewrite Hadd.
      exists ok, w3, (embedding_request (Chunker.content chunk)
                      :: map embedding_request (map Chunker.content chunks)
                      ++ indexing).
      split.
      * destruct ok; unfold ret; by rewrite <- app_assoc.
      * by exists indexing.
    + exists false, w1, []. by rewrite app_nil_r.
  - intros extracted w0 now w1 e Hextract Hclock Hraise.
    unfold Lifecycle.process_and_index_document, try_except, bind.
    fold process_document. rewrite process_document_run.
    by rewrite Hextract, Hclock, Hraise.
Qed.

End Pipeline.

End LifecycleFacts.

(** An index that appears between the check and the creation, and the
    deletion of an index that is not there. *)
Lemma index_admin_idempotent_witness :
  IndexAdmin.create_index bool AdminWorld.racing_index Worlds.index_name 1024 false
  = (true, true)
  ∧ IndexAdmin.delete_index bool AdminWorld.flag_index Worlds.index_name false
    = (true, false).
Proof.
  split.
  - apply (proj1 (proj2 (LifecycleFacts.index_admin_idempotent bool
                           AdminWorld.racing_index Worlds.index_name 1024 false))
             false AdminWorld.BadRequest true); reflexivity.
  - apply (proj1 (proj2 (proj2 (proj2
             (LifecycleFacts.index_admin_idempotent bool AdminWorld.flag_index
                Worlds.index_name 1024 false)))) false); reflexivity.
Defined.

(** Nothing can be reached: the setup stops at the probe, the reset at
    the deletion. *)
Lemma lifecycle_stops_at_first_failure_witness :
  Lifecycle.setup_system unit Worlds.unreachable AdminWorld.refusing
    Worlds.index_name Worlds.start
  = (Return false,
     ((), [Requests.embedding_request (py "연결 테스트")]))
  ∧ Lifecycle.reset_system unit AdminWorld.refusing Worlds.index_name Worlds.start
    = (Return false, Worlds.start).
Proof.
  pose proof (LifecycleFacts.lifecycle_stops_at_first_failure unit
                Worlds.unreachable AdminWorld.refusing Worlds.index_name () [])
    as (_ & Hprobe & _ & Hdelete & _).
  split.
  - apply (Hprobe ((), [Requests.embedding_request (py "연결 테스트")])).
    by vm_compute.
  - apply (Hdelete ()). reflexivity.
Defined.

(** A manual whose one page spells the special token: the tokenizer
    raises, nothing is sent and the answer is [False]. *)
Lemma pipeline_embeds_then_indexes_witness :
  Lifecycle.process_and_index_document unit (Worlds.serving [] true)
    Worlds.index_name Examples.ascii_tolower Examples.sigma_small
    TokenizerSamples.strict
    (fun _ w => (Return TokenizerSamples.special_document, w))
    (fun _ => []) (py "manual.pdf") Worlds.start
  = (Return false, Worlds.start).
Proof.
  apply (proj2 (LifecycleFacts.pipeline_embeds_then_indexes unit
                  (Worlds.serving [] true) Worlds.index_name
                  Examples.ascii_tolower Examples.sigma_small
                  TokenizerSamples.strict
                  (fun _ w => (Return TokenizerSamples.special_document, w))
                  (fun _ => []) (py "manual.pdf") () [])
           TokenizerSamples.special_document () 0%Z ()
           (ValueError (py "Encountered text corresponding to disallowed special token"))).
  - reflexivity.
  - reflexivity.
  - by vm_compute.
Defined.
